(** * Dashboard data synchronisation layer: the API service and its cache

    A shallow embedding of the [DashboardAPI] service (dashboardAPI.js) and
    of the server-events carousel's [fetchEvents], with the properties of
    the synchronisation layer stated over them.

    Asynchronous functions are embedded as resumptions ([Task]): the
    synchronous stretches between two [await]s are state transformers over
    the service's world, a network call suspends the task until its outcome
    is supplied, and a call that is not awaited ([Spawn]) runs to its first
    suspension and is then parked.  *)

From Stdlib Require Import ZArith Bool.
From stdpp Require Import base option list gmap strings fin_maps pretty.

Open Scope Z_scope.

Set Warnings "-register-all".

(** ** JavaScript values *)

(** A parsed JSON document.  Numbers are the integers, which is all the
    service looks at (timestamps, counts, status codes). *)
Inductive value : Type :=
| VNull
| VBool (b : bool)
| VNum (n : Z)
| VStr (s : string)
| VArr (items : list value)
| VObj (fields : list (string * value)).

(** Objects the service builds itself (spread copies, cached data). *)
Abbreviation obj := (gmap string value).

Lemma value_eq_dec : forall a b : value, {a = b} + {a <> b}.
Proof.
  fix IH 1.
  assert (IHl : forall l1 l2 : list value, {l1 = l2} + {l1 <> l2}).
  { induction l1 as [|x l1 IHl1]; destruct l2 as [|y l2];
      try (right; discriminate); [left; reflexivity|].
    destruct (IH x y) as [->|Hne]; [|right; congruence].
    destruct (IHl1 l2) as [->|Hne]; [left; reflexivity|right; congruence]. }
  assert (IHf : forall l1 l2 : list (string * value), {l1 = l2} + {l1 <> l2}).
  { induction l1 as [|[k x] l1 IHl1]; destruct l2 as [|[k' y] l2];
      try (right; discriminate); [left; reflexivity|].
    destruct (String.string_dec k k') as [->|Hne]; [|right; congruence].
    destruct (IH x y) as [->|Hne]; [|right; congruence].
    destruct (IHl1 l2) as [->|Hne]; [left; reflexivity|right; congruence]. }
  intros [| b1 | n1 | s1 | l1 | f1] [| b2 | n2 | s2 | l2 | f2];
    try (right; discriminate); try (left; reflexivity).
  - destruct (Bool.bool_dec b1 b2) as [->|]; [left; reflexivity|right; congruence].
  - destruct (Z.eq_dec n1 n2) as [->|]; [left; reflexivity|right; congruence].
  - destruct (String.string_dec s1 s2) as [->|]; [left; reflexivity|right; congruence].
  - destruct (IHl l1 l2) as [->|]; [left; reflexivity|right; congruence].
  - destruct (IHf f1 f2) as [->|]; [left; reflexivity|right; congruence].
Defined.

#[global] Instance value_eq_decision : EqDecision value := value_eq_dec.

(** Truthiness, as [if (v)] and [||] see it. *)
Definition truthy (v : value) : bool :=
  match v with
  | VNull => false
  | VBool b => b
  | VNum n => negb (n =? 0)
  | VStr s => negb (String.eqb s "")
  | VArr _ | VObj _ => true
  end.

(** A property that may be [undefined]. *)
Definition truthy_prop (p : option value) : bool := from_option truthy false p.

(** [a || b] on a property read. *)
Definition js_or (p : option value) (d : value) : value :=
  match p with
  | Some v => if truthy v then v else d
  | None => d
  end.

(** [hay.includes(needle)]. *)
Fixpoint js_includes (hay needle : string) : bool :=
  if String.prefix needle hay then true
  else match hay with
       | EmptyString => false
       | String _ rest => js_includes rest needle
       end.

(** A token read from [this.token] or [localStorage]: [null] and the empty
    string are the falsy ones. *)
Definition truthy_str (t : option string) : bool :=
  match t with
  | Some s => negb (String.eqb s "")
  | None => false
  end.

(** [JSON.parse] keeps the last of two equal keys. *)
Definition obj_of_fields (fields : list (string * value)) : obj :=
  foldl (fun m kv => <[kv.1 := kv.2]> m) ∅ fields.

Definition index_fields (items : list value) : list (string * value) :=
  imap (fun i v => (pretty (Z.of_nat i), v)) items.

Fixpoint chars (s : string) : list value :=
  match s with
  | EmptyString => []
  | String c rest => VStr (String c EmptyString) :: chars rest
  end.

(** [{ ...v }]: the own enumerable properties of [v]. *)
Definition spread (v : value) : obj :=
  match v with
  | VObj fields => obj_of_fields fields
  | VArr items => obj_of_fields (index_fields items)
  | VStr s => obj_of_fields (index_fields (chars s))
  | VNull | VBool _ | VNum _ => ∅
  end.

(** An object of the service stored back as a value. *)
Definition value_of_obj (o : obj) : value := VObj (map_to_list o).

(** [String(v)], for an error message built from a value. *)
Fixpoint js_string (v : value) : string :=
  match v with
  | VNull => "null"
  | VBool true => "true"
  | VBool false => "false"
  | VNum n => pretty n
  | VStr s => s
  | VArr items =>
      (fix join (l : list value) : string :=
         match l with
         | [] => ""
         | [x] => match x with VNull => "" | _ => js_string x end
         | x :: rest =>
             (match x with VNull => "" | _ => js_string x end) +:+ "," +:+ join rest
         end) items
  | VObj _ => "[object Object]"
  end.

(** ** Errors and results *)

Record JsError : Type := mkError { err_name : string; err_message : string }.

#[global] Instance JsError_eq_decision : EqDecision JsError.
Proof. solve_decision. Defined.

(** [new Error(msg)]. *)
Definition Error (msg : string) : JsError := mkError "Error" msg.

(** The outcome of a promise: resolved with a value or rejected. *)
Inductive Result (A : Type) : Type :=
| Ok (a : A)
| Thrown (e : JsError).
Arguments Ok {A} a.
Arguments Thrown {A} e.

(** [v.key] on a parsed document: reading a property of [null] throws. *)
Definition get_prop (v : value) (key : string) : Result (option value) :=
  match v with
  | VNull =>
      Thrown (mkError "TypeError"
                ("Cannot read properties of null (reading '" +:+ key +:+ "')"))
  | VObj fields => Ok (obj_of_fields fields !! key)
  | VArr _ | VStr _ | VBool _ | VNum _ => Ok None
  end.

(** [v.key] once [v] is known not to be [null]. *)
Definition prop (v : value) (key : string) : option value :=
  match get_prop v key with
  | Ok p => p
  | Thrown _ => None
  end.

(** ** The network *)

Record Request : Type := mkRequest {
  req_method : string;
  req_url : string;
  req_headers : gmap string string;
  req_body : option string
}.

#[global] Instance Request_eq_decision : EqDecision Request.
Proof. solve_decision. Defined.

(** What [fetch] settles with: it rejects, or it resolves with a response,
    whose [json()] in turn resolves or rejects. *)
Inductive FetchOutcome : Type :=
| Rejected (e : JsError)
| Response (status : Z) (json : Result value).

(** [response.ok]. *)
Definition response_ok (status : Z) : bool := (200 <=? status) && (status <=? 299).

(** The [options] argument of [fetchWithAuth]. *)
Record Options : Type := mkOptions {
  opt_method : option string;
  opt_headers : gmap string string;
  opt_body : option string
}.

Definition no_options : Options := mkOptions None ∅ None.
Definition post_options : Options := mkOptions (Some "POST") ∅ None.

(** ** Events and the console *)

(** A [CustomEvent] dispatched on [window]. *)
Record Event : Type := mkEvent { ev_type : string; ev_detail : option value }.

#[global] Instance Event_eq_decision : EqDecision Event.
Proof. solve_decision. Defined.

(** A console line: its level and its first argument. *)
Record LogEntry : Type := mkLog { log_level : string; log_text : string }.

(** ** Asynchronous functions as resumptions *)

Section Tasks.
Context {S : Type}.

Inductive Task (A : Type) : Type :=
| Done (a : A)
| Sync {X : Type} (f : S -> X * S) (k : X -> Task A)
| Fetch (r : Request) (k : FetchOutcome -> Task A)
| Fetch2 (r1 r2 : Request) (k : FetchOutcome -> FetchOutcome -> Task A)
| Spawn (c : Task unit) (k : Task A).

Arguments Done {A} a.
Arguments Sync {A X} f k.
Arguments Fetch {A} r k.
Arguments Fetch2 {A} r1 r2 k.
Arguments Spawn {A} c k.

Fixpoint bind {A B : Type} (t : Task A) (f : A -> Task B) : Task B :=
  match t with
  | Done a => f a
  | Sync g k => Sync g (fun x => bind (k x) f)
  | Fetch r k => Fetch r (fun o => bind (k o) f)
  | Fetch2 r1 r2 k => Fetch2 r1 r2 (fun o1 o2 => bind (k o1 o2) f)
  | Spawn c k => Spawn c (bind k f)
  end.

(** Read the state, change the state. *)
Definition read {X : Type} (f : S -> X) : Task X :=
  Sync (fun s => (f s, s)) Done.
Definition modify (f : S -> S) : Task unit :=
  Sync (fun s => (tt, f s)) Done.

(** A task that is waiting for the network. *)
Inductive Suspended (A : Type) : Type :=
| Finished (a : A)
| Waiting (r : Request) (k : FetchOutcome -> Task A)
| Waiting2 (r1 r2 : Request) (k : FetchOutcome -> FetchOutcome -> Task A).
Arguments Finished {A} a.
Arguments Waiting {A} r k.
Arguments Waiting2 {A} r1 r2 k.

(** The requests a suspended task has in flight. *)
Definition in_flight {A : Type} (s : Suspended A) : list Request :=
  match s with
  | Finished _ => []
  | Waiting r _ => [r]
  | Waiting2 r1 r2 _ => [r1; r2]
  end.

(** Parked background tasks: those of them that still wait. *)
Definition park (s : Suspended unit) : list (Suspended unit) :=
  match s with
  | Finished _ => []
  | _ => [s]
  end.

(** Run a task up to its first suspension.  The third component holds
    the background tasks it started on the way. *)
Fixpoint advance {A : Type} (t : Task A) (s : S)
  : Suspended A * S * list (Suspended unit) :=
  match t with
  | Done a => (Finished a, s, [])
  | Sync f k => let '(x, s') := f s in advance (k x) s'
  | Fetch r k => (Waiting r k, s, [])
  | Fetch2 r1 r2 k => (Waiting2 r1 r2 k, s, [])
  | Spawn c k =>
      let '(sc, s1, p1) := advance c s in
      let '(sk, s2, p2) := advance k s1 in
      (sk, s2, p1 ++ park sc ++ p2)
  end.

(** Resume a suspended task with the outcomes of its requests. *)
Definition resume {A : Type} (w : Suspended A) (o1 o2 : FetchOutcome) (s : S)
  : Suspended A * S * list (Suspended unit) :=
  match w with
  | Finished a => (Finished a, s, [])
  | Waiting _ k => advance (k o1) s
  | Waiting2 _ _ k => advance (k o1 o2) s
  end.

(** Run a task to completion against a server, nothing else running in
    between and the state changing by the task's own steps only (the
    clock, where the state has one, stands still). *)
Fixpoint run (server : Request -> FetchOutcome) {A : Type} (t : Task A) (s : S)
  : A * S * list (Suspended unit) :=
  match t with
  | Done a => (a, s, [])
  | Sync f k => let '(x, s') := f s in run server (k x) s'
  | Fetch r k => run server (k (server r)) s
  | Fetch2 r1 r2 k => run server (k (server r1) (server r2)) s
  | Spawn c k =>
      let '(sc, s1, p1) := advance c s in
      let '(a, s2, p2) := run server k s1 in
      (a, s2, p1 ++ park sc ++ p2)
  end.
End Tasks.

Arguments Task S A : clear implicits.
Arguments Suspended S A : clear implicits.
Arguments Done {S A} a.
Arguments Sync {S A X} f k.
Arguments Fetch {S A} r k.
Arguments Fetch2 {S A} r1 r2 k.
Arguments Spawn {S A} c k.
Arguments Finished {S A} a.
Arguments Waiting {S A} r k.
Arguments Waiting2 {S A} r1 r2 k.

Notation "'let!' x ':=' t 'in' k" := (bind t (fun x => k))
  (at level 10, x pattern, t at level 100, k at level 200, only parsing).

(** [when b t]: [if (b) { t }]. *)
Definition when {S : Type} (b : bool) (t : Task S unit) : Task S unit :=
  if b then t else Done tt.

(** ** The cache service *)

(** services/cache.js is not part of the sources at hand: the API service is
    verified against any cache service with this interface.  Reads take the
    wall clock ([Date.now()]) and leave the store alone; a save takes the
    wall clock and the data, which is all the API service hands over. *)
Module cacheService.
Class t : Type := {
  store : Type;
  isCacheValid : Z -> store -> bool;
  getDashboardData : Z -> store -> option obj;
  shouldTriggerBackgroundRefresh : Z -> store -> bool;
  hasDataChanged : obj -> obj -> bool;
  saveDashboardData : Z -> obj -> store -> store
}.
End cacheService.

(** ** The API service *)

Module DashboardAPI.
Section Service.
Context `{CS : cacheService.t}.

(** The service instance ([this.token]), the browser around it
    ([import.meta.env], [localStorage], the clock, the window's event
    target, the console)
    and the requests handed to [fetch] so far. *)
Record World : Type := mkWorld {
  env_VITE_API_URL : option string;
  token : option string;
  ls_adminToken : option string;
  ls_session_token : option string;
  cache : cacheService.store;
  clock : Z;
  dispatched : list Event;
  console : list LogEntry;
  sent : list Request
}.

(** Field updates. *)
Definition with_token (tk : option string) (w : World) : World :=
  mkWorld (env_VITE_API_URL w) tk (ls_adminToken w) (ls_session_token w)
          (cache w) (clock w)
          (dispatched w) (console w) (sent w).
Definition with_cache (c : cacheService.store) (w : World) : World :=
  mkWorld (env_VITE_API_URL w) (token w) (ls_adminToken w) (ls_session_token w)
          c (clock w)
          (dispatched w) (console w) (sent w).
Definition dispatchEvent (e : Event) (w : World) : World :=
  mkWorld (env_VITE_API_URL w) (token w) (ls_adminToken w) (ls_session_token w)
          (cache w) (clock w)
          (dispatched w ++ [e]) (console w) (sent w).
Definition console_log (l : LogEntry) (w : World) : World :=
  mkWorld (env_VITE_API_URL w) (token w) (ls_adminToken w) (ls_session_token w)
          (cache w) (clock w)
          (dispatched w) (console w ++ [l]) (sent w).
Definition send (r : Request) (w : World) : World :=
  mkWorld (env_VITE_API_URL w) (token w) (ls_adminToken w) (ls_session_token w)
          (cache w) (clock w)
          (dispatched w) (console w) (sent w ++ [r]).

(** The browser's side: time passes, another script writes the stored
    credentials. *)
Definition with_clock (now : Z) (w : World) : World :=
  mkWorld (env_VITE_API_URL w) (token w) (ls_adminToken w) (ls_session_token w)
          (cache w) now (dispatched w) (console w) (sent w).
Definition with_storage (adminToken session_token : option string) (w : World)
  : World :=
  mkWorld (env_VITE_API_URL w) (token w) adminToken session_token
          (cache w) (clock w) (dispatched w) (console w) (sent w).

(** [constructor()] and [setToken(token)]. *)
Definition setToken (tk : option string) (w : World) : World := with_token tk w.

(** The token resolution at the head of [fetchWithAuth]: the three
    priority steps, each of which only fires while [this.token] is
    still falsy. *)
Definition resolve_token (url : string) (w : World) : World :=
  if truthy_str (token w) then w
  else
    let w1 :=
      if js_includes url "/admin/" && truthy_str (ls_adminToken w)
      then with_token (ls_adminToken w) w else w in
    let w2 :=
      if negb (truthy_str (token w1)) && truthy_str (ls_session_token w1)
      then with_token (ls_session_token w1) w1 else w1 in
    let w3 :=
      if negb (truthy_str (token w2)) && truthy_str (ls_adminToken w2)
      then with_token (ls_adminToken w2) w2 else w2 in
    w3.

(** [import.meta.env.VITE_API_URL || 'http://localhost:8000/api/v1']. *)
Definition API_BASE_URL (w : World) : string :=
  match env_VITE_API_URL w with
  | Some u => if truthy_str (Some u) then u else "http://localhost:8000/api/v1"
  | None => "http://localhost:8000/api/v1"
  end.

(** [new Error('No authentication token available')]. *)
Definition no_token_error : JsError := Error "No authentication token available".

(** The headers of the request: the JSON content type, the caller's
    headers over it, the bearer token over both. *)
Definition build_request (base url : string) (options : Options) (tk : string)
  : Request :=
  mkRequest (default "GET" (opt_method options)) (base +:+ url)
    (<["Authorization" := "Bearer " +:+ tk]>
       (opt_headers options ∪ {["Content-Type" := "application/json"]}))
    (opt_body options).

(** [fetchWithAuth] up to its call of [fetch]: resolve the token, throw
    when there is none, else hand the request to [fetch]. *)
Definition prepare (url : string) (options : Options) (w : World)
  : Result Request * World :=
  let w' := resolve_token url w in
  match token w' with
  | Some tk =>
      if truthy_str (token w') then
        let r := build_request (API_BASE_URL w') url options tk in (Ok r, send r w')
      else (Thrown no_token_error, w')
  | None => (Thrown no_token_error, w')
  end.

(** The [catch] of [fetchWithAuth]: what counts as a network error. *)
Definition is_network_error (e : JsError) : bool :=
  String.eqb (err_name e) "TypeError" && js_includes (err_message e) "fetch".

(** The error a network error is replaced with. *)
Definition network_failed : JsError :=
  Error "Network connection failed. Please check your internet connection.".

(** The [catch] of [fetchWithAuth]: a network error is announced on
    [window] and replaced, any other error is rethrown. *)
Definition rethrow (e : JsError) (w : World) : Result value * World :=
  if is_network_error e
  then (Thrown network_failed, dispatchEvent (mkEvent "network:error" None) w)
  else (Thrown e, w).

(** The error thrown for a response that is not [ok]: the body's
    [detail], or the status. *)
Definition http_error (status : Z) (json : Result value) : JsError :=
  let errorData := match json with Ok v => v | Thrown _ => VObj [] end in
  match get_prop errorData "detail" with
  | Thrown e => e
  | Ok detail =>
      Error (js_string
        (js_or detail (VStr ("HTTP error! status: " +:+ pretty status))))
  end.

(** [fetchWithAuth] from the outcome of [fetch] on.  The promise of
    [response.json()] is returned, not awaited: its rejection passes the
    [catch] by. *)
Definition settle (o : FetchOutcome) (w : World) : Result value * World :=
  match o with
  | Rejected e => rethrow e w
  | Response status json =>
      if response_ok status then (json, w)
      else rethrow (http_error status json) w
  end.

Definition fetchWithAuth (url : string) (options : Options)
  : Task World (Result value) :=
  Sync (prepare url options) (fun r =>
    match r with
    | Thrown e => Done (Thrown e)
    | Ok req => Fetch req (fun o => Sync (settle o) Done)
    end).

(** [Promise.all([fetchWithAuth(url1), fetchWithAuth(url2)])]: both calls
    run up to their [fetch] in turn, and the caller goes on once both
    have settled.  (When one of them rejects, [Promise.all] rejects without
    waiting for the other; the settling of the other, which only the event
    log can tell, is accounted for here before the caller goes on.) *)
Definition fetchWithAuth2 (url1 url2 : string)
  : Task World (Result value * Result value) :=
  Sync (prepare url1 no_options) (fun r1 =>
  Sync (prepare url2 no_options) (fun r2 =>
    match r1, r2 with
    | Ok q1, Ok q2 =>
        Fetch2 q1 q2 (fun o1 o2 =>
          Sync (settle o1) (fun v1 => Sync (settle o2) (fun v2 => Done (v1, v2))))
    | Ok q1, Thrown e2 =>
        Fetch q1 (fun o1 => Sync (settle o1) (fun v1 => Done (v1, Thrown e2)))
    | Thrown e1, Ok q2 =>
        Fetch q2 (fun o2 => Sync (settle o2) (fun v2 => Done (Thrown e1, v2)))
    | Thrown e1, Thrown e2 => Done (Thrown e1, Thrown e2)
    end)).

(** [.catch(err => null)]. *)
Definition catch_null (r : Result value) : value :=
  match r with Ok v => v | Thrown _ => VNull end.

(** [console.warn] and [console.error]. *)
Definition warn (text : string) : Task World unit :=
  modify (console_log (mkLog "warn" text)).
Definition error (text : string) : Task World unit :=
  modify (console_log (mkLog "error" text)).

(** [{ events: [], count: 0 }]. *)
Definition empty_events : obj := {[ "events" := VArr []; "count" := VNum 0 ]}.

(** [_fetchServerEvents]: never rejects; what it resolves with has the
    keys [events] and [count] and no other. *)
Definition _fetchServerEvents : Task World obj :=
  let! r :=
    fetchWithAuth "/admin/server-events?include_inactive=false" no_options in
  match r with
  | Thrown e =>
      let! _ := error "Failed to fetch server events:" in Done empty_events
  | Ok response =>
      match get_prop response "success" with
      | Thrown e =>
          let! _ := error "Failed to fetch server events:" in Done empty_events
      | Ok success =>
          if truthy_prop success then
            Done ({[ "events" := js_or (prop response "events") (VArr []);
                     "count" := js_or (prop response "count") (VNum 0) ]} : obj)
          else
            let! _ := warn "Server events fetch failed:" in Done empty_events
      end
  end.

(** [fetchWithAuth('/admin/clear-server-events-flag', { method: 'POST' })
    .catch(err => console.warn(...))]. *)
Definition clear_server_events_flag : Task World unit :=
  let! r := fetchWithAuth "/admin/clear-server-events-flag" post_options in
  match r with
  | Ok _ => Done tt
  | Thrown _ => warn "Failed to clear events flag:"
  end.

(** [window.dispatchEvent(new CustomEvent('dashboard:refreshed', ...))]. *)
Definition dashboard_refreshed (now : Z) : Event :=
  mkEvent "dashboard:refreshed"
    (Some (VObj [("lastUpdate", VNum now); ("cacheAge", VNum 0)])).

(** [cacheService.saveDashboardData(data)], then the dispatch of
    [dashboard:refreshed] with [lastUpdate: Date.now()]. *)
Definition save_and_announce (data : obj) (w : World) : World :=
  dispatchEvent (dashboard_refreshed (clock w))
    (with_cache (cacheService.saveDashboardData (clock w) data (cache w)) w).

(** The merge of the two payloads. *)
Definition combine (dashboardData dueDatesData : value) : obj :=
  let combinedData := spread dashboardData in
  if truthy_prop (combinedData !! "success") && truthy dueDatesData
  then <["due_dates" := dueDatesData]> combinedData
  else combinedData.

(** [data.server_events_update_flag === 'true']. *)
Definition update_flag_set (data : obj) : bool :=
  bool_decide (data !! "server_events_update_flag" = Some (VStr "true")).

(** The guarded write of [_backgroundRefresh]:
    [if (!oldData || cacheService.hasDataChanged(combinedData, oldData))]. *)
Definition write_if_changed (combinedData : obj) (w : World) : World :=
  match cacheService.getDashboardData (clock w) (cache w) with
  | Some oldData =>
      if cacheService.hasDataChanged combinedData oldData
      then save_and_announce combinedData w else w
  | None => save_and_announce combinedData w
  end.

(** [_backgroundRefresh]. *)
Definition _backgroundRefresh : Task World unit :=
  let! rs := fetchWithAuth2 "/dashboard/data" "/portfolio/due-dates-data" in
  match rs.1 with
  | Thrown e => error "Background refresh failed:"
  | Ok dashboardData =>
      let combinedData := combine dashboardData (catch_null rs.2) in
      when (truthy_prop (combinedData !! "success"))
        (modify (write_if_changed combinedData))
  end.

(** [_backgroundRefreshEvents]. *)
Definition _backgroundRefreshEvents : Task World unit :=
  let! freshEventsData := _fetchServerEvents in
  if truthy_prop (freshEventsData !! "success") then
    let! cached :=
      read (fun w => cacheService.getDashboardData (clock w) (cache w)) in
    match cached with
    | Some cachedData =>
        let cachedData' :=
          <["server_events_update_flag" := VBool false]>
            (<["server_events" := value_of_obj freshEventsData]> cachedData) in
        let! _ := modify (fun w =>
          with_cache
            (cacheService.saveDashboardData (clock w) cachedData' (cache w)) w) in
        let! _ := clear_server_events_flag in
        modify (dispatchEvent
          (mkEvent "server-events:refreshed" (Some (value_of_obj freshEventsData))))
    | None => Done tt
    end
  else Done tt.

(** The [catch] of [getDashboardData]. *)
Definition fallback (useCache : bool) (e : JsError) : Task World (Result obj) :=
  if useCache then
    let! cached :=
      read (fun w => cacheService.getDashboardData (clock w) (cache w)) in
    match cached with
    | Some cachedData =>
        Done (Ok (<["_error" := VStr (err_message e)]>
                    (<["_fromCacheDueToError" := VBool true]> cachedData)))
    | None => Done (Thrown e)
    end
  else Done (Thrown e).

(** The [try] of [getDashboardData] from the merge on. *)
Definition refresh_events (combinedData : obj) : Task World obj :=
  if truthy_prop (combinedData !! "success") && update_flag_set combinedData then
    let! freshEventsData := _fetchServerEvents in
    if truthy_prop (freshEventsData !! "success") then
      let! _ := clear_server_events_flag in
      Done (<["server_events" := value_of_obj freshEventsData]> combinedData)
    else Done combinedData
  else Done combinedData.

(** The callbacks of [setupRealTimeListeners]: a change of an investment
    or a new transaction is written to the console, with the text of the
    callback, and starts a background refresh. *)
Definition on_postgres_change (text : string) : Task World unit :=
  let! _ := modify (console_log (mkLog "log" text)) in
  Spawn _backgroundRefresh (Done tt).

(** The cached data [getDashboardData] answers from, if any. *)
Definition cache_hit (useCache : bool) (w : World) : option obj :=
  if useCache && cacheService.isCacheValid (clock w) (cache w)
  then cacheService.getDashboardData (clock w) (cache w)
  else None.

(** [getDashboardData(useCache = true)]. *)
Definition getDashboardData (useCache : bool) : Task World (Result obj) :=
  let! hit := read (cache_hit useCache) in
  match hit with
  | Some cachedData =>
      let! _ := when (update_flag_set cachedData)
                  (Spawn _backgroundRefreshEvents (Done tt)) in
      let! trigger := read (fun w =>
        cacheService.shouldTriggerBackgroundRefresh (clock w) (cache w)) in
      let! _ := when trigger (Spawn _backgroundRefresh (Done tt)) in
      Done (Ok cachedData)
  | None =>
      let! rs := fetchWithAuth2 "/dashboard/data" "/portfolio/due-dates-data" in
      match rs.1 with
      | Thrown e => fallback useCache e
      | Ok dashboardData =>
          let! combinedData :=
            refresh_events (combine dashboardData (catch_null rs.2)) in
          let! _ := when (truthy_prop (combinedData !! "success"))
                      (modify (save_and_announce combinedData)) in
          Done (Ok combinedData)
      end
  end.
End Service.
End DashboardAPI.

(** ** A cache store after the specification *)

Module SpecCache.
(** Modelled from the spec: the states of a cache entry (the cache store,
    services/cache.js, is not among the sources). *)
Inductive state : Type := fresh | stale_usable | expired | missing.

#[global] Instance state_eq_decision : EqDecision state.
Proof. solve_decision. Defined.

(** Modelled from the spec: a cache entry, the snapshot and the time it
    was stored at. *)
Record CacheEntry : Type := mkEntry { snapshot : obj; storedAt : Z }.

Section Ttl.
Variables softTtl hardTtl : Z.

(** Modelled from the spec: the cache store (services/cache.js) is not
    among the sources.  An entry younger than [softTtl] is fresh, one
    older than that but younger than [hardTtl] is stale-usable, one
    older is expired. *)
Definition entry_state (now : Z) (c : option CacheEntry) : state :=
  match c with
  | None => missing
  | Some e =>
      if now - storedAt e <? softTtl then fresh
      else if now - storedAt e <? hardTtl then stale_usable
      else expired
  end.

(** Modelled from the spec: a fresh or stale-usable entry is served. *)
Definition isCacheValid (now : Z) (c : option CacheEntry) : bool :=
  bool_decide (entry_state now c = fresh \/ entry_state now c = stale_usable).

(** Modelled from the spec: the stored snapshot, whatever its state;
    reading never changes the store. *)
Definition getDashboardData (now : Z) (c : option CacheEntry) : option obj :=
  snapshot <$> c.

(** Modelled from the spec: a stale-usable entry asks for a background
    refresh. *)
Definition shouldTriggerBackgroundRefresh (now : Z) (c : option CacheEntry)
  : bool :=
  bool_decide (entry_state now c = stale_usable).

(** Modelled from the spec: the comparison leaves the volatile
    metadata out. *)
Definition semantic (s : obj) : obj :=
  delete "partial" (delete "source" (delete "fetchedAt" s)).

(** Modelled from the spec: the change detector, structural equality
    over the semantic fields. *)
Definition hasDataChanged (a b : obj) : bool :=
  bool_decide (semantic a <> semantic b).

(** Modelled from the spec: a write stamped older than the entry in
    place does not overwrite it.  The stamp is the clock at the write,
    the only time the API service hands over. *)
Definition saveDashboardData (now : Z) (data : obj) (c : option CacheEntry)
  : option CacheEntry :=
  match c with
  | Some e => if now <? storedAt e then c else Some (mkEntry data now)
  | None => Some (mkEntry data now)
  end.

Definition service : cacheService.t :=
  {| cacheService.store := option CacheEntry;
     cacheService.isCacheValid := isCacheValid;
     cacheService.getDashboardData := getDashboardData;
     cacheService.shouldTriggerBackgroundRefresh := shouldTriggerBackgroundRefresh;
     cacheService.hasDataChanged := hasDataChanged;
     cacheService.saveDashboardData := saveDashboardData |}.
End Ttl.
End SpecCache.

(** ** The server-events carousel *)

Module ServerEventsCarousel.
Definition CACHE_EXPIRY_MS : Z := 5 * 60 * 1000.

Section Component.
(** [JSON.parse] and [JSON.stringify], as the browser provides them. *)
Variable JSON_parse : string -> Result value.
Variable JSON_stringify : value -> string.

(** One mounted carousel: its props and state, the [fetchInProgress]
    ref, and the browser around it. *)
Record Carousel : Type := mkCarousel {
  env_VITE_API_URL : option string;
  propEvents : value;
  events : value;
  isLoading : bool;
  error : option string;
  fetchInProgress : bool;
  ls_server_events_cache : option string;
  ls_session_token : option string;
  clock : Z;
  console : list LogEntry;
  sent : list Request
}.

Definition setEvents (v : value) (c : Carousel) : Carousel :=
  mkCarousel (env_VITE_API_URL c) (propEvents c) v (isLoading c) (error c)
    (fetchInProgress c) (ls_server_events_cache c) (ls_session_token c)
    (clock c) (console c) (sent c).
Definition setIsLoading (b : bool) (c : Carousel) : Carousel :=
  mkCarousel (env_VITE_API_URL c) (propEvents c) (events c) b (error c)
    (fetchInProgress c) (ls_server_events_cache c) (ls_session_token c)
    (clock c) (console c) (sent c).
Definition setError (e : option string) (c : Carousel) : Carousel :=
  mkCarousel (env_VITE_API_URL c) (propEvents c) (events c) (isLoading c) e
    (fetchInProgress c) (ls_server_events_cache c) (ls_session_token c)
    (clock c) (console c) (sent c).
Definition set_fetchInProgress (b : bool) (c : Carousel) : Carousel :=
  mkCarousel (env_VITE_API_URL c) (propEvents c) (events c) (isLoading c) (error c)
    b (ls_server_events_cache c) (ls_session_token c)
    (clock c) (console c) (sent c).
Definition setItem_cache (s : string) (c : Carousel) : Carousel :=
  mkCarousel (env_VITE_API_URL c) (propEvents c) (events c) (isLoading c) (error c)
    (fetchInProgress c) (Some s) (ls_session_token c)
    (clock c) (console c) (sent c).
Definition console_error (text : string) (c : Carousel) : Carousel :=
  mkCarousel (env_VITE_API_URL c) (propEvents c) (events c) (isLoading c) (error c)
    (fetchInProgress c) (ls_server_events_cache c) (ls_session_token c)
    (clock c) (console c ++ [mkLog "error" text]) (sent c).
Definition send (r : Request) (c : Carousel) : Carousel :=
  mkCarousel (env_VITE_API_URL c) (propEvents c) (events c) (isLoading c) (error c)
    (fetchInProgress c) (ls_server_events_cache c) (ls_session_token c)
    (clock c) (console c) (sent c ++ [r]).

(** [parsed.timestamp && (now - parsed.timestamp) < CACHE_EXPIRY_MS], for
    the number the component itself writes; a timestamp of another type
    does not compare. *)
Definition still_valid (now : Z) (timestamp : option value) : bool :=
  match timestamp with
  | Some (VNum n) => negb (n =? 0) && (now - n <? CACHE_EXPIRY_MS)
  | _ => false
  end.

(** [v && v.length > 0]. *)
Definition has_items (v : option value) : bool :=
  match v with
  | Some (VArr items) => 0 <? Z.of_nat (length items)
  | Some (VStr s) => 0 <? Z.of_nat (String.length s)
  | Some (VObj fields) =>
      match obj_of_fields fields !! "length" with
      | Some (VNum n) => 0 <? n
      | _ => false
      end
  | _ => false
  end.

(** [getCachedEvents]. *)
Definition getCachedEvents (c : Carousel) : option value * Carousel :=
  match ls_server_events_cache c with
  | Some cached =>
      if truthy_str (Some cached) then
        match JSON_parse cached with
        | Thrown _ => (None, console_error "Error reading cached events:" c)
        | Ok parsed =>
            match get_prop parsed "timestamp" with
            | Thrown _ => (None, console_error "Error reading cached events:" c)
            | Ok timestamp =>
                if still_valid (clock c) timestamp
                then (Some (js_or (prop parsed "events") (VArr [])), c)
                else (None, c)
            end
        end
      else (None, c)
  | None => (None, c)
  end.

(** [setCachedEvents]. *)
Definition setCachedEvents (eventsData : value) (c : Carousel) : Carousel :=
  setItem_cache
    (JSON_stringify
       (VObj [("events", eventsData); ("timestamp", VNum (clock c))])) c.

(** The fallbacks shared by the branches of [fetchEvents]. *)
Definition use_props (props : value) (c : Carousel) : Carousel :=
  if truthy props && has_items (Some props)
  then setCachedEvents props (setEvents props c) else c.

Definition use_cached_or_props (props : value) (c : Carousel) : Carousel :=
  let '(cached, c1) := getCachedEvents c in
  match cached with
  | Some v =>
      if has_items cached then setEvents v c1
      else if truthy props && has_items (Some props) then setEvents props c1 else c1
  | None =>
      if truthy props && has_items (Some props) then setEvents props c1 else c1
  end.

(** The [finally] of [fetchEvents]. *)
Definition finally (c : Carousel) : Carousel :=
  set_fetchInProgress false (setIsLoading false c).

(** [import.meta.env.VITE_API_URL || 'http://127.0.0.1:8000']. *)
Definition apiUrl (c : Carousel) : string :=
  match env_VITE_API_URL c with
  | Some u => if truthy_str (Some u) then u else "http://127.0.0.1:8000"
  | None => "http://127.0.0.1:8000"
  end.

Definition events_request (c : Carousel) (tk : string) : Request :=
  mkRequest "GET" (apiUrl c +:+ "/api/v1/dashboard/data")
    ({[ "Authorization" := "Bearer " +:+ tk;
        "Content-Type" := "application/json" ]}) None.

(** [fetchEvents] once [fetch] has settled: the rest of the [try], the
    [catch] and the [finally]. *)
Definition after_fetch (props : value) (o : FetchOutcome) (c : Carousel)
  : Carousel :=
  let failed c :=
    use_cached_or_props props
      (setError (Some "Failed to load events")
         (console_error "Error fetching server events:" c)) in
  finally
    match o with
    | Rejected _ => failed c
    | Response status json =>
        if response_ok status then
          match json with
          | Thrown _ => failed c
          | Ok data =>
              let serverEvents :=
                js_or (from_option (fun se => prop se "events") None
                         (prop data "server_events")) (VArr []) in
              if has_items (Some serverEvents)
              then setError None
                     (setCachedEvents serverEvents (setEvents serverEvents c))
              else use_props props c
          end
        else use_cached_or_props props c
    end.

(** [fetchEvents(forceRefresh = false)]. *)
Definition fetchEvents (forceRefresh : bool) : Task Carousel unit :=
  let! busy := read fetchInProgress in
  if (busy : bool) then Done tt
  else
    let! cached :=
      (if forceRefresh then Done None
       else Sync getCachedEvents
              (fun cached => Done (if has_items cached then cached else None))) in
    match cached with
    | Some v => modify (fun c => setIsLoading false (setEvents v c))
    | None =>
        let! _ := modify (set_fetchInProgress true) in
        let! props := read propEvents in
        let! tk := read ls_session_token in
        match tk with
        | Some t =>
            if truthy_str (Some t) then
              let! r := Sync (fun c => let r := events_request c t in (r, send r c)) Done in
              Fetch r (fun o => modify (after_fetch props o))
            else
              modify (fun c => finally (set_fetchInProgress false
                                 (setIsLoading false (use_props props c))))
        | None =>
            modify (fun c => finally (set_fetchInProgress false
                               (setIsLoading false (use_props props c))))
        end
    end.

(** The component over time: its state and the calls of [fetchEvents]
    that wait for the network.  A step is a new call or the settling of
    the [i]-th waiting call. *)
Inductive Action : Type :=
| Call (forceRefresh : bool)
| Settle (i : nat) (o : FetchOutcome).

Definition Mounted : Type := Carousel * list (Suspended Carousel unit).

Definition step (m : Mounted) (a : Action) : Mounted :=
  let '(c, waiting) := m in
  match a with
  | Call forceRefresh =>
      let '(s, c', _) := advance (fetchEvents forceRefresh) c in
      (c', waiting ++ park s)
  | Settle i o =>
      match waiting !! i with
      | Some s =>
          let '(s', c', _) := resume s o o c in
          (c', take i waiting ++ park s' ++ drop (Datatypes.S i) waiting)
      | None => m
      end
  end.

Definition steps (m : Mounted) (l : list Action) : Mounted := foldl step m l.
End Component.
End ServerEventsCarousel.

(** ** Reference definitions for the properties *)

Import DashboardAPI.

(** The precedence among the stored credentials, in the order the
    specification lists it: the admin credential on an admin route, then
    the session credential, then the admin credential again. *)
Definition credential_precedence (admin_route : bool)
    (adminToken session_token : option string) : option string :=
  if admin_route && truthy_str adminToken then adminToken
  else if truthy_str session_token then session_token
  else if truthy_str adminToken then adminToken
  else None.

(** What [fetchWithAuth(url)] settles with when it is called in world [w]
    and nothing else runs meanwhile, and the events it dispatches. *)
Definition fetch_result `{CS : cacheService.t}
    (server : Request -> FetchOutcome) (url : string) (w : World) : Result value :=
  (run server (fetchWithAuth url no_options) w).1.1.

Definition fetch_events `{CS : cacheService.t}
    (server : Request -> FetchOutcome) (url : string) (w : World) : list Event :=
  drop (length (dispatched w))
       (dispatched (run server (fetchWithAuth url no_options) w).1.2).

(** The token a request to [url] goes out with from world [w], if any. *)
Definition resolved `{CS : cacheService.t} (url : string) (w : World)
  : option string :=
  if truthy_str (token w) then token w
  else credential_precedence (js_includes url "/admin/")
         (ls_adminToken w) (ls_session_token w).

(** [new CustomEvent('network:error')]. *)
Definition network_error_event : Event := mkEvent "network:error" None.

(** Whether the [catch] of [fetchWithAuth] takes the outcome for a network
    error. *)
Definition announces (o : FetchOutcome) : bool :=
  match o with
  | Rejected e => is_network_error e
  | Response _ _ => false
  end.

(** A session of the singleton: before each request the stored credentials
    may have been rewritten by the pages around it. *)
Record ApiCall : Type := mkCall {
  call_adminToken : option string;
  call_session_token : option string;
  call_url : string;
  call_options : Options
}.

Definition call `{CS : cacheService.t} (server : Request -> FetchOutcome)
    (w : World) (c : ApiCall) : World :=
  (run server (fetchWithAuth (call_url c) (call_options c))
     (with_storage (call_adminToken c) (call_session_token c) w)).1.2.

Definition calls `{CS : cacheService.t} (server : Request -> FetchOutcome)
    (w : World) (l : list ApiCall) : World :=
  foldl (call server) w l.

(** How many times [dashboard:refreshed] was dispatched. *)
Definition refreshed_count (evs : list Event) : nat :=
  length (filter (fun ev => ev_type ev = "dashboard:refreshed") evs).

(** The world once the outcome [o] of a request has been handled. *)
Definition announce `{CS : cacheService.t} (o : FetchOutcome) (w : World) : World :=
  if announces o then dispatchEvent (mkEvent "network:error" None) w else w.

(** The two requests of a refresh and the world once both have settled. *)
Definition primary_request `{CS : cacheService.t} (w : World) (tk : string)
  : Request :=
  build_request (API_BASE_URL w) "/dashboard/data" no_options tk.
Definition secondary_request `{CS : cacheService.t} (w : World) (tk : string)
  : Request :=
  build_request (API_BASE_URL w) "/portfolio/due-dates-data" no_options tk.

Definition after_requests `{CS : cacheService.t}
    (server : Request -> FetchOutcome) (w : World) : World :=
  match resolved "/dashboard/data" w with
  | Some tk =>
      announce (server (secondary_request w tk))
        (announce (server (primary_request w tk))
           (send (secondary_request w tk)
              (send (primary_request w tk) (with_token (Some tk) w))))
  | None => w
  end.

(** [w'] is [w] after requests only: the cache and the clock are as they
    were, and nothing was dispatched but [network:error]. *)
Definition quiet `{CS : cacheService.t} (w w' : World) : Prop :=
  cache w' = cache w /\ clock w' = clock w /\
  exists n : nat,
    dispatched w' = dispatched w ++ replicate n (mkEvent "network:error" None).

(** ** Concrete browsers and servers *)

Module Scenario.
(** The cache store of the specification with a soft TTL of five minutes
    and a hard TTL of one hour. *)
Definition service : cacheService.t := SpecCache.service 300000 3600000.

Definition browser (tk : option string) (c : option SpecCache.CacheEntry) (now : Z)
  : @World service :=
  @mkWorld service None tk None None c now [] [] [].

Definition base : string := "http://localhost:8000/api/v1".

Definition payload (balance : Z) : value :=
  VObj [("success", VBool true);
        ("user", VObj [("id", VNum 1)]);
        ("investment", VObj [("total_balance", VNum balance)])].

Definition flagged_payload : value :=
  VObj [("success", VBool true);
        ("server_events_update_flag", VStr "true")].

Definition events_payload : value :=
  VObj [("success", VBool true);
        ("events", VArr [VObj [("id", VNum 7)]]);
        ("count", VNum 1)].

(** Every request is answered with the given status and an empty body. *)
Definition answers (status : Z) (detail : list (string * value)) (_ : Request)
  : FetchOutcome :=
  Response status (Ok (VObj detail)).

(** No request gets through. *)
Definition offline (_ : Request) : FetchOutcome :=
  Rejected (mkError "TypeError" "Failed to fetch").

(** The primary endpoint answers, the due-dates endpoint is down. *)
Definition primary_only (body : value) (r : Request) : FetchOutcome :=
  if String.eqb (req_url r) (base +:+ "/dashboard/data")
  then Response 200 (Ok body)
  else Response 503 (Ok (VObj [])).

(** The primary endpoint raises the update flag and the events endpoint
    answers with one event; everything else succeeds with an empty
    object. *)
Definition flag_raised (r : Request) : FetchOutcome :=
  if String.eqb (req_url r) (base +:+ "/dashboard/data")
  then Response 200 (Ok flagged_payload)
  else if String.eqb (req_url r)
            (base +:+ "/admin/server-events?include_inactive=false")
  then Response 200 (Ok events_payload)
  else Response 200 (Ok (VObj [])).

Definition entry (balance storedAt : Z) : option SpecCache.CacheEntry :=
  Some (SpecCache.mkEntry (spread (payload balance)) storedAt).
End Scenario.

(** The carousel is idle, or exactly one call of [fetchEvents] waits for
    the network and the [fetchInProgress] ref is set. *)
Definition one_fetch_at_most (JSON_parse : string -> Result value)
    (JSON_stringify : value -> string)
    (m : ServerEventsCarousel.Mounted) : Prop :=
  (ServerEventsCarousel.fetchInProgress m.1 = false /\ m.2 = [])
  \/ (ServerEventsCarousel.fetchInProgress m.1 = true
      /\ exists (r : Request) (props : value),
           m.2 = [Waiting r (fun o =>
                    modify (ServerEventsCarousel.after_fetch
                              JSON_parse JSON_stringify props o))]).

(** A carousel that has just been mounted, with a session token stored and
    nothing cached.  Its [JSON.parse] rejects every text, which an empty
    store never asks it about. *)
Module CarouselScenario.
Definition parse (_ : string) : Result value :=
  Thrown (mkError "SyntaxError" "Unexpected end of JSON input").
Definition stringify (_ : value) : string := "{}".

Definition mounted : ServerEventsCarousel.Carousel :=
  ServerEventsCarousel.mkCarousel None (VArr []) (VArr []) true None false
    None (Some "t") 1000 [] [].
End CarouselScenario.

(** ** The other methods of the API service *)

Module ApiMethods.
Section Methods.
Context `{CS : cacheService.t}.

(** [JSON.stringify], as the browser provides it. *)
Variable JSON_stringify : value -> string.

(** [try { const response = await ...; return response; }
     catch (error) { console.error(text, error); throw error; }]. *)
Definition logged (text : string) (t : Task World (Result value))
  : Task World (Result value) :=
  let! r := t in
  match r with
  | Ok response => Done (Ok response)
  | Thrown e => let! _ := error text in Done (Thrown e)
  end.

(** [getServerEvents(includeInactive = true)]. *)
Definition getServerEvents (includeInactive : value) : Task World (Result value) :=
  logged "Failed to get server events:"
    (fetchWithAuth
       ("/admin/server-events?include_inactive=" +:+ js_string includeInactive)
       no_options).

(** [createServerEvent(eventData)]. *)
Definition createServerEvent (eventData : value) : Task World (Result value) :=
  logged "Failed to create server event:"
    (fetchWithAuth "/admin/server-events"
       (mkOptions (Some "POST") ∅ (Some (JSON_stringify eventData)))).

(** [updateServerEvent(eventId, updateData)]. *)
Definition updateServerEvent (eventId updateData : value)
  : Task World (Result value) :=
  logged "Failed to update server event:"
    (fetchWithAuth ("/admin/server-events/" +:+ js_string eventId)
       (mkOptions (Some "PUT") ∅ (Some (JSON_stringify updateData)))).

(** [deleteServerEvent(eventId)]. *)
Definition deleteServerEvent (eventId : value) : Task World (Result value) :=
  logged "Failed to delete server event:"
    (fetchWithAuth ("/admin/server-events/" +:+ js_string eventId)
       (mkOptions (Some "DELETE") ∅ None)).

(** [clearServerEventsFlag()]. *)
Definition clearServerEventsFlag : Task World (Result value) :=
  logged "Failed to clear server events flag:"
    (fetchWithAuth "/admin/clear-server-events-flag" post_options).

(** [localStorage.getItem('session_token') || localStorage.getItem('adminToken')]. *)
Definition stored_token (w : World) : option string :=
  if truthy_str (ls_session_token w) then ls_session_token w else ls_adminToken w.

(** [if (!this.token) { this.token = ... || ...; }], the head of the export
    methods and of [downloadFile]. *)
Definition ensure_token (w : World) : World :=
  if truthy_str (token w) then w else with_token (stored_token w) w.

(** [`Bearer ${this.token}`]. *)
Definition bearer (tk : option string) : string :=
  "Bearer " +:+ default "null" tk.

(** The request of the export methods. *)
Definition export_request (w : World) (path : string) : Request :=
  mkRequest "GET" (API_BASE_URL w +:+ path)
    ({[ "Authorization" := bearer (token w); "Accept" := "application/pdf" ]})
    None.

(** The export methods hand the promise of [fetch] back as it is. *)
Definition export (path : string) : Task World FetchOutcome :=
  Sync (fun w =>
          let w' := ensure_token w in
          let r := export_request w' path in (r, send r w'))
       (fun r => Fetch r Done).

(** [exportTransactionReceipt(transactionId)]. *)
Definition exportTransactionReceipt (transactionId : value)
  : Task World FetchOutcome :=
  export ("/dashboard/export/receipt/" +:+ js_string transactionId).

(** [exportTransactionHistory()]. *)
Definition exportTransactionHistory : Task World FetchOutcome :=
  export "/dashboard/export/history".
End Methods.
End ApiMethods.

(** ** A task over a part of the state *)

Section Zoom.
Context {S T : Type} (get : T -> S) (put : S -> T -> T).

(** A task of the API service run inside a larger state, of which the
    service's world is one field. *)
Fixpoint zoom {A : Type} (t : Task S A) : Task T A :=
  match t with
  | Done a => Done a
  | Sync f k =>
      Sync (fun s => let '(x, w') := f (get s) in (x, put w' s))
           (fun x => zoom (k x))
  | Fetch r k => Fetch r (fun o => zoom (k o))
  | Fetch2 r1 r2 k => Fetch2 r1 r2 (fun o1 o2 => zoom (k o1 o2))
  | Spawn c k => Spawn (zoom c) (zoom k)
  end.
End Zoom.

(** ** The transaction history and its cache *)

Module TransactionHistory.
Definition CACHE_DURATION : Z := 5 * 60 * 1000.

(** [transactionHistoryCache = { data, timestamp, limit }]. *)
Record Cache : Type := mkCache {
  data : option value;
  timestamp : Z;
  limit : Z
}.

(** The field as the class declares it. *)
Definition initial : Cache := mkCache None 0 0.

Section Service.
Context `{CS : cacheService.t}.

(** The service instance with its [transactionHistoryCache]. *)
Record Service : Type := mkService {
  api : World;
  transactionHistoryCache : Cache
}.

Definition with_api (w : World) (s : Service) : Service :=
  mkService w (transactionHistoryCache s).
Definition with_history (c : Cache) (s : Service) : Service :=
  mkService (api s) c.

(** [{ success: true, data: this.transactionHistoryCache.data }]. *)
Definition from_cache (d : value) : value :=
  VObj [("success", VBool true); ("data", d)].

(** The cache check at the head of [getTransactionHistory]. *)
Definition history_hit (limit' : Z) (useCache : bool) (s : Service) : option value :=
  let c := transactionHistoryCache s in
  if useCache && truthy_prop (data c) && (limit c =? limit')
     && (clock (api s) - timestamp c <? CACHE_DURATION)
  then data c else None.

(** The [catch] of [getTransactionHistory]. *)
Definition history_fallback (useCache : bool) (e : JsError)
  : Task Service (Result value) :=
  let! c := read transactionHistoryCache in
  match data c with
  | Some d =>
      if useCache && truthy d then Done (Ok (from_cache d)) else Done (Thrown e)
  | None => Done (Thrown e)
  end.

(** [getTransactionHistory(limit = 10, useCache = true)]. *)
Definition getTransactionHistory (limit' : Z) (useCache : bool)
  : Task Service (Result value) :=
  let! hit := read (history_hit limit' useCache) in
  match hit with
  | Some d => Done (Ok (from_cache d))
  | None =>
      let! r := zoom api with_api
                  (fetchWithAuth ("/dashboard/transactions?limit=" +:+ pretty limit')
                     no_options) in
      match r with
      | Thrown e => history_fallback useCache e
      | Ok result =>
          match get_prop result "success" with
          | Thrown e => history_fallback useCache e
          | Ok success =>
              let! _ := when (truthy_prop success)
                (modify (fun s =>
                   with_history
                     (mkCache (prop result "data") (clock (api s)) limit') s)) in
              Done (Ok result)
          end
      end
  end.
End Service.
End TransactionHistory.

(** ** The due dates of an investor and their cache *)

(** services/dueDatesCache.js is not part of the sources at hand either:
    [getInvestorDueDates] is verified against any due-dates cache with this
    interface, keyed by the investor. *)
Module dueDatesCacheService.
Class t : Type := {
  store : Type;
  getDueDatesData : Z -> value -> store -> option value;
  saveDueDatesData : Z -> option value -> value -> store -> store
}.
End dueDatesCacheService.

Module InvestorDueDates.
Section Service.
Context `{CS : cacheService.t} `{DS : dueDatesCacheService.t}.

(** The service instance and the store of the due-dates cache. *)
Record Service : Type := mkService {
  api : World;
  dueDates : dueDatesCacheService.store
}.

Definition with_api (w : World) (s : Service) : Service :=
  mkService w (dueDates s).
Definition with_dueDates (d : dueDatesCacheService.store) (s : Service) : Service :=
  mkService (api s) d.

(** [{ success: true, data: cachedData }]. *)
Definition from_cache (d : value) : value :=
  VObj [("success", VBool true); ("data", d)].

(** [dueDatesCacheService.getDueDatesData(investorId)], when it is asked
    and gives something truthy. *)
Definition cached_due_dates (investorId : value) (useCache : bool) (s : Service)
  : option value :=
  if useCache then
    match dueDatesCacheService.getDueDatesData (clock (api s)) investorId (dueDates s) with
    | Some d => if truthy d then Some d else None
    | None => None
    end
  else None.

(** [getInvestorDueDates(investorId, useCache = true)]. *)
Definition getInvestorDueDates (investorId : value) (useCache : bool)
  : Task Service (Result value) :=
  let! hit := read (cached_due_dates investorId useCache) in
  match hit with
  | Some d => Done (Ok (from_cache d))
  | None =>
      let! r := zoom api with_api
                  (fetchWithAuth ("/due-dates/investor/" +:+ js_string investorId)
                     no_options) in
      match r with
      | Ok data' =>
          let! _ := when (truthy data' && truthy_prop (prop data' "success"))
            (modify (fun s =>
               with_dueDates
                 (dueDatesCacheService.saveDueDatesData (clock (api s))
                    (prop data' "data") investorId (dueDates s)) s)) in
          Done (Ok data')
      | Thrown e =>
          let! again := read (cached_due_dates investorId useCache) in
          match again with
          | Some d => Done (Ok (from_cache d))
          | None => Done (Thrown e)
          end
      end
  end.
End Service.
End InvestorDueDates.

(** ** The realtime listeners *)

Module Realtime.
(** The Supabase client as the service uses it: the channels it was asked
    to open and subscribe (name, event, table), in order, and the channels
    it was asked to remove.  Every [channel(...).subscribe()] is taken to
    give a channel of its own, known by its place in the list. *)
Record Client : Type := mkClient {
  subscribed : list (string * string * string);
  removed : list nat
}.

(** [this.supabase], [this.realTimeListeners] (a [Map], in insertion
    order) and the console. *)
Record Service : Type := mkService {
  supabase : option Client;
  realTimeListeners : list (string * nat);
  console : list LogEntry
}.

(** [constructor()]: no client, no listener. *)
Definition initial : Service := mkService None [] [].

(** [initSupabase(supabaseClient)]. *)
Definition initSupabase (client : option Client) (s : Service) : Service :=
  mkService client (realTimeListeners s) (console s).

(** [map.set(key, channel)]: a key already there keeps its place. *)
Fixpoint map_set (key : string) (channel : nat) (m : list (string * nat))
  : list (string * nat) :=
  match m with
  | [] => [(key, channel)]
  | (k, c) :: rest =>
      if String.eqb k key then (key, channel) :: rest
      else (k, c) :: map_set key channel rest
  end.

(** [this.supabase.channel(name).on('postgres_changes', {event, table}, ...)
    .subscribe()]: the new channel and the client after it. *)
Definition subscribe (name event table : string) (c : Client) : nat * Client :=
  (length (subscribed c),
   mkClient (subscribed c ++ [(name, event, table)]) (removed c)).

(** [this.supabase.removeChannel(channel)]. *)
Definition removeChannel (channel : nat) (c : Client) : Client :=
  mkClient (subscribed c) (removed c ++ [channel]).

(** [setupRealTimeListeners()]. *)
Definition setupRealTimeListeners (s : Service) : Service :=
  match supabase s with
  | None =>
      mkService None (realTimeListeners s)
        (console s ++ [mkLog "warn" "Supabase client not initialized"])
  | Some c =>
      let '(investmentChannel, c1) :=
        subscribe "investments-changes" "UPDATE" "investments" c in
      let '(transactionChannel, c2) :=
        subscribe "transactions-changes" "INSERT" "transactions" c1 in
      mkService (Some c2)
        (map_set "transactions" transactionChannel
           (map_set "investments" investmentChannel (realTimeListeners s)))
        (console s)
  end.

(** [cleanupRealTimeListeners()]. *)
Definition cleanupRealTimeListeners (s : Service) : Service :=
  mkService
    (match supabase s with
     | Some c =>
         Some (foldl (fun c kv => removeChannel kv.2 c) c (realTimeListeners s))
     | None => None
     end)
    [] (console s).

(** The channels that were opened and never removed. *)
Definition still_open (c : Client) : list nat :=
  filter (fun h => h ∉ removed c) (seq 0 (length (subscribed c))).
End Realtime.

(** ** The carousel: its effects and its slides *)

Module CarouselEffects.
Import ServerEventsCarousel.
Section Component.
Variable JSON_parse : string -> Result value.
Variable JSON_stringify : value -> string.

(** The browser's side: time passes, the parent hands new [events],
    another page stores or removes the session token. *)
Definition at_time (now : Z) (c : Carousel) : Carousel :=
  mkCarousel (env_VITE_API_URL c) (propEvents c) (events c) (isLoading c) (error c)
    (fetchInProgress c) (ls_server_events_cache c) (ls_session_token c)
    now (console c) (sent c).
Definition with_props (props : value) (c : Carousel) : Carousel :=
  mkCarousel (env_VITE_API_URL c) props (events c) (isLoading c) (error c)
    (fetchInProgress c) (ls_server_events_cache c) (ls_session_token c)
    (clock c) (console c) (sent c).
Definition with_session_token (t : option string) (c : Carousel) : Carousel :=
  mkCarousel (env_VITE_API_URL c) (propEvents c) (events c) (isLoading c) (error c)
    (fetchInProgress c) (ls_server_events_cache c) t
    (clock c) (console c) (sent c).

(** The effect run on mount, up to its call of [fetchEvents]. *)
Definition show_cached_or_props (c : Carousel) : Carousel :=
  let '(cached, c1) := getCachedEvents JSON_parse c in
  match cached with
  | Some v =>
      if has_items cached then setIsLoading false (setEvents v c1)
      else if truthy (propEvents c1) && has_items (Some (propEvents c1))
      then setIsLoading false
             (setCachedEvents JSON_stringify (propEvents c1)
                (setEvents (propEvents c1) c1))
      else c1
  | None =>
      if truthy (propEvents c1) && has_items (Some (propEvents c1))
      then setIsLoading false
             (setCachedEvents JSON_stringify (propEvents c1)
                (setEvents (propEvents c1) c1))
      else c1
  end.

(** The effect run on mount. *)
Definition on_mount : Task Carousel unit :=
  let! _ := modify show_cached_or_props in
  fetchEvents JSON_parse JSON_stringify false.

(** The effect run when [propEvents] changes. *)
Definition on_props (c : Carousel) : Carousel :=
  if truthy (propEvents c) && has_items (Some (propEvents c))
  then setIsLoading false
         (setCachedEvents JSON_stringify (propEvents c) (setEvents (propEvents c) c))
  else c.

(** [handleRefresh], as far as the component itself goes (the parent's
    [onEventUpdate] is called after it). *)
Definition handleRefresh : Task Carousel unit :=
  let! _ := modify (setIsLoading true) in
  fetchEvents JSON_parse JSON_stringify true.

(** What happens to a mounted carousel: a call of [fetchEvents], a click
    on refresh, new props, the settling of a waiting call, the passing of
    time, a write of [session_token] in [localStorage]. *)
Inductive Happening : Type :=
| Calls (forceRefresh : bool)
| Refreshes
| Receives (props : value)
| Settles (i : nat) (o : FetchOutcome)
| Passes (now : Z)
| Stores (session_token : option string).

(** Whether something that happens puts a truthy session token in store. *)
Definition stores_token (h : Happening) : bool :=
  match h with
  | Stores t => truthy_str t
  | _ => false
  end.

Definition happen (m : Mounted) (h : Happening) : Mounted :=
  let '(c, waiting) := m in
  match h with
  | Calls forceRefresh =>
      let '(s, c', _) := advance (fetchEvents JSON_parse JSON_stringify forceRefresh) c in
      (c', waiting ++ park s)
  | Refreshes =>
      let '(s, c', _) := advance handleRefresh c in
      (c', waiting ++ park s)
  | Receives props => (on_props (with_props props c), waiting)
  | Settles i o =>
      match waiting !! i with
      | Some s =>
          let '(s', c', _) := resume s o o c in
          (c', take i waiting ++ park s' ++ drop (Datatypes.S i) waiting)
      | None => m
      end
  | Passes now => (at_time now c, waiting)
  | Stores t => (with_session_token t c, waiting)
  end.

(** A carousel from its mounting on: the mount effect runs up to the
    request of its [fetchEvents], the effect on [propEvents] runs after
    it, as it does on every first render, and then things happen. *)
Definition mounted_then (c : Carousel) (l : list Happening) : Mounted :=
  let '(s, c', _) := advance on_mount c in
  foldl happen (on_props c', park s) l.
End Component.

(** [goToNext], [goToPrevious] and the tick of the auto-play, as functions
    of [events.length] and [currentIndex]. *)
Definition goToNext (length currentIndex : Z) : Z :=
  if currentIndex =? length - 1 then 0 else currentIndex + 1.
Definition goToPrevious (length currentIndex : Z) : Z :=
  if currentIndex =? 0 then length - 1 else currentIndex - 1.
End CarouselEffects.

(** ** The dashboard page's reading of an error *)

Module DashboardPage.
(** [err.message.includes('401') || err.message.includes('Unauthorized')],
    the test under which [fetchDashboardData] shows the session-expired
    modal. *)
Definition shows_session_expired (err : JsError) : bool :=
  js_includes (err_message err) "401" || js_includes (err_message err) "Unauthorized".
End DashboardPage.

(** The request of [_fetchServerEvents]. *)
Definition events_request `{CS : cacheService.t} (w : World) (tk : string)
  : Request :=
  build_request (API_BASE_URL w) "/admin/server-events?include_inactive=false"
    no_options tk.

(** A task run from [w] sends one request, with the bearer token [tk], and
    leaves [tk] as the token of the service. *)
Definition goes_out_with `{CS : cacheService.t} {A : Type}
    (server : Request -> FetchOutcome) (t : Task World A) (w : World)
    (tk : string) : Prop :=
  token (run server t w).1.2 = Some tk
  /\ exists r, sent (run server t w).1.2 = sent w ++ [r]
               /\ req_headers r !! "Authorization" = Some ("Bearer " +:+ tk).

(** The browser's side of the service with the transaction history: time
    passes. *)
Definition history_at_time `{CS : cacheService.t} (now : Z)
    (s : TransactionHistory.Service) : TransactionHistory.Service :=
  TransactionHistory.with_api (with_clock now (TransactionHistory.api s)) s.

(** The path of the transaction history for a limit. *)
Definition history_url (limit : Z) : string :=
  "/dashboard/transactions?limit=" +:+ pretty limit.

(** A service with an empty transaction history cache, a due-dates cache
    that holds nothing, and a server that answers with one transaction. *)
Module HistoryScenario.
Definition service : @TransactionHistory.Service Scenario.service :=
  @TransactionHistory.mkService Scenario.service
    (Scenario.browser (Some "t") None 1000) TransactionHistory.initial.

Definition one_transaction : value :=
  VObj [("success", VBool true); ("data", VArr [VObj [("id", VNum 1)]])].

Definition answers_one (_ : Request) : FetchOutcome :=
  Response 200 (Ok one_transaction).

(** A due-dates cache that is always empty. *)
Definition no_due_dates : dueDatesCacheService.t :=
  {| dueDatesCacheService.store := unit;
     dueDatesCacheService.getDueDatesData := fun _ _ _ => None;
     dueDatesCacheService.saveDueDatesData := fun _ _ _ s => s |}.

Definition investor_service
  : @InvestorDueDates.Service Scenario.service no_due_dates :=
  @InvestorDueDates.mkService Scenario.service no_due_dates
    (Scenario.browser (Some "t") None 1000) tt.

(** A due-dates cache of one place, which keeps what was saved last. *)
Definition one_place : dueDatesCacheService.t :=
  {| dueDatesCacheService.store := option value;
     dueDatesCacheService.getDueDatesData := fun _ _ s => s;
     dueDatesCacheService.saveDueDatesData := fun _ d _ _ => d |}.

Definition kept_service
  : @InvestorDueDates.Service Scenario.service one_place :=
  @InvestorDueDates.mkService Scenario.service one_place
    (Scenario.browser (Some "t") None 1000) None.

(** The same service once another call has saved due dates. *)
Definition kept_service_saved
  : @InvestorDueDates.Service Scenario.service one_place :=
  @InvestorDueDates.mkService Scenario.service one_place
    (Scenario.browser (Some "t") None 1000) (Some (VArr [VNum 1])).
End HistoryScenario.

(** * Properties *)

(** ** Running tasks *)

Section RunLemmas.
Context {S : Type} (server : Request -> FetchOutcome).

Lemma run_bind {A B : Type} (t : Task S A) (f : A -> Task S B) (s : S) :
  run server (bind t f) s =
    let '(a, s1, p1) := run server t s in
    let '(b, s2, p2) := run server (f a) s1 in
    (b, s2, p1 ++ p2).
Proof.
  revert s.
  induction t as [A a|A X g k IH|A r k IH|A r1 r2 k IH|A c IHc k IH];
    intros s; cbn.
  - by destruct (run server (f a) s) as [[b s2] p2].
  - destruct (g s) as [x s']. apply IH.
  - apply IH.
  - apply IH.
  - destruct (advance c s) as [[sc s1] p1]. rewrite IH.
    destruct (run server k s1) as [[a s2] p2].
    destruct (run server (f a) s2) as [[b s3] p3].
    by rewrite <- !app_assoc.
Qed.

Lemma run_read {X : Type} (g : S -> X) (s : S) :
  run server (read g) s = (g s, s, []).
Proof. reflexivity. Qed.

Lemma run_modify (g : S -> S) (s : S) :
  run server (modify g) s = (tt, g s, []).
Proof. reflexivity. Qed.
End RunLemmas.

(** ** Credentials *)

Section Credentials.
Context `{CS : cacheService.t}.
Implicit Types (w : World) (url : string) (options : Options).

Lemma resolve_token_keeps w url :
  truthy_str (token w) = true -> resolve_token url w = w.
Proof. intros H. unfold resolve_token. by rewrite H. Qed.

Lemma resolve_token_precedence w url :
  truthy_str (token w) = false ->
  resolve_token url w =
    match credential_precedence (js_includes url "/admin/")
            (ls_adminToken w) (ls_session_token w) with
    | Some tk => with_token (Some tk) w
    | None => w
    end.
Proof.
  intros H. unfold resolve_token, credential_precedence. rewrite H.
  destruct (js_includes url "/admin/");
  destruct (ls_adminToken w) as [a|] eqn:Ea;
  destruct (ls_session_token w) as [s|] eqn:Es;
  try destruct (truthy_str (Some a)) eqn:Ha;
  try destruct (truthy_str (Some s)) eqn:Hs;
  do 4 (cbn -[truthy_str]; change (truthy_str None) with false;
        rewrite ?H, ?Ea, ?Es, ?Ha, ?Hs);
  reflexivity.
Qed.

Lemma credential_precedence_truthy b a s tk :
  credential_precedence b a s = Some tk -> truthy_str (Some tk) = true.
Proof.
  unfold credential_precedence.
  destruct (b && truthy_str a) eqn:H1.
  - intros ->. by apply andb_prop in H1 as [_ ?].
  - destruct (truthy_str s) eqn:H2; [by intros ->|].
    destruct (truthy_str a) eqn:H3; [by intros ->|discriminate].
Qed.

Lemma prepare_resolved w url options tk :
  token w = Some tk -> truthy_str (Some tk) = true ->
  prepare url options w =
    (Ok (build_request (API_BASE_URL w) url options tk),
     send (build_request (API_BASE_URL w) url options tk) w).
Proof.
  intros Htk Htr. unfold prepare.
  rewrite resolve_token_keeps by (by rewrite Htk).
  by rewrite Htk, Htr.
Qed.

Lemma prepare_unresolved w url options :
  truthy_str (token w) = false ->
  prepare url options w =
    match credential_precedence (js_includes url "/admin/")
            (ls_adminToken w) (ls_session_token w) with
    | Some tk =>
        (Ok (build_request (API_BASE_URL w) url options tk),
         send (build_request (API_BASE_URL w) url options tk) (with_token (Some tk) w))
    | None => (Thrown no_token_error, w)
    end.
Proof.
  intros H. unfold prepare. rewrite resolve_token_precedence by done.
  destruct (credential_precedence _ _ _) as [tk|] eqn:Hp.
  - cbn -[truthy_str]. by rewrite (credential_precedence_truthy _ _ _ _ Hp).
  - destruct (token w) as [t|] eqn:Ht; [|done]. by rewrite H.
Qed.

Lemma settle_sent o w : sent (settle o w).2 = sent w.
Proof.
  unfold settle, rethrow. destruct o as [e|status json].
  - by destruct (is_network_error e).
  - destruct (response_ok status); [done|].
    by destruct (is_network_error _).
Qed.

Lemma settle_token o w : token (settle o w).2 = token w.
Proof.
  unfold settle, rethrow. destruct o as [e|status json].
  - by destruct (is_network_error e).
  - destruct (response_ok status); [done|].
    by destruct (is_network_error _).
Qed.

(** C3, as the code has it. The precedence among the stored credentials
    (admin credential on an admin route, else the session credential,
    else the admin credential) is followed only while the service holds
    no truthy token: the credential it gives is sent and kept as the
    token of the service.  A token the service holds, from [setToken] or
    kept from an earlier request, is sent whatever the route and whatever
    is stored.  With no token held and no credential stored the request
    fails with the authentication error and nothing is sent. *)
Theorem fetchWithAuth_credential_precedence
    (server : Request -> FetchOutcome) w url options :
  let '(r, w', _) := run server (fetchWithAuth url options) w in
  match (if truthy_str (token w) then token w
         else credential_precedence (js_includes url "/admin/")
                (ls_adminToken w) (ls_session_token w)) with
  | Some tk =>
      sent w' = sent w ++ [build_request (API_BASE_URL w) url options tk]
      /\ req_headers (build_request (API_BASE_URL w) url options tk)
           !! "Authorization" = Some ("Bearer " +:+ tk)
      /\ token w' = Some tk
  | None => r = Thrown no_token_error /\ sent w' = sent w
  end.
Proof.
  unfold fetchWithAuth. cbn [run].
  assert (Hsent : forall tk w1,
    sent w1 = sent w ++ [build_request (API_BASE_URL w) url options tk] ->
    token w1 = Some tk ->
    let '(r, w', _) :=
      (let '(x, s') :=
         settle (server (build_request (API_BASE_URL w) url options tk)) w1 in
       run server (Done x) s') in
    sent w' = sent w ++ [build_request (API_BASE_URL w) url options tk]
    /\ req_headers (build_request (API_BASE_URL w) url options tk)
         !! "Authorization" = Some ("Bearer " +:+ tk)
    /\ token w' = Some tk).
  { intros tk w1 Hs Ht.
    pose proof (settle_sent
      (server (build_request (API_BASE_URL w) url options tk)) w1) as Hsent.
    pose proof (settle_token
      (server (build_request (API_BASE_URL w) url options tk)) w1) as Htok.
    destruct (settle _ w1) as [r w'']. cbn [run snd] in *.
    split; [by rewrite Hsent|]. split; [|by rewrite Htok].
    unfold build_request. cbn. apply lookup_insert_eq. }
  destruct (truthy_str (token w)) eqn:H.
  - destruct (token w) as [tk|] eqn:Htk; [|discriminate].
    rewrite (prepare_resolved w url options tk Htk H). cbn [run].
    by apply Hsent.
  - rewrite prepare_unresolved by done.
    destruct (credential_precedence _ _ _) as [tk|]; cbn [run]; [|done].
    by apply Hsent.
Qed.
End Credentials.

(** Nothing is injected and both credentials are stored.  A first request
    to a user route takes the session credential and keeps it; the request
    to an admin route that follows goes out with it, although the
    precedence gives the admin credential for that route. *)
Lemma fetchWithAuth_precedence_skipped_once_pinned :
  let w := with_storage (Some "adm") (Some "sess") (Scenario.browser None None 1000) in
  let w1 := (run Scenario.offline (fetchWithAuth "/dashboard/data" no_options) w).1.2 in
  let w2 :=
    (run Scenario.offline (fetchWithAuth "/admin/server-events" no_options) w1).1.2 in
  token w = None
  /\ credential_precedence (js_includes "/admin/server-events" "/admin/")
       (ls_adminToken w1) (ls_session_token w1) = Some "adm"
  /\ sent w2 =
       [build_request Scenario.base "/dashboard/data" no_options "sess";
        build_request Scenario.base "/admin/server-events" no_options "sess"].
Proof. repeat split; reflexivity. Qed.

Lemma fetchWithAuth_credential_precedence_witness :
  let w := with_storage (Some "adm") (Some "sess") (Scenario.browser None None 1000) in
  sent (run Scenario.offline (fetchWithAuth "/admin/server-events" no_options) w).1.2
    = [build_request Scenario.base "/admin/server-events" no_options "adm"]
  /\ sent (run Scenario.offline (fetchWithAuth "/dashboard/data" no_options) w).1.2
    = [build_request Scenario.base "/dashboard/data" no_options "sess"].
Proof.
  intros w. split.
  - pose proof (fetchWithAuth_credential_precedence Scenario.offline w
                  "/admin/server-events" no_options) as H.
    exact (proj1 H).
  - pose proof (fetchWithAuth_credential_precedence Scenario.offline w
                  "/dashboard/data" no_options) as H.
    exact (proj1 H).
Defined.

(** ** One request *)

Section Requests.
Context `{CS : cacheService.t}.
Implicit Types (w : World) (url : string) (options : Options).
Variable server : Request -> FetchOutcome.

Lemma http_error_not_network status json :
  is_network_error (http_error status json) = false.
Proof.
  unfold http_error.
  destruct json as [v|e]; [destruct v|]; cbn; try reflexivity.
  all: by destruct (obj_of_fields _ !! "detail").
Qed.

Lemma settle_eq o w :
  settle o w =
    ((settle o w).1,
     if announces o then dispatchEvent network_error_event w else w).
Proof.
  unfold settle, rethrow, announces. destruct o as [e|status json].
  - by destruct (is_network_error e).
  - destruct (response_ok status); [done|].
    by rewrite http_error_not_network.
Qed.

Lemma settle_result o w1 w2 : (settle o w1).1 = (settle o w2).1.
Proof.
  unfold settle, rethrow. destruct o as [e|status json].
  - by destruct (is_network_error e).
  - destruct (response_ok status); [done|].
    by destruct (is_network_error _).
Qed.

Lemma with_token_same w : with_token (token w) w = w.
Proof. by destruct w. Qed.

Lemma prepare_eq url options w :
  prepare url options w =
    match resolved url w with
    | Some tk =>
        (Ok (build_request (API_BASE_URL w) url options tk),
         send (build_request (API_BASE_URL w) url options tk)
              (with_token (Some tk) w))
    | None => (Thrown no_token_error, w)
    end.
Proof.
  unfold resolved. destruct (truthy_str (token w)) eqn:H.
  - destruct (token w) as [tk|] eqn:Htk; [|done].
    rewrite (prepare_resolved w url options tk) by done.
    by rewrite <- Htk, with_token_same.
  - by apply prepare_unresolved.
Qed.

Lemma resolved_truthy url w tk :
  resolved url w = Some tk -> truthy_str (Some tk) = true.
Proof.
  unfold resolved. destruct (truthy_str (token w)) eqn:H.
  - by intros <-.
  - apply credential_precedence_truthy.
Qed.

Lemma run_fetchWithAuth url options w :
  run server (fetchWithAuth url options) w =
    match prepare url options w with
    | (Ok q, w1) => (settle (server q) w1, [])
    | (Thrown e, w1) => (Thrown e, w1, [])
    end.
Proof.
  unfold fetchWithAuth. cbn [run].
  destruct (prepare url options w) as [[q|e] w1]; cbn [run]; [|done].
  by destruct (settle (server q) w1).
Qed.
End Requests.

(** ** The two requests of a refresh *)

Section Refresh.
Context `{CS : cacheService.t}.
Implicit Types (w : World).
Variable server : Request -> FetchOutcome.

Lemma announce_eq o w : (settle o w).2 = announce o w.
Proof. by rewrite settle_eq. Qed.

Lemma fetch_result_eq url w :
  fetch_result server url w =
    match resolved url w with
    | Some tk =>
        (settle (server (build_request (API_BASE_URL w) url no_options tk)) w).1
    | None => Thrown no_token_error
    end.
Proof.
  unfold fetch_result. rewrite run_fetchWithAuth, prepare_eq.
  destruct (resolved url w) as [tk|]; [|done]. cbn. apply settle_result.
Qed.

Lemma fetch_events_eq url w :
  fetch_events server url w =
    match resolved url w with
    | Some tk =>
        if announces (server (build_request (API_BASE_URL w) url no_options tk))
        then [mkEvent "network:error" None] else []
    | None => []
    end.
Proof.
  unfold fetch_events. rewrite run_fetchWithAuth, prepare_eq.
  destruct (resolved url w) as [tk|]; cbn.
  - rewrite announce_eq. unfold announce.
    destruct (announces _); cbn.
    + by rewrite drop_app_length.
    + by rewrite drop_all.
  - by rewrite drop_all.
Qed.

Lemma resolved_secondary w :
  resolved "/portfolio/due-dates-data" w = resolved "/dashboard/data" w.
Proof. reflexivity. Qed.

Lemma resolved_after url q w tk :
  truthy_str (Some tk) = true ->
  resolved url (send q (with_token (Some tk) w)) = Some tk.
Proof. intros H. unfold resolved. cbn -[truthy_str]. by rewrite H. Qed.

Lemma run_fetchWithAuth2 w :
  run server (fetchWithAuth2 "/dashboard/data" "/portfolio/due-dates-data") w =
    ((fetch_result server "/dashboard/data" w,
      fetch_result server "/portfolio/due-dates-data" w),
     after_requests server w, []).
Proof.
  unfold fetchWithAuth2, after_requests. cbn [run].
  rewrite !fetch_result_eq, resolved_secondary, (prepare_eq "/dashboard/data").
  destruct (resolved "/dashboard/data" w) as [tk|] eqn:Hr.
  - pose proof (resolved_truthy _ _ _ Hr) as Htk.
    rewrite prepare_eq, (resolved_after _ _ _ _ Htk). cbn [run].
    rewrite (settle_eq (server (build_request _ "/dashboard/data" _ _))). cbn [run].
    rewrite (settle_eq (server (build_request _ "/portfolio/due-dates-data" _ _))).
    cbn [run]. unfold primary_request, secondary_request, announce.
    repeat apply (f_equal2 pair); try reflexivity;
      exact (settle_result _ _ _).
  - rewrite prepare_eq, resolved_secondary, Hr. reflexivity.
Qed.

Lemma after_requests_cache w : cache (after_requests server w) = cache w.
Proof.
  unfold after_requests, announce.
  destruct (resolved _ w); [|done]. by repeat destruct (announces _).
Qed.

Lemma after_requests_clock w : clock (after_requests server w) = clock w.
Proof.
  unfold after_requests, announce.
  destruct (resolved _ w); [|done]. by repeat destruct (announces _).
Qed.

Lemma after_requests_dispatched w :
  dispatched (after_requests server w) =
    dispatched w ++ fetch_events server "/dashboard/data" w
                 ++ fetch_events server "/portfolio/due-dates-data" w.
Proof.
  rewrite !fetch_events_eq, resolved_secondary.
  unfold after_requests, announce, primary_request, secondary_request.
  destruct (resolved _ w); [|by rewrite app_nil_r].
  repeat destruct (announces _); cbn; by rewrite <- ?app_assoc, ?app_nil_r.
Qed.

Lemma fetch_events_ok url w v :
  fetch_result server url w = Ok v -> fetch_events server url w = [].
Proof.
  rewrite fetch_result_eq, fetch_events_eq.
  destruct (resolved url w) as [tk|]; [|done].
  destruct (server _) as [e|status json]; [|done].
  cbn. unfold rethrow. by destruct (is_network_error e).
Qed.
End Refresh.

(** ** Requests leave the cache alone *)

Section Quiet.
Context `{CS : cacheService.t}.
Implicit Types (w : World).
Variable server : Request -> FetchOutcome.

Lemma quiet_refl w : quiet w w.
Proof. repeat split. exists 0%nat. by rewrite app_nil_r. Qed.

Lemma quiet_trans w1 w2 w3 : quiet w1 w2 -> quiet w2 w3 -> quiet w1 w3.
Proof.
  intros (Hc1 & Hk1 & n1 & Hd1) (Hc2 & Hk2 & n2 & Hd2).
  split; [congruence|]. split; [congruence|].
  exists (n1 + n2)%nat. by rewrite Hd2, Hd1, <- app_assoc, replicate_add.
Qed.

Lemma quiet_announce o w : quiet w (announce o w).
Proof.
  unfold announce. destruct (announces o); [|apply quiet_refl].
  repeat split. by exists 1%nat.
Qed.

Lemma quiet_console l w : quiet w (console_log l w).
Proof. repeat split. exists 0%nat. cbn. by rewrite app_nil_r. Qed.

Lemma quiet_prepare url options w : quiet w (prepare url options w).2.
Proof.
  rewrite prepare_eq. destruct (resolved url w); [|apply quiet_refl].
  repeat split. exists 0%nat. cbn. by rewrite app_nil_r.
Qed.

Lemma quiet_refreshed_count w w' :
  quiet w w' -> refreshed_count (dispatched w') = refreshed_count (dispatched w).
Proof.
  intros (_ & _ & n & ->). unfold refreshed_count.
  rewrite filter_app, length_app.
  assert (filter (fun ev => ev_type ev = "dashboard:refreshed")
            (replicate n (mkEvent "network:error" None)) = []) as ->.
  { induction n as [|n IH]; [done|]. simpl replicate.
    rewrite filter_cons_False; [exact IH|]. cbn. discriminate. }
  cbn. lia.
Qed.

Lemma fetchWithAuth_quiet url options w :
  quiet w (run server (fetchWithAuth url options) w).1.2
  /\ (run server (fetchWithAuth url options) w).2 = [].
Proof.
  rewrite run_fetchWithAuth.
  pose proof (quiet_prepare url options w) as Hq.
  destruct (prepare url options w) as [[q|e] w1]; cbn in *; [|done].
  split; [|done]. rewrite announce_eq.
  eapply quiet_trans; [exact Hq|apply quiet_announce].
Qed.

Lemma fetchServerEvents_spec w :
  (run server _fetchServerEvents w).1.1 !! "success" = None
  /\ quiet w (run server _fetchServerEvents w).1.2
  /\ (run server _fetchServerEvents w).2 = [].
Proof.
  unfold _fetchServerEvents. rewrite run_bind.
  destruct (fetchWithAuth_quiet "/admin/server-events?include_inactive=false"
              no_options w) as [Hq Hp].
  destruct (run server (fetchWithAuth _ _) w) as [[r w1] p1].
  cbn in Hq, Hp. subst p1.
  assert (Hlog : forall level text,
    empty_events !! "success" = None
    /\ quiet w (console_log (mkLog level text) w1) /\ @nil (Suspended World unit) = []).
  { intros level text. split; [done|]. split; [|done].
    eapply quiet_trans; [exact Hq|apply quiet_console]. }
  destruct r as [response|e]; [|apply (Hlog "error")].
  destruct (get_prop response "success") as [success|e]; [|apply (Hlog "error")].
  destruct (truthy_prop success); [|apply (Hlog "warn")].
  cbn [run fst snd]. split; [|done].
  rewrite lookup_insert_ne by done. by rewrite lookup_singleton_ne.
Qed.

(** The events refresh of [getDashboardData] hands the merged data back
    as it got it. *)
Lemma run_refresh_events combinedData w :
  (run server (refresh_events combinedData) w).1.1 = combinedData
  /\ quiet w (run server (refresh_events combinedData) w).1.2
  /\ (run server (refresh_events combinedData) w).2 = [].
Proof.
  unfold refresh_events.
  destruct (truthy_prop (combinedData !! "success") && update_flag_set combinedData);
    [|by (cbn; split; [|split; [apply quiet_refl|]])].
  rewrite run_bind.
  destruct (fetchServerEvents_spec w) as (Hs & Hq & Hp).
  destruct (run server _fetchServerEvents w) as [[fresh w1] p1].
  cbn in Hs, Hq, Hp. subst p1. rewrite Hs. cbn. done.
Qed.
End Quiet.

(** ** A refresh, step by step *)

Section RefreshRuns.
Context `{CS : cacheService.t}.
Implicit Types (w : World).
Variable server : Request -> FetchOutcome.

Lemma run_getDashboardData_miss useCache w :
  cache_hit useCache w = None ->
  run server (getDashboardData useCache) w =
    match fetch_result server "/dashboard/data" w with
    | Thrown e => run server (fallback useCache e) (after_requests server w)
    | Ok dashboardData =>
        let combinedData :=
          combine dashboardData
            (catch_null (fetch_result server "/portfolio/due-dates-data" w)) in
        let w2 :=
          (run server (refresh_events combinedData) (after_requests server w)).1.2 in
        (Ok combinedData,
         if truthy_prop (combinedData !! "success")
         then save_and_announce combinedData w2 else w2,
         [])
    end.
Proof.
  intros Hmiss. unfold getDashboardData.
  rewrite run_bind, run_read, Hmiss, run_bind, run_fetchWithAuth2.
  cbn [fst snd].
  destruct (fetch_result server "/dashboard/data" w) as [d|e].
  - rewrite run_bind.
    destruct (run_refresh_events server
                (combine d (catch_null (fetch_result server "/portfolio/due-dates-data" w)))
                (after_requests server w)) as (Hr & _ & Hp).
    destruct (run server (refresh_events _) (after_requests server w)) as [[c w2] p2].
    cbn in Hr, Hp. subst c p2. cbn [fst snd].
    rewrite run_bind.
    destruct (truthy_prop (combine d _ !! "success")); reflexivity.
  - destruct (run server (fallback useCache e) (after_requests server w)) as [[r w2] p2].
    reflexivity.
Qed.

Lemma run_fallback useCache e w :
  run server (fallback useCache e) w =
    (match (if useCache then cacheService.getDashboardData (clock w) (cache w)
            else None) with
     | Some cachedData =>
         Ok (<["_error" := VStr (err_message e)]>
               (<["_fromCacheDueToError" := VBool true]> cachedData))
     | None => Thrown e
     end, w, []).
Proof.
  unfold fallback. destruct useCache; [|done].
  rewrite run_bind, run_read.
  by destruct (cacheService.getDashboardData (clock w) (cache w)).
Qed.

Lemma run_backgroundRefresh w :
  run server _backgroundRefresh w =
    (tt,
     match fetch_result server "/dashboard/data" w with
     | Thrown e =>
         console_log (mkLog "error" "Background refresh failed:")
           (after_requests server w)
     | Ok dashboardData =>
         let combinedData :=
           combine dashboardData
             (catch_null (fetch_result server "/portfolio/due-dates-data" w)) in
         if truthy_prop (combinedData !! "success")
         then write_if_changed combinedData (after_requests server w)
         else after_requests server w
     end, []).
Proof.
  unfold _backgroundRefresh. rewrite run_bind, run_fetchWithAuth2. cbn [fst snd].
  destruct (fetch_result server "/dashboard/data" w) as [d|e]; [|reflexivity].
  by destruct (truthy_prop (combine d _ !! "success")).
Qed.

Lemma run_getDashboardData_hit useCache w (cachedData : obj) :
  cache_hit useCache w = Some cachedData ->
  run server (getDashboardData useCache) w =
    let a := if update_flag_set cachedData
             then advance _backgroundRefreshEvents w
             else (Finished tt, w, []) in
    let b := if cacheService.shouldTriggerBackgroundRefresh
                  (clock a.1.2) (cache a.1.2)
             then advance _backgroundRefresh a.1.2
             else (Finished tt, a.1.2, []) in
    (Ok cachedData, b.1.2, (a.2 ++ park a.1.1) ++ (b.2 ++ park b.1.1)).
Proof.
  intros Hhit. unfold getDashboardData.
  rewrite run_bind, run_read, Hhit, run_bind.
  destruct (update_flag_set cachedData); cbn [when run].
  - destruct (advance _backgroundRefreshEvents w) as [[sa wa] pa].
    cbn [fst snd]. rewrite run_bind, run_read, run_bind.
    destruct (cacheService.shouldTriggerBackgroundRefresh (clock wa) (cache wa));
      cbn [when run].
    + destruct (advance _backgroundRefresh wa) as [[sb wb] pb]. cbn [fst snd].
      by rewrite !app_nil_r.
    + cbn [fst snd]. by rewrite !app_nil_r.
  - rewrite run_bind, run_read, run_bind. cbn [fst snd].
    destruct (cacheService.shouldTriggerBackgroundRefresh (clock w) (cache w));
      cbn [when run].
    + destruct (advance _backgroundRefresh w) as [[sb wb] pb]. cbn [fst snd].
      by rewrite !app_nil_r.
    + done.
Qed.

Lemma after_requests_console w : console (after_requests server w) = console w.
Proof.
  unfold after_requests, announce.
  destruct (resolved _ w); [|done]. by repeat destruct (announces _).
Qed.

Lemma fetch_result_cache url w c :
  fetch_result server url (with_cache c w) = fetch_result server url w.
Proof.
  rewrite !fetch_result_eq.
  change (resolved url (with_cache c w)) with (resolved url w).
  destruct (resolved url w) as [tk|]; [|done].
  exact (settle_result _ _ _).
Qed.

Lemma combine_null dashboardData :
  combine dashboardData VNull = spread dashboardData.
Proof. unfold combine. by rewrite andb_false_r. Qed.
End RefreshRuns.

(** ** Fallback to the cache and forced refresh *)

Section Fallback.
Context `{CS : cacheService.t}.
Implicit Types (w : World).


(** C2. A forced refresh never answers from the cache: what it returns
    is the same whatever the cache holds, valid or not, and the failure
    of the primary request is what the caller gets. *)
Theorem getDashboardData_forced_bypasses_cache
    (server : Request -> FetchOutcome) w :
  cache_hit false w = None
  /\ (forall c,
       (run server (getDashboardData false) (with_cache c w)).1.1 =
       (run server (getDashboardData false) w).1.1)
  /\ (forall e, fetch_result server "/dashboard/data" w = Thrown e ->
       (run server (getDashboardData false) w).1.1 = Thrown e).
Proof.
  split; [done|]. split.
  - intros c. rewrite !run_getDashboardData_miss by done.
    rewrite !fetch_result_cache.
    destruct (fetch_result server "/dashboard/data" w) as [d|e]; [done|].
    by rewrite !run_fallback.
  - intros e He. rewrite run_getDashboardData_miss by done.
    by rewrite He, run_fallback.
Qed.
End Fallback.



Lemma getDashboardData_forced_bypasses_cache_witness :
  let w := Scenario.browser (Some "t") (Scenario.entry 500 0) 1000 in
  (run Scenario.offline (getDashboardData false) w).1.1 = Thrown network_failed.
Proof.
  intros w.
  apply (getDashboardData_forced_bypasses_cache Scenario.offline w).
  reflexivity.
Defined.

(** ** The secondary endpoint and the change check *)

Section Merge.
Context `{CS : cacheService.t}.
Implicit Types (w : World).

Lemma write_if_changed_cache data w :
  cache (write_if_changed data w) =
    match cacheService.getDashboardData (clock w) (cache w) with
    | Some oldData =>
        if cacheService.hasDataChanged data oldData
        then cacheService.saveDashboardData (clock w) data (cache w)
        else cache w
    | None => cacheService.saveDashboardData (clock w) data (cache w)
    end.
Proof.
  unfold write_if_changed.
  destruct (cacheService.getDashboardData _ _) as [old|]; [|done].
  by destruct (cacheService.hasDataChanged data old).
Qed.

Lemma write_if_changed_console data w :
  console (write_if_changed data w) = console w.
Proof.
  unfold write_if_changed.
  destruct (cacheService.getDashboardData _ _) as [old|]; [|done].
  by destruct (cacheService.hasDataChanged data old).
Qed.

Lemma save_and_announce_cache data w :
  cache (save_and_announce data w) =
    cacheService.saveDashboardData (clock w) data (cache w).
Proof. reflexivity. Qed.

Lemma save_and_announce_count data w :
  refreshed_count (dispatched (save_and_announce data w)) =
    Datatypes.S (refreshed_count (dispatched w)).
Proof.
  unfold refreshed_count, save_and_announce, dispatchEvent.
  cbn [dispatched with_cache]. rewrite filter_app, length_app.
  rewrite filter_cons_True by reflexivity. cbn [length filter]. simpl. lia.
Qed.

(** C4, as the code has it. When the primary request succeeds and the
    secondary one fails, neither refresh fails.  The merged data is the
    copy of the primary payload's own properties, with every field as it
    came and no [due_dates] or [partial] of the refresh's making.  The
    refresh the caller waits for returns it and writes it to the cache
    when its [success] is truthy; the background refresh logs nothing and
    writes it when its [success] is truthy and the cache is empty or the
    cache service reports a change. *)
Theorem getDashboardData_tolerates_secondary
    (server : Request -> FetchOutcome) w (dashboardData : value) (e : JsError) :
  fetch_result server "/dashboard/data" w = Ok dashboardData ->
  fetch_result server "/portfolio/due-dates-data" w = Thrown e ->
  let merged := spread dashboardData in
  let saved := cacheService.saveDashboardData (clock w) merged (cache w) in
  (forall useCache, cache_hit useCache w = None ->
     let out := run server (getDashboardData useCache) w in
     out.1.1 = Ok merged
     /\ cache out.1.2 =
          if truthy_prop (merged !! "success") then saved else cache w)
  /\ (let w' := (run server _backgroundRefresh w).1.2 in
      console w' = console w
      /\ cache w' =
           if truthy_prop (merged !! "success") then
             match cacheService.getDashboardData (clock w) (cache w) with
             | Some oldData =>
                 if cacheService.hasDataChanged merged oldData
                 then saved else cache w
             | None => saved
             end
           else cache w).
Proof.
  intros Hp Hs merged saved. subst merged saved. split.
  - intros useCache Hmiss out. subst out.
    rewrite run_getDashboardData_miss by done.
    rewrite Hp, Hs. cbn [catch_null fst snd]. rewrite combine_null.
    split; [done|].
    destruct (run_refresh_events server (spread dashboardData)
                (after_requests server w)) as (_ & (Hc & Hk & _) & _).
    destruct (truthy_prop (spread dashboardData !! "success")).
    + rewrite save_and_announce_cache, Hc, Hk.
      by rewrite after_requests_cache, after_requests_clock.
    + by rewrite Hc, after_requests_cache.
  - intros w'. subst w'. rewrite run_backgroundRefresh, Hp, Hs.
    cbn [catch_null fst snd]. rewrite combine_null.
    destruct (truthy_prop (spread dashboardData !! "success")).
    + rewrite write_if_changed_console, write_if_changed_cache.
      by rewrite after_requests_console, after_requests_cache, after_requests_clock.
    + by rewrite after_requests_console, after_requests_cache.
Qed.

(** C6, as the code has it. A background refresh whose merged data the
    cache service reports unchanged against the cached data leaves the
    cache as it is and dispatches no [dashboard:refreshed]; the refresh
    the caller waits for writes every successful payload to the cache and
    dispatches [dashboard:refreshed] once, changed or not. *)
Theorem refresh_change_check
    (server : Request -> FetchOutcome) w (dashboardData : value) :
  fetch_result server "/dashboard/data" w = Ok dashboardData ->
  let combinedData :=
    combine dashboardData
      (catch_null (fetch_result server "/portfolio/due-dates-data" w)) in
  truthy_prop (combinedData !! "success") = true ->
  (forall oldData,
      cacheService.getDashboardData (clock w) (cache w) = Some oldData ->
      cacheService.hasDataChanged combinedData oldData = false ->
      let w' := (run server _backgroundRefresh w).1.2 in
      cache w' = cache w
      /\ refreshed_count (dispatched w') = refreshed_count (dispatched w))
  /\ (forall useCache,
      cache_hit useCache w = None ->
      let w' := (run server (getDashboardData useCache) w).1.2 in
      cache w' = cacheService.saveDashboardData (clock w) combinedData (cache w)
      /\ refreshed_count (dispatched w') =
           Datatypes.S (refreshed_count (dispatched w))).
Proof.
  intros Hp combinedData Hsuccess.
  assert (Hq : quiet w (after_requests server w)).
  { split; [apply after_requests_cache|]. split; [apply after_requests_clock|].
    rewrite after_requests_dispatched, (fetch_events_ok _ _ _ _ Hp), fetch_events_eq.
    destruct (resolved _ w); [destruct (announces _)|..].
    - by exists 1%nat.
    - by exists 0%nat.
    - by exists 0%nat. }
  split.
  - intros oldData Hold Hsame w'. subst w'.
    rewrite run_backgroundRefresh, Hp. cbn [fst snd].
    fold combinedData. rewrite Hsuccess. unfold write_if_changed.
    rewrite after_requests_cache, after_requests_clock, Hold, Hsame.
    split; [apply after_requests_cache|]. by apply quiet_refreshed_count.
  - intros useCache Hmiss w'. subst w'.
    rewrite run_getDashboardData_miss by done. rewrite Hp. cbn [fst snd].
    fold combinedData. rewrite Hsuccess.
    destruct (run_refresh_events server combinedData (after_requests server w))
      as (_ & Hq2 & _).
    pose proof (quiet_trans _ _ _ Hq Hq2) as Hq3.
    rewrite save_and_announce_cache, save_and_announce_count.
    rewrite (quiet_refreshed_count _ _ Hq3).
    destruct Hq3 as (-> & -> & _). done.
Qed.
End Merge.

(** The scenario of the specification: nothing cached, the primary
    endpoint answers, the due-dates endpoint is down.  The data comes back
    whole, and without a [partial] mark. *)
Lemma getDashboardData_sets_no_partial :
  let w := Scenario.browser (Some "t") None 1000 in
  let server := Scenario.primary_only (Scenario.payload 500) in
  let out := run server (getDashboardData true) w in
  fetch_result server "/dashboard/data" w = Ok (Scenario.payload 500)
  /\ fetch_result server "/portfolio/due-dates-data" w
       = Thrown (Error "HTTP error! status: 503")
  /\ out.1.1 = Ok (spread (Scenario.payload 500))
  /\ spread (Scenario.payload 500) !! "partial" = None
  /\ cache out.1.2 = Scenario.entry 500 1000.
Proof. repeat split; reflexivity. Qed.

Lemma getDashboardData_tolerates_secondary_witness :
  let w := Scenario.browser (Some "t") None 1000 in
  let server := Scenario.primary_only (Scenario.payload 500) in
  (run server (getDashboardData true) w).1.1 = Ok (spread (Scenario.payload 500))
  /\ cache (run server _backgroundRefresh w).1.2 = Scenario.entry 500 1000.
Proof.
  intros w server.
  destruct (getDashboardData_tolerates_secondary server w
              (Scenario.payload 500) (Error "HTTP error! status: 503")
              eq_refl eq_refl) as (Ha & _ & Hb).
  split; [exact (proj1 (Ha true eq_refl))|exact Hb].
Defined.

(** The change detector of the specification does not see the volatile
    metadata. *)
Lemma SpecCache_ignores_volatile (s : obj) (fetchedAt source partial : value) :
  SpecCache.hasDataChanged
    (<["fetchedAt" := fetchedAt]> (<["source" := source]> (<["partial" := partial]> s)))
    s = false.
Proof.
  unfold SpecCache.hasDataChanged, SpecCache.semantic.
  apply bool_decide_eq_false. intros H. apply H. apply map_eq. intros k.
  destruct (decide (k = "partial")) as [->|]; [by rewrite !lookup_delete_eq|].
  rewrite !(lookup_delete_ne _ "partial") by done.
  destruct (decide (k = "source")) as [->|]; [by rewrite !lookup_delete_eq|].
  rewrite !(lookup_delete_ne _ "source") by done.
  destruct (decide (k = "fetchedAt")) as [->|]; [by rewrite !lookup_delete_eq|].
  rewrite !(lookup_delete_ne _ "fetchedAt") by done.
  by rewrite !lookup_insert_ne by done.
Qed.

(** The cached data has expired and the server still answers with the
    same payload: the change detector reports no change, and the refresh
    the caller waits for rewrites the cache and dispatches
    [dashboard:refreshed] all the same. *)
Lemma getDashboardData_rewrites_unchanged :
  let w := Scenario.browser (Some "t") (Scenario.entry 500 0) 10000000 in
  let server := Scenario.primary_only (Scenario.payload 500) in
  let out := run server (getDashboardData true) w in
  out.1.1 = Ok (spread (Scenario.payload 500))
  /\ @cacheService.hasDataChanged Scenario.service
       (spread (Scenario.payload 500)) (spread (Scenario.payload 500)) = false
  /\ cache w = Scenario.entry 500 0
  /\ cache out.1.2 = Scenario.entry 500 10000000
  /\ dispatched out.1.2 = [dashboard_refreshed 10000000].
Proof. repeat split; reflexivity. Qed.

Lemma refresh_change_check_witness :
  let w := Scenario.browser (Some "t") (Scenario.entry 500 0) 400000 in
  let server := Scenario.primary_only (Scenario.payload 500) in
  cache (run server _backgroundRefresh w).1.2 = cache w
  /\ refreshed_count (dispatched (run server _backgroundRefresh w).1.2) = 0%nat.
Proof.
  intros w server.
  apply (proj1 (refresh_change_check server w (Scenario.payload 500)
                  eq_refl eq_refl) (spread (Scenario.payload 500)));
    reflexivity.
Defined.

(** ** Background refreshes in flight *)

Section InFlight.
Context `{CS : cacheService.t}.
Implicit Types (w : World).

Lemma advance_backgroundRefresh w tk :
  resolved "/dashboard/data" w = Some tk ->
  in_flight (advance _backgroundRefresh w).1.1
    = [primary_request w tk; secondary_request w tk]
  /\ sent (advance _backgroundRefresh w).1.2
    = sent w ++ [primary_request w tk; secondary_request w tk]
  /\ (advance _backgroundRefresh w).2 = [].
Proof.
  intros Hr. pose proof (resolved_truthy _ _ _ Hr) as Htk.
  unfold _backgroundRefresh, fetchWithAuth2. cbn [bind advance].
  rewrite prepare_eq, Hr. rewrite prepare_eq, (resolved_after _ _ _ _ Htk).
  cbn [bind advance in_flight fst snd]. repeat split.
  cbn. by rewrite <- app_assoc.
Qed.

Lemma resume_backgroundRefresh w0 w tk o1 o2 :
  resolved "/dashboard/data" w0 = Some tk ->
  resume (advance _backgroundRefresh w0).1.1 o1 o2 w =
    (Finished tt,
     match (settle o1 w).1 with
     | Thrown _ =>
         console_log (mkLog "error" "Background refresh failed:")
           (announce o2 (announce o1 w))
     | Ok dashboardData =>
         let combinedData :=
           combine dashboardData (catch_null (settle o2 w).1) in
         if truthy_prop (combinedData !! "success")
         then write_if_changed combinedData (announce o2 (announce o1 w))
         else announce o2 (announce o1 w)
     end, []).
Proof.
  intros Hr. pose proof (resolved_truthy _ _ _ Hr) as Htk.
  unfold _backgroundRefresh, fetchWithAuth2. cbn [bind advance].
  rewrite prepare_eq, Hr. rewrite prepare_eq, (resolved_after _ _ _ _ Htk).
  cbn [bind advance resume fst snd].
  assert (E1 : settle o1 w = ((settle o1 w).1, announce o1 w)).
  { rewrite <- (announce_eq o1 w). by destruct (settle o1 w). }
  assert (E2 : settle o2 (announce o1 w)
               = ((settle o2 w).1, announce o2 (announce o1 w))).
  { rewrite <- (announce_eq o2 (announce o1 w)).
    rewrite (settle_result o2 w (announce o1 w)).
    by destruct (settle o2 (announce o1 w)). }
  rewrite E1. cbn [bind advance fst snd]. rewrite E2. cbn [bind advance fst snd].
  destruct (settle o1 w).1 as [d|e]; cbn [fst snd advance bind]; [|reflexivity].
  by destruct (truthy_prop (combine d _ !! "success")).
Qed.

Lemma announce_cache o w : cache (announce o w) = cache w.
Proof. unfold announce. by destruct (announces o). Qed.

Lemma announce_clock o w : clock (announce o w) = clock w.
Proof. unfold announce. by destruct (announces o). Qed.

(** C7, as the code has it. What a background refresh writes when it
    completes is decided at that moment by the change check alone: with
    a successful payload it saves, stamped with the clock of the
    completion, whenever the cache is empty or the cache service reports
    a change against the cached data.  The world in which the refresh
    was started plays no part, and no time of fetching is handed to the
    cache. *)
Theorem backgroundRefresh_writes_on_completion
    w0 w (tk : string) (o1 o2 : FetchOutcome) (dashboardData : value) :
  resolved "/dashboard/data" w0 = Some tk ->
  (settle o1 w).1 = Ok dashboardData ->
  let combinedData := combine dashboardData (catch_null (settle o2 w).1) in
  truthy_prop (combinedData !! "success") = true ->
  let started := (advance _backgroundRefresh w0).1.1 in
  in_flight started = [primary_request w0 tk; secondary_request w0 tk]
  /\ cache (resume started o1 o2 w).1.2 =
       match cacheService.getDashboardData (clock w) (cache w) with
       | Some oldData =>
           if cacheService.hasDataChanged combinedData oldData
           then cacheService.saveDashboardData (clock w) combinedData (cache w)
           else cache w
       | None => cacheService.saveDashboardData (clock w) combinedData (cache w)
       end.
Proof.
  intros Hr Hd combinedData Hsuccess started. subst started.
  split; [by apply advance_backgroundRefresh|].
  rewrite (resume_backgroundRefresh w0 w tk) by done.
  cbn [fst snd]. rewrite Hd. fold combinedData. rewrite Hsuccess.
  by rewrite write_if_changed_cache, !announce_cache, !announce_clock.
Qed.
End InFlight.

(** Refresh A starts at time 1000, when the balance is 100, and refresh B
    at time 2000, when it is 200.  B completes at 3000 and A at 4000: the
    cache first holds B's data and ends up holding A's, fetched first. *)
Lemma backgroundRefresh_race_older_wins :
  let down := Response 503 (Ok (VObj [])) in
  let w0 := Scenario.browser (Some "t") None 1000 in
  let a := advance _backgroundRefresh w0 in
  let b := advance _backgroundRefresh (with_clock 2000 a.1.2) in
  let b_done :=
    resume b.1.1 (Response 200 (Ok (Scenario.payload 200))) down
      (with_clock 3000 b.1.2) in
  let a_done :=
    resume a.1.1 (Response 200 (Ok (Scenario.payload 100))) down
      (with_clock 4000 b_done.1.2) in
  cache b_done.1.2 = Scenario.entry 200 3000
  /\ cache a_done.1.2 = Scenario.entry 100 4000.
Proof. split; reflexivity. Qed.

Lemma backgroundRefresh_writes_on_completion_witness :
  let w0 := Scenario.browser (Some "t") None 1000 in
  let w := Scenario.browser (Some "t") (Scenario.entry 200 3000) 4000 in
  let o1 := Response 200 (Ok (Scenario.payload 100)) in
  let o2 := Response 503 (Ok (VObj [])) in
  cache (resume (advance _backgroundRefresh w0).1.1 o1 o2 w).1.2
    = Scenario.entry 100 4000.
Proof.
  intros w0 w o1 o2.
  destruct (backgroundRefresh_writes_on_completion w0 w "t" o1 o2
              (Scenario.payload 100) eq_refl eq_refl eq_refl) as [_ H].
  rewrite H. reflexivity.
Defined.

(** ** An expired session *)

Section Unauthorized.
Context `{CS : cacheService.t}.
Implicit Types (w : World).

(** C9, as the code has it. When the primary request of a refresh is
    answered with HTTP 401, no event is dispatched for it: whatever the
    refresh dispatches is the [network:error] of a rejected secondary
    request.  The request fails with the error [fetchWithAuth] throws for
    a response that is not [ok], and the refresh handles it as any other
    failure: the refresh the caller waits for answers with the tagged
    copy of the cached data when it is cache-backed and there is some,
    and throws the error otherwise; the background refresh logs one line
    and leaves the cache as it is.  The error carries the [detail] of
    the body when that is truthy, names the status when the body cannot
    be parsed, and is the [TypeError] of the reading when the body is
    [null]. *)
Theorem refresh_unauthorized
    (server : Request -> FetchOutcome) w (tk : string) (json : Result value) :
  resolved "/dashboard/data" w = Some tk ->
  server (primary_request w tk) = Response 401 json ->
  let err := http_error 401 json in
  let secondary := fetch_events server "/portfolio/due-dates-data" w in
  fetch_result server "/dashboard/data" w = Thrown err
  /\ Forall (fun ev => ev_type ev = "network:error") secondary
  /\ (forall useCache, cache_hit useCache w = None ->
      let out := run server (getDashboardData useCache) w in
      out.1.1 =
        match (if useCache then cacheService.getDashboardData (clock w) (cache w)
               else None) with
        | Some cachedData =>
            Ok (<["_error" := VStr (err_message err)]>
                  (<["_fromCacheDueToError" := VBool true]> cachedData))
        | None => Thrown err
        end
      /\ dispatched out.1.2 = dispatched w ++ secondary)
  /\ (let w' := (run server _backgroundRefresh w).1.2 in
      dispatched w' = dispatched w ++ secondary
      /\ cache w' = cache w
      /\ console w' = console w ++ [mkLog "error" "Background refresh failed:"])
  /\ (forall fields detail,
      obj_of_fields fields !! "detail" = Some detail -> truthy detail = true ->
      http_error 401 (Ok (VObj fields)) = Error (js_string detail))
  /\ (forall e, http_error 401 (Thrown e) = Error "HTTP error! status: 401")
  /\ err_name (http_error 401 (Ok VNull)) = "TypeError".
Proof.
  intros Hr H401 err secondary. subst err secondary.
  assert (Hp : fetch_result server "/dashboard/data" w
               = Thrown (http_error 401 json)).
  { rewrite fetch_result_eq, Hr. fold (primary_request w tk). rewrite H401.
    cbn. unfold rethrow. by rewrite http_error_not_network. }
  assert (He : fetch_events server "/dashboard/data" w = []).
  { rewrite fetch_events_eq, Hr. fold (primary_request w tk). by rewrite H401. }
  split; [exact Hp|]. split; [|split; [|split; [|split; [|split]]]].
  - rewrite fetch_events_eq. destruct (resolved _ w) as [t|]; [|constructor].
    destruct (announces _); repeat constructor.
  - intros useCache Hmiss out. subst out.
    rewrite run_getDashboardData_miss by done. rewrite Hp, run_fallback.
    cbn [fst snd]. rewrite after_requests_cache, after_requests_clock.
    split; [done|]. by rewrite after_requests_dispatched, He.
  - intros w'. subst w'. rewrite run_backgroundRefresh, Hp. cbn [fst snd].
    cbn [dispatched cache console console_log].
    rewrite after_requests_dispatched, He, after_requests_cache,
      after_requests_console. done.
  - intros fields detail Hd Ht. unfold http_error. cbn [get_prop].
    rewrite Hd. cbn [js_or]. by rewrite Ht.
  - done.
  - done.
Qed.
End Unauthorized.

(** The server answers every request with a 401 and the detail
    "Unauthorized": a forced refresh fails with that message, and nothing
    is dispatched, an [auth:expired] no more than anything else. *)
Lemma refresh_unauthorized_dispatches_nothing :
  let w := Scenario.browser (Some "t") None 1000 in
  let server := Scenario.answers 401 [("detail", VStr "Unauthorized")] in
  let out := run server (getDashboardData false) w in
  out.1.1 = Thrown (Error "Unauthorized")
  /\ dispatched out.1.2 = []
  /\ ~ In "auth:expired" (map ev_type (dispatched out.1.2)).
Proof. split; [reflexivity|]. split; [reflexivity|]. intros []. Qed.

Lemma refresh_unauthorized_witness :
  let w := Scenario.browser (Some "t") None 1000 in
  let server := Scenario.answers 401 [("detail", VStr "Unauthorized")] in
  (run server (getDashboardData false) w).1.1 = Thrown (Error "Unauthorized").
Proof.
  intros w server.
  destruct (refresh_unauthorized server w "t"
              (Ok (VObj [("detail", VStr "Unauthorized")]))
              eq_refl eq_refl) as (_ & _ & H & _).
  exact (proj1 (H false eq_refl)).
Defined.

(** ** The token of the singleton *)

Section Singleton.
Context `{CS : cacheService.t}.
Implicit Types (w : World).
Variable server : Request -> FetchOutcome.

Lemma call_resolved w (c : ApiCall) (tk : string) :
  token w = Some tk -> truthy_str (Some tk) = true ->
  token (call server w c) = Some tk
  /\ API_BASE_URL (call server w c) = API_BASE_URL w
  /\ sent (call server w c) =
       sent w ++ [build_request (API_BASE_URL w) (call_url c) (call_options c) tk].
Proof.
  intros Htk Htr. unfold call. rewrite run_fetchWithAuth.
  rewrite (prepare_resolved _ _ _ tk) by done.
  cbn [fst snd]. rewrite announce_eq. unfold announce.
  by destruct (announces _).
Qed.

(** C10. Once the service holds a token, left there by an earlier request
    or by [setToken], every later request of the singleton goes out with
    that token, whatever its route and whatever the stored credentials
    have become meanwhile: the precedence among the stored credentials is
    not looked at again, and the token stays as it is. *)
Theorem token_resolved_once w (later : list ApiCall) (tk : string) :
  token w = Some tk ->
  truthy_str (Some tk) = true ->
  token (calls server w later) = Some tk
  /\ sent (calls server w later) =
       sent w ++ map (fun c => build_request (API_BASE_URL w) (call_url c)
                                 (call_options c) tk) later
  /\ Forall (fun r => req_headers r !! "Authorization" = Some ("Bearer " +:+ tk))
       (drop (length (sent w)) (sent (calls server w later))).
Proof.
  intros Htk Htr.
  assert (H : token (calls server w later) = Some tk
    /\ sent (calls server w later) =
         sent w ++ map (fun c => build_request (API_BASE_URL w) (call_url c)
                                   (call_options c) tk) later).
  { revert w Htk. induction later as [|c later IH]; intros w Htk.
    - cbn. by rewrite app_nil_r.
    - destruct (call_resolved w c tk Htk Htr) as (Ht1 & Hb1 & Hs1).
      destruct (IH _ Ht1) as [Ht2 Hs2].
      change (calls server w (c :: later))
        with (calls server (call server w c) later).
      split; [exact Ht2|]. rewrite Hs2, Hs1, Hb1, <- app_assoc. reflexivity. }
  destruct H as [Ht Hs]. split; [exact Ht|]. split; [exact Hs|].
  rewrite Hs, drop_app_length. apply Forall_forall. intros r Hin.
  apply list_elem_of_In, in_map_iff in Hin as (c & <- & _).
  unfold build_request. cbn. apply lookup_insert_eq.
Qed.
End Singleton.

Lemma token_resolved_once_witness :
  let w := Scenario.browser None None 1000 in
  let first := mkCall None (Some "user-session") "/dashboard/data" no_options in
  let later := [mkCall (Some "admin-token") None "/admin/server-events" no_options] in
  token (call Scenario.offline w first) = Some "user-session"
  /\ token (calls Scenario.offline (call Scenario.offline w first) later)
       = Some "user-session"
  /\ map (fun r => req_headers r !! "Authorization")
         (sent (calls Scenario.offline (call Scenario.offline w first) later))
       = [Some "Bearer user-session"; Some "Bearer user-session"].
Proof.
  intros w first later. split; [reflexivity|].
  destruct (token_resolved_once Scenario.offline (call Scenario.offline w first)
              later "user-session" eq_refl eq_refl) as (Ht & Hs & _).
  split; [exact Ht|]. rewrite Hs. reflexivity.
Defined.

(** ** The server-events update flag *)

(** C8, the defect. The primary payload raises the update flag and the
    events endpoint answers with one event: the refresh fetches the events
    once and sends no acknowledgement, since [_fetchServerEvents] resolves
    with an object that has no [success] for the caller to test; the
    events are not merged into the data either.  The background refresh of
    the events, started for cached data that carries the flag, stops at the
    same test: one fetch, no acknowledgement, the cache and the flag in it
    as they were. *)
Lemma server_events_flag_not_acknowledged :
  let w := Scenario.browser (Some "t") None 1000 in
  let out := run Scenario.flag_raised (getDashboardData true) w in
  let flagged := Some (SpecCache.mkEntry (spread Scenario.flagged_payload) 1000) in
  let w' := Scenario.browser (Some "t") flagged 2000 in
  let out' := run Scenario.flag_raised _backgroundRefreshEvents w' in
  (map (fun r => (req_method r, req_url r)) (sent out.1.2) =
     [("GET", Scenario.base +:+ "/dashboard/data");
      ("GET", Scenario.base +:+ "/portfolio/due-dates-data");
      ("GET", Scenario.base +:+ "/admin/server-events?include_inactive=false")]
   /\ exists combinedData : obj,
         out.1.1 = Ok combinedData
         /\ combinedData !! "server_events_update_flag" = Some (VStr "true")
         /\ combinedData !! "server_events" = None)
  /\ (map (fun r => (req_method r, req_url r)) (sent out'.1.2) =
        [("GET", Scenario.base +:+ "/admin/server-events?include_inactive=false")]
      /\ cache out'.1.2 = flagged
      /\ dispatched out'.1.2 = []).
Proof.
  split.
  - split; [reflexivity|].
    eexists. split; [reflexivity|]. split; reflexivity.
  - repeat split; reflexivity.
Qed.

(** ** One fetch at a time in the carousel *)

Section CarouselGuard.
Import ServerEventsCarousel.
Variable JSON_parse : string -> Result value.
Variable JSON_stringify : value -> string.
Abbreviation fetchEvents := (fetchEvents JSON_parse JSON_stringify).
Abbreviation after_fetch := (after_fetch JSON_parse JSON_stringify).
Abbreviation step := (step JSON_parse JSON_stringify).
Abbreviation steps := (steps JSON_parse JSON_stringify).
Abbreviation Inv := (one_fetch_at_most JSON_parse JSON_stringify).
Implicit Types (c : Carousel) (m : Mounted).

Lemma advance_fetchEvents_busy forceRefresh c :
  fetchInProgress c = true ->
  advance (fetchEvents forceRefresh) c = (Finished tt, c, []).
Proof. intros H. unfold ServerEventsCarousel.fetchEvents. cbn. by rewrite H. Qed.

Lemma getCachedEvents_frame c :
  fetchInProgress (getCachedEvents JSON_parse c).2 = fetchInProgress c
  /\ sent (getCachedEvents JSON_parse c).2 = sent c
  /\ propEvents (getCachedEvents JSON_parse c).2 = propEvents c
  /\ ls_session_token (getCachedEvents JSON_parse c).2 = ls_session_token c.
Proof.
  unfold getCachedEvents.
  destruct (ls_server_events_cache c) as [s|]; [|done].
  destruct (truthy_str (Some s)); [|done].
  destruct (JSON_parse s) as [parsed|e]; [|done].
  destruct (get_prop parsed "timestamp") as [ts|e]; [|done].
  by destruct (still_valid (clock c) ts).
Qed.

Lemma advance_fetchEvents_idle forceRefresh c :
  fetchInProgress c = false ->
  (advance (fetchEvents forceRefresh) c).2 = []
  /\ (((advance (fetchEvents forceRefresh) c).1.1 = Finished tt
       /\ fetchInProgress (advance (fetchEvents forceRefresh) c).1.2 = false
       /\ sent (advance (fetchEvents forceRefresh) c).1.2 = sent c)
      \/ (exists r,
           (advance (fetchEvents forceRefresh) c).1.1
             = Waiting r (fun o => modify (after_fetch (propEvents c) o))
           /\ fetchInProgress (advance (fetchEvents forceRefresh) c).1.2 = true
           /\ sent (advance (fetchEvents forceRefresh) c).1.2 = sent c ++ [r])).
Proof.
  intros H. unfold ServerEventsCarousel.fetchEvents.
  cbn [bind advance read]. rewrite H.
  assert (Hfetch : forall c1 : Carousel,
    propEvents c1 = propEvents c -> sent c1 = sent c ->
    let t := (let! _ := modify (set_fetchInProgress true) in
              let! props := read propEvents in
              let! tk := read ls_session_token in
              match tk with
              | Some t =>
                  if truthy_str (Some t) then
                    let! r := Sync (fun c => let r := events_request c t in
                                             (r, send r c)) Done in
                    Fetch r (fun o => modify (after_fetch props o))
                  else
                    modify (fun c => finally (set_fetchInProgress false
                               (setIsLoading false
                                  (use_props JSON_stringify props c))))
              | None =>
                  modify (fun c => finally (set_fetchInProgress false
                             (setIsLoading false
                                (use_props JSON_stringify props c))))
              end) in
    (advance t c1).2 = []
    /\ (((advance t c1).1.1 = Finished tt
         /\ fetchInProgress (advance t c1).1.2 = false
         /\ sent (advance t c1).1.2 = sent c)
        \/ (exists r,
             (advance t c1).1.1
               = Waiting r (fun o => modify (after_fetch (propEvents c) o))
             /\ fetchInProgress (advance t c1).1.2 = true
             /\ sent (advance t c1).1.2 = sent c ++ [r]))).
  { intros c1 Hp Hs t. subst t. cbn [bind advance read modify fst snd].
    change (propEvents (set_fetchInProgress true c1)) with (propEvents c1).
    change (ls_session_token (set_fetchInProgress true c1))
      with (ls_session_token c1).
    rewrite Hp.
    assert (Hnone :
      sent (finally (set_fetchInProgress false (setIsLoading false
             (use_props JSON_stringify (propEvents c)
                (set_fetchInProgress true c1))))) = sent c).
    { unfold use_props. rewrite <- Hs.
      by destruct (truthy (propEvents c) && has_items (Some (propEvents c))). }
    destruct (ls_session_token c1) as [t|]; [destruct (truthy_str (Some t))|].
    - cbn [bind advance fst snd]. split; [done|]. right.
      eexists. split; [reflexivity|]. split; [reflexivity|]. cbn. by rewrite Hs.
    - cbn [bind advance fst snd]. split; [done|]. left. done.
    - cbn [bind advance fst snd]. split; [done|]. left. done. }
  destruct forceRefresh.
  - cbn [bind advance]. by apply Hfetch.
  - cbn [bind advance].
    destruct (getCachedEvents_frame c) as (Hf & Hs & Hp & _).
    destruct (getCachedEvents JSON_parse c) as [cached c1].
    cbn [fst snd] in Hf, Hs, Hp. cbn [bind advance].
    destruct (has_items cached) eqn:Hitems.
    + destruct cached as [v|]; [|discriminate].
      cbn [bind advance modify fst snd]. split; [done|]. left.
      split; [done|]. split; [|done]. cbn. by rewrite Hf.
    + by apply Hfetch.
Qed.

Lemma step_keeps_guard m a : Inv m -> Inv (step m a).
Proof.
  destruct m as [c waiting]. unfold one_fetch_at_most. cbn [fst snd].
  intros [[Hidle ->]|[Hbusy (r & props & ->)]].
  - destruct a as [forceRefresh|i o]; [|by left].
    unfold ServerEventsCarousel.step.
    destruct (advance_fetchEvents_idle forceRefresh c Hidle)
      as [_ [(Hs & Hf & _)|(q & Hs & Hf & _)]];
      destruct (advance (fetchEvents forceRefresh) c) as [[s c'] p];
      cbn [fst snd] in *; subst s.
    + by left.
    + right. split; [done|]. by exists q, (propEvents c).
  - destruct a as [forceRefresh|i o].
    + unfold ServerEventsCarousel.step.
      rewrite advance_fetchEvents_busy by done. right.
      split; [done|]. by exists r, props.
    + destruct i as [|i]; [|right; split; [done|by exists r, props]].
      left. done.
Qed.

Lemma steps_keep_guard m (l : list Action) : Inv m -> Inv (steps m l).
Proof.
  revert m. induction l as [|a l IH]; intros m Hm; [done|].
  apply IH. by apply step_keeps_guard.
Qed.
End CarouselGuard.

(** C5, as the code has it. The carousel lets one fetch at a time through:
    whatever calls and settlements follow its mounting, at most one call of
    [fetchEvents] waits for the network, and a call made meanwhile returns
    at once, sends nothing and changes nothing (it does not wait for the
    outstanding call either).  The API service has no such guard: every
    call of [_backgroundRefresh] sends its primary and its secondary
    request, whatever else is in flight. *)
Theorem refreshes_in_flight :
  (forall (JSON_parse : string -> Result value) (JSON_stringify : value -> string)
          (c0 : ServerEventsCarousel.Carousel)
          (actions : list ServerEventsCarousel.Action),
      ServerEventsCarousel.fetchInProgress c0 = false ->
      let m := ServerEventsCarousel.steps JSON_parse JSON_stringify (c0, []) actions in
      (length m.2 <= 1)%nat
      /\ (m.2 <> [] ->
          forall forceRefresh,
            ServerEventsCarousel.step JSON_parse JSON_stringify m
              (ServerEventsCarousel.Call forceRefresh) = m))
  /\ (forall (CS : cacheService.t) (w : World) (tk : string),
      resolved "/dashboard/data" w = Some tk ->
      in_flight (advance _backgroundRefresh w).1.1
        = [primary_request w tk; secondary_request w tk]
      /\ sent (advance _backgroundRefresh w).1.2
        = sent w ++ [primary_request w tk; secondary_request w tk]).
Proof.
  split.
  - intros JSON_parse JSON_stringify c0 actions Hidle m.
    assert (Hm : one_fetch_at_most JSON_parse JSON_stringify m).
    { apply steps_keep_guard. by left. }
    destruct m as [c waiting].
    destruct Hm as [[Hf Hw]|[Hf (r & props & Hw)]]; cbn [fst snd] in *; subst waiting.
    + split; [cbn; lia|]. done.
    + split; [cbn; lia|]. intros _ forceRefresh.
      unfold ServerEventsCarousel.step.
      by rewrite advance_fetchEvents_busy.
  - intros CS w tk Hr.
    destruct (advance_backgroundRefresh w tk Hr) as (H1 & H2 & _). by split.
Qed.

Lemma refreshes_in_flight_witness :
  (let m := ServerEventsCarousel.steps CarouselScenario.parse CarouselScenario.stringify
              (CarouselScenario.mounted, [])
              [ServerEventsCarousel.Call false; ServerEventsCarousel.Call true;
               ServerEventsCarousel.Call true] in
   length m.2 <= 1)%nat
  /\ (let w := Scenario.browser (Some "t") None 1000 in
      in_flight (advance _backgroundRefresh w).1.1
        = [primary_request w "t"; secondary_request w "t"]).
Proof.
  split.
  - apply (proj1 refreshes_in_flight CarouselScenario.parse CarouselScenario.stringify
             CarouselScenario.mounted). reflexivity.
  - apply (proj2 refreshes_in_flight Scenario.service
             (Scenario.browser (Some "t") None 1000) "t"). reflexivity.
Defined.

(** The cached data is stale and two callers ask for it in the same tick;
    then two database changes reach the realtime listeners.  Each of the
    four starts a refresh of its own: four primary requests are in
    flight. *)
Lemma backgroundRefresh_not_coalesced :
  let w := Scenario.browser (Some "t") (Scenario.entry 500 0) 400000 in
  let first := run Scenario.offline (getDashboardData true) w in
  let second := run Scenario.offline (getDashboardData true) first.1.2 in
  let third := advance (on_postgres_change "Investment updated:") second.1.2 in
  let fourth := advance (on_postgres_change "Transaction inserted:") third.1.2 in
  first.1.1 = Ok (spread (Scenario.payload 500))
  /\ second.1.1 = Ok (spread (Scenario.payload 500))
  /\ map in_flight (first.2 ++ second.2 ++ third.2 ++ fourth.2) =
       [[primary_request w "t"; secondary_request w "t"];
        [primary_request w "t"; secondary_request w "t"];
        [primary_request w "t"; secondary_request w "t"];
        [primary_request w "t"; secondary_request w "t"]]
  /\ length (filter (fun r => req_url r = Scenario.base +:+ "/dashboard/data")
               (sent fourth.1.2)) = 4%nat.
Proof. repeat split; reflexivity. Qed.


(** * Further properties *)

(** ** The request and the outcome of [fetchWithAuth] *)

Section FetchWithAuth.
Context `{CS : cacheService.t}.
Implicit Types (w : World) (url : string) (options : Options).
Variable server : Request -> FetchOutcome.

Lemma run_fetchWithAuth_resolved url options w tk :
  resolved url w = Some tk ->
  run server (fetchWithAuth url options) w =
    (settle (server (build_request (API_BASE_URL w) url options tk))
       (send (build_request (API_BASE_URL w) url options tk)
          (with_token (Some tk) w)), []).
Proof. intros Hr. by rewrite run_fetchWithAuth, prepare_eq, Hr. Qed.

Lemma settle_console o w : console (settle o w).2 = console w.
Proof. rewrite announce_eq. unfold announce. by destruct (announces o). Qed.

(** X1. The request [fetchWithAuth] sends goes to the base URL followed by
    the path, with the caller's method (GET by default) and body; its
    [Authorization] header is the bearer token whatever the caller put
    there, its [Content-Type] is the caller's when there is one and JSON
    otherwise, and every other header is the caller's. *)
Theorem fetchWithAuth_request url options w (tk : string) :
  resolved url w = Some tk ->
  let r := build_request (API_BASE_URL w) url options tk in
  sent (run server (fetchWithAuth url options) w).1.2 = sent w ++ [r]
  /\ req_url r = API_BASE_URL w +:+ url
  /\ req_method r = default "GET" (opt_method options)
  /\ req_body r = opt_body options
  /\ req_headers r !! "Authorization" = Some ("Bearer " +:+ tk)
  /\ req_headers r !! "Content-Type"
       = Some (default "application/json" (opt_headers options !! "Content-Type"))
  /\ (forall h, h <> "Authorization" -> h <> "Content-Type" ->
        req_headers r !! h = opt_headers options !! h).
Proof.
  intros Hr r. rewrite (run_fetchWithAuth_resolved _ _ _ _ Hr). cbn [fst snd].
  fold r. rewrite settle_sent. split; [done|].
  split; [done|]. split; [done|]. split; [done|].
  subst r. unfold build_request. cbn [req_headers].
  split; [apply lookup_insert_eq|]. split.
  - rewrite lookup_insert_ne by done. rewrite lookup_union.
    rewrite lookup_singleton_eq.
    by destruct (opt_headers options !! "Content-Type").
  - intros h H1 H2. rewrite lookup_insert_ne by done.
    rewrite lookup_union, lookup_singleton_ne by done.
    by destruct (opt_headers options !! h).
Qed.

(** X2. [fetchWithAuth] dispatches [network:error], once, exactly when
    [fetch] itself was rejected with a [TypeError] whose message mentions
    "fetch"; the caller then gets the fixed network message in place of
    the error.  Any other rejection reaches the caller as it is, and a
    response, whatever its status, dispatches nothing. *)
Theorem fetchWithAuth_network_error url options w (tk : string) :
  resolved url w = Some tk ->
  let o := server (build_request (API_BASE_URL w) url options tk) in
  let out := run server (fetchWithAuth url options) w in
  (dispatched out.1.2 = dispatched w ++ [network_error_event]
   \/ dispatched out.1.2 = dispatched w)
  /\ (dispatched out.1.2 = dispatched w ++ [network_error_event] <->
      exists e, o = Rejected e /\ err_name e = "TypeError"
                /\ js_includes (err_message e) "fetch" = true)
  /\ (forall e, o = Rejected e ->
      out.1.1 = if is_network_error e then Thrown network_failed else Thrown e).
Proof.
  intros Hr o out. subst out.
  rewrite (run_fetchWithAuth_resolved _ _ _ _ Hr). cbn [fst snd]. fold o.
  rewrite announce_eq. unfold announce, announces.
  assert (Hne : forall l : list Event, l ++ [network_error_event] <> l).
  { intros l H. apply (f_equal length) in H. rewrite length_app in H. cbn in H. lia. }
  destruct o as [e|status json] eqn:Ho.
  - unfold is_network_error. destruct (String.eqb_spec (err_name e) "TypeError") as [Hn|Hn];
      [destruct (js_includes (err_message e) "fetch") eqn:Hi|]; cbn.
    + split; [by left|]. split.
      * split; [|done]. intros _. by exists e.
      * intros e' [= <-]. unfold settle, rethrow, is_network_error.
        by rewrite Hn, Hi.
    + split; [by right|]. split.
      * split; [intros H; symmetry in H; by apply Hne in H|].
        intros (e' & [= <-] & _ & H). congruence.
      * intros e' [= <-]. unfold settle, rethrow, is_network_error.
        by rewrite Hn, Hi.
    + split; [by right|]. split.
      * split; [intros H; symmetry in H; by apply Hne in H|].
        intros (e' & [= <-] & H & _). congruence.
      * intros e' [= <-]. unfold settle, rethrow, is_network_error.
        destruct (String.eqb_spec (err_name e) "TypeError"); [done|]. done.
  - split; [by right|]. split; [|discriminate].
    split; [intros H; symmetry in H; by apply Hne in H|]. intros (e & H & _). discriminate.
Qed.

(** X3. [fetchWithAuth] resolves only for a status from 200 to 299 and
    then with the parsed body, as it is; for any other status it rejects,
    with the [detail] of the body as the message when the body has a
    truthy one. *)
Theorem fetchWithAuth_resolves_on_ok url options w (tk : string) (v : value) :
  resolved url w = Some tk ->
  let o := server (build_request (API_BASE_URL w) url options tk) in
  ((run server (fetchWithAuth url options) w).1.1 = Ok v <->
   exists status, o = Response status (Ok v) /\ 200 <= status <= 299)
  /\ (forall status fields detail,
        o = Response status (Ok (VObj fields)) ->
        response_ok status = false ->
        obj_of_fields fields !! "detail" = Some detail ->
        truthy detail = true ->
        (run server (fetchWithAuth url options) w).1.1
          = Thrown (Error (js_string detail))).
Proof.
  intros Hr o. rewrite (run_fetchWithAuth_resolved _ _ _ _ Hr). cbn [fst snd].
  fold o. split.
  - destruct o as [e|status json] eqn:Ho; cbn.
    + unfold rethrow. split.
      * by destruct (is_network_error e).
      * intros (s & H & _). discriminate.
    + unfold response_ok. destruct (200 <=? status) eqn:H1;
        [destruct (status <=? 299) eqn:H2|]; cbn.
      * split; [intros ->; exists status; split; [done|lia]|].
        intros (s & [= <- <-] & _). done.
      * unfold rethrow. rewrite http_error_not_network. split; [done|].
        intros (s & [= <- <-] & Hs). lia.
      * unfold rethrow. rewrite http_error_not_network. split; [done|].
        intros (s & [= <- <-] & Hs). lia.
  - intros status fields detail -> Hok Hd Ht. cbn [settle]. rewrite Hok.
    unfold rethrow. rewrite http_error_not_network. cbn [fst].
    unfold http_error. cbn [get_prop]. rewrite Hd. cbn [js_or]. by rewrite Ht.
Qed.
End FetchWithAuth.

Lemma fetchWithAuth_request_witness :
  let w := Scenario.browser (Some "t") None 1000 in
  let options :=
    mkOptions (Some "POST") {[ "Authorization" := "Basic mine" ]} (Some "{}") in
  let r := build_request Scenario.base "/referral/redeem" options "t" in
  sent (run Scenario.offline (fetchWithAuth "/referral/redeem" options) w).1.2 = [r]
  /\ req_headers r !! "Authorization" = Some "Bearer t".
Proof.
  intros w options r.
  destruct (fetchWithAuth_request Scenario.offline "/referral/redeem" options w "t"
              eq_refl) as (H1 & _ & _ & _ & H2 & _).
  split; [exact H1|exact H2].
Defined.

Lemma fetchWithAuth_network_error_witness :
  let w := Scenario.browser (Some "t") None 1000 in
  (run Scenario.offline (fetchWithAuth "/dashboard/user" no_options) w).1.1
    = Thrown network_failed.
Proof.
  intros w.
  destruct (fetchWithAuth_network_error Scenario.offline "/dashboard/user"
              no_options w "t" eq_refl) as (_ & _ & H).
  exact (H _ eq_refl).
Defined.

Lemma fetchWithAuth_resolves_on_ok_witness :
  let w := Scenario.browser (Some "t") None 1000 in
  let server := Scenario.answers 422 [("detail", VStr "Amount too low")] in
  (run server (fetchWithAuth "/referral/redeem" post_options) w).1.1
    = Thrown (Error "Amount too low").
Proof.
  intros w server.
  destruct (fetchWithAuth_resolves_on_ok server "/referral/redeem" post_options
              w "t" VNull eq_refl) as [_ H].
  exact (H 422 [("detail", VStr "Amount too low")] (VStr "Amount too low")
           eq_refl eq_refl eq_refl eq_refl).
Defined.

(** ** [getDashboardData] answering from the cache *)

Section CachedAnswer.
Context `{CS : cacheService.t}.
Implicit Types (w : World).
Variable server : Request -> FetchOutcome.

Lemma advance_backgroundRefreshEvents w :
  advance _backgroundRefreshEvents w =
    match resolved "/admin/server-events?include_inactive=false" w with
    | Some tk =>
        ((advance _backgroundRefreshEvents w).1.1,
         send (events_request w tk) (with_token (Some tk) w), [])
    | None =>
        (Finished tt,
         console_log (mkLog "error" "Failed to fetch server events:") w, [])
    end
  /\ (forall tk, resolved "/admin/server-events?include_inactive=false" w = Some tk ->
      in_flight (advance _backgroundRefreshEvents w).1.1 = [events_request w tk]).
Proof.
  unfold _backgroundRefreshEvents, _fetchServerEvents, fetchWithAuth.
  cbn [bind advance]. rewrite prepare_eq.
  destruct (resolved _ w) as [tk|]; cbn [bind advance fst snd].
  - split; [done|]. by intros tk' [= <-].
  - split; [|done]. reflexivity.
Qed.

Lemma advance_backgroundRefresh_none w :
  resolved "/dashboard/data" w = None ->
  advance _backgroundRefresh w =
    (Finished tt, console_log (mkLog "error" "Background refresh failed:") w, []).
Proof.
  intros Hr. unfold _backgroundRefresh, fetchWithAuth2. cbn [bind advance].
  rewrite prepare_eq, Hr. rewrite prepare_eq, resolved_secondary, Hr. reflexivity.
Qed.

Lemma advance_backgroundRefresh_state w tk :
  resolved "/dashboard/data" w = Some tk ->
  (advance _backgroundRefresh w).1.2 =
    send (secondary_request w tk) (send (primary_request w tk) (with_token (Some tk) w)).
Proof.
  intros Hr. pose proof (resolved_truthy _ _ _ Hr) as Htk.
  unfold _backgroundRefresh, fetchWithAuth2. cbn [bind advance].
  rewrite prepare_eq, Hr. rewrite prepare_eq, (resolved_after _ _ _ _ Htk).
  reflexivity.
Qed.

Lemma resolved_held url w tk :
  token w = Some tk -> truthy_str (Some tk) = true -> resolved url w = Some tk.
Proof. intros Ht Htr. unfold resolved. by rewrite Ht, Htr. Qed.

(** X4. With valid cached data [getDashboardData] answers with it at once:
    the cache and the dispatched events are untouched and nothing is
    awaited.  When the data does not carry the update flag and the cache
    service asks for no refresh, nothing at all happens; otherwise at most
    one events refresh and one data refresh are left in flight behind the
    answer, and with a token held these are exactly the requests sent. *)
Theorem getDashboardData_cached_answer useCache w (cachedData : obj) :
  cache_hit useCache w = Some cachedData ->
  let out := run server (getDashboardData useCache) w in
  let trigger :=
    cacheService.shouldTriggerBackgroundRefresh (clock w) (cache w) in
  out.1.1 = Ok cachedData
  /\ cache out.1.2 = cache w
  /\ dispatched out.1.2 = dispatched w
  /\ (update_flag_set cachedData = false -> trigger = false ->
      out.1.2 = w /\ out.2 = [])
  /\ (forall tk, token w = Some tk -> truthy_str (Some tk) = true ->
      map in_flight out.2 =
        (if update_flag_set cachedData then [[events_request w tk]] else [])
        ++ (if trigger
            then [[primary_request w tk; secondary_request w tk]] else [])
      /\ sent out.1.2 = sent w ++ concat (map in_flight out.2)).
Proof.
  intros Hhit out trigger. subst out trigger.
  rewrite (run_getDashboardData_hit server _ _ _ Hhit). cbv zeta.
  set (a := if update_flag_set cachedData
            then advance _backgroundRefreshEvents w else (Finished tt, w, [])).
  assert (Ha : cache a.1.2 = cache w /\ clock a.1.2 = clock w
               /\ dispatched a.1.2 = dispatched w).
  { subst a. destruct (update_flag_set cachedData); [|done].
    destruct (advance_backgroundRefreshEvents w) as [-> _].
    by destruct (resolved _ w). }
  assert (Ha0 : update_flag_set cachedData = false -> a = (Finished tt, w, [])).
  { intros H. subst a. by rewrite H. }
  assert (Ha' : forall tk, token w = Some tk -> truthy_str (Some tk) = true ->
            a.1.2 = (if update_flag_set cachedData
                     then send (events_request w tk) w else w)
            /\ map in_flight (a.2 ++ park a.1.1) =
                 (if update_flag_set cachedData
                  then [[events_request w tk]] else [])).
  { intros tk Htk Htr.
    assert (Hsame : with_token (Some tk) w = w)
      by (by rewrite <- Htk, with_token_same).
    subst a. destruct (update_flag_set cachedData); [|done].
    destruct (advance_backgroundRefreshEvents w) as [Heq Hin].
    specialize (Hin tk (resolved_held _ _ _ Htk Htr)).
    rewrite (resolved_held _ _ _ Htk Htr) in Heq. rewrite Heq. cbn [fst snd].
    rewrite Hsame. split; [done|].
    destruct (advance _backgroundRefreshEvents w).1.1; cbn in Hin |- *;
      [discriminate|by rewrite Hin..]. }
  clearbody a. destruct a as [[sa wa] pa]. cbn [fst snd] in *.
  destruct Ha as (Hac & Hak & Had). rewrite Hac, Hak.
  set (trigger := cacheService.shouldTriggerBackgroundRefresh (clock w) (cache w)).
  set (b := if trigger then advance _backgroundRefresh wa
            else (Finished tt, wa, [])).
  assert (Hb : cache b.1.2 = cache w /\ dispatched b.1.2 = dispatched w).
  { subst b. destruct trigger; [|done].
    destruct (resolved "/dashboard/data" wa) as [tk|] eqn:Hr.
    - rewrite (advance_backgroundRefresh_state _ _ Hr). cbn. by rewrite Hac, Had.
    - rewrite (advance_backgroundRefresh_none _ Hr). cbn. by rewrite Hac, Had. }
  assert (Hb0 : trigger = false -> b = (Finished tt, wa, [])).
  { intros H. subst b. by rewrite H. }
  assert (Hb' : forall tk, token w = Some tk -> truthy_str (Some tk) = true ->
            sent b.1.2 = sent wa ++
              (if trigger
               then [primary_request w tk; secondary_request w tk] else [])
            /\ map in_flight (b.2 ++ park b.1.1) =
                 (if trigger
                  then [[primary_request w tk; secondary_request w tk]]
                  else [])).
  { intros tk Htk Htr. destruct (Ha' tk Htk Htr) as [Has _].
    assert (Hra : resolved "/dashboard/data" wa = Some tk).
    { apply resolved_held; [|done]. rewrite Has.
      by destruct (update_flag_set cachedData). }
    assert (Hbase : API_BASE_URL wa = API_BASE_URL w).
    { rewrite Has. by destruct (update_flag_set cachedData). }
    subst b. destruct trigger; [|by rewrite app_nil_r].
    destruct (advance_backgroundRefresh _ _ Hra) as (Hin & Hs & Hp).
    rewrite Hs, Hp. unfold primary_request, secondary_request in *.
    rewrite Hbase in *. split; [done|].
    destruct (advance _backgroundRefresh wa).1.1; cbn in Hin |- *;
      [discriminate|by rewrite Hin..]. }
  clearbody b. destruct b as [[sb wb] pb]. cbn [fst snd] in *.
  destruct Hb as [Hbc Hbd].
  split; [done|]. split; [done|]. split; [done|]. split.
  - intros Hflag Htrig.
    specialize (Ha0 Hflag). specialize (Hb0 Htrig).
    injection Ha0 as -> -> ->. injection Hb0 as -> -> ->. done.
  - intros tk Htk Htr.
    destruct (Ha' tk Htk Htr) as [Has Hain].
    destruct (Hb' tk Htk Htr) as [Hbs Hbin].
    rewrite map_app, Hain, Hbin. split; [done|]. rewrite Hbs, Has.
    destruct (update_flag_set cachedData), trigger; cbn;
      by rewrite <- ?app_assoc, ?app_nil_r.
Qed.
End CachedAnswer.

Lemma getDashboardData_cached_answer_witness :
  let w := Scenario.browser (Some "t") (Scenario.entry 500 0) 1000 in
  let out := run Scenario.offline (getDashboardData true) w in
  out.1.1 = Ok (spread (Scenario.payload 500)) /\ out.1.2 = w /\ out.2 = [].
Proof.
  intros w out.
  destruct (getDashboardData_cached_answer Scenario.offline true w
              (spread (Scenario.payload 500)) eq_refl) as (H1 & _ & _ & H2 & _).
  split; [exact H1|]. apply H2; reflexivity.
Defined.

(** ** What a refresh returns and what it writes *)

Section RefreshResults.
Context `{CS : cacheService.t}.
Implicit Types (w : World).
Variable server : Request -> FetchOutcome.

Lemma refresh_events_idle (combinedData : obj) w :
  truthy_prop (combinedData !! "success") = false ->
  run server (refresh_events combinedData) w = (combinedData, w, []).
Proof. intros H. unfold refresh_events. by rewrite H. Qed.

(** X5. Of a payload of the primary endpoint without a truthy [success]
    the caller gets the copy of its own properties that the merge makes
    (the empty object for [null] or a number, an object keyed by index for
    an array), the secondary answer left out.  It goes no further: the
    cache is not written and nothing is dispatched but what the secondary
    request dispatches itself. *)
Theorem getDashboardData_unsuccessful_payload useCache w (dashboardData : value) :
  cache_hit useCache w = None ->
  fetch_result server "/dashboard/data" w = Ok dashboardData ->
  truthy_prop (spread dashboardData !! "success") = false ->
  let out := run server (getDashboardData useCache) w in
  out.1.1 = Ok (spread dashboardData)
  /\ cache out.1.2 = cache w
  /\ dispatched out.1.2 =
       dispatched w ++ fetch_events server "/portfolio/due-dates-data" w
  /\ sent out.1.2 = sent (after_requests server w).
Proof.
  intros Hmiss Hp Hs out. subst out.
  rewrite run_getDashboardData_miss by done. rewrite Hp. cbn zeta.
  assert (Hc : forall v, combine dashboardData v = spread dashboardData).
  { intros v. unfold combine. by rewrite Hs. }
  rewrite Hc, Hs, refresh_events_idle by done. cbn [fst snd].
  rewrite after_requests_cache, after_requests_dispatched.
  by rewrite (fetch_events_ok _ _ _ _ Hp).
Qed.

(** X6. When both endpoints answer and the primary payload has a truthy
    [success], the answer of the secondary endpoint becomes the [due_dates]
    of the result, over whatever the primary payload had there, provided it
    is truthy; a falsy answer ([null], [false], [0], the empty string) is
    dropped like a failure.  Every other field is the primary payload's. *)
Theorem getDashboardData_merges_due_dates
    useCache w (dashboardData dueDatesData : value) :
  cache_hit useCache w = None ->
  fetch_result server "/dashboard/data" w = Ok dashboardData ->
  fetch_result server "/portfolio/due-dates-data" w = Ok dueDatesData ->
  truthy_prop (spread dashboardData !! "success") = true ->
  exists combinedData : obj,
    (run server (getDashboardData useCache) w).1.1 = Ok combinedData
    /\ combinedData !! "due_dates" =
         (if truthy dueDatesData then Some dueDatesData
          else spread dashboardData !! "due_dates")
    /\ (forall key, key <> "due_dates" ->
          combinedData !! key = spread dashboardData !! key).
Proof.
  intros Hmiss Hp Hd Hs. exists (combine dashboardData dueDatesData).
  rewrite run_getDashboardData_miss by done. rewrite Hp, Hd. cbn [catch_null fst snd].
  split; [done|]. unfold combine. rewrite Hs. cbn [andb].
  destruct (truthy dueDatesData).
  - split; [apply lookup_insert_eq|]. intros key Hk. by rewrite lookup_insert_ne.
  - done.
Qed.

(** X7. A background refresh whose primary request fails fails silently:
    it leaves one line on the console, and the cache and the count of
    [dashboard:refreshed] are as before.  A payload without a truthy
    [success] is dropped without even that line. *)
Theorem backgroundRefresh_failure_swallowed w :
  let out := run server _backgroundRefresh w in
  (forall e, fetch_result server "/dashboard/data" w = Thrown e ->
     cache out.1.2 = cache w
     /\ refreshed_count (dispatched out.1.2) = refreshed_count (dispatched w)
     /\ console out.1.2 =
          console w ++ [mkLog "error" "Background refresh failed:"])
  /\ (forall dashboardData,
     fetch_result server "/dashboard/data" w = Ok dashboardData ->
     truthy_prop (spread dashboardData !! "success") = false ->
     cache out.1.2 = cache w
     /\ refreshed_count (dispatched out.1.2) = refreshed_count (dispatched w)
     /\ console out.1.2 = console w).
Proof.
  intros out. subst out. rewrite run_backgroundRefresh. cbn [fst snd].
  assert (Hn : forall l n,
    refreshed_count (l ++ replicate n (mkEvent "network:error" None))
      = refreshed_count l).
  { intros l n. unfold refreshed_count. rewrite filter_app, length_app.
    assert (filter (fun ev => ev_type ev = "dashboard:refreshed")
              (replicate n (mkEvent "network:error" None)) = []) as ->.
    { induction n as [|n IH]; [done|]. simpl replicate.
      rewrite filter_cons_False; [exact IH|]. cbn. discriminate. }
    cbn. lia. }
  assert (Hcount : refreshed_count (dispatched (after_requests server w))
                   = refreshed_count (dispatched w)).
  { rewrite after_requests_dispatched, !fetch_events_eq, resolved_secondary.
    destruct (resolved _ w); [|by rewrite !app_nil_r].
    repeat destruct (announces _); cbn [app]; rewrite ?app_nil_r;
      [apply (Hn _ 2%nat)|apply (Hn _ 1%nat)|apply (Hn _ 1%nat)|done]. }
  split.
  - intros e ->. cbn. by rewrite after_requests_cache, after_requests_console.
  - intros d -> Hs.
    assert (Hc : forall v, combine d v = spread d).
    { intros v. unfold combine. by rewrite Hs. }
    rewrite Hc, Hs. by rewrite after_requests_cache, after_requests_console.
Qed.

(** X8. A background refresh that brings a successful payload to an empty
    cache, or one the cache service reports changed against the cached
    data, saves it and dispatches [dashboard:refreshed] exactly once. *)
Theorem backgroundRefresh_writes_changed w (dashboardData : value) :
  fetch_result server "/dashboard/data" w = Ok dashboardData ->
  let combinedData :=
    combine dashboardData
      (catch_null (fetch_result server "/portfolio/due-dates-data" w)) in
  truthy_prop (combinedData !! "success") = true ->
  match cacheService.getDashboardData (clock w) (cache w) with
  | Some oldData => cacheService.hasDataChanged combinedData oldData = true
  | None => True
  end ->
  let out := run server _backgroundRefresh w in
  cache out.1.2 = cacheService.saveDashboardData (clock w) combinedData (cache w)
  /\ refreshed_count (dispatched out.1.2)
       = Datatypes.S (refreshed_count (dispatched w))
  /\ exists earlier,
       dispatched out.1.2 = earlier ++ [dashboard_refreshed (clock w)].
Proof.
  intros Hp combinedData Hs Hchanged out. subst out.
  rewrite run_backgroundRefresh, Hp. cbn [fst snd]. fold combinedData.
  rewrite Hs. unfold write_if_changed.
  rewrite after_requests_cache, after_requests_clock.
  assert (Hq : quiet w (after_requests server w)).
  { split; [apply after_requests_cache|]. split; [apply after_requests_clock|].
    rewrite after_requests_dispatched, (fetch_events_ok _ _ _ _ Hp), fetch_events_eq.
    destruct (resolved _ w); [destruct (announces _)|..].
    - by exists 1%nat.
    - by exists 0%nat.
    - by exists 0%nat. }
  assert (Hsave :
    cache (save_and_announce combinedData (after_requests server w))
      = cacheService.saveDashboardData (clock w) combinedData (cache w)
    /\ refreshed_count
         (dispatched (save_and_announce combinedData (after_requests server w)))
       = Datatypes.S (refreshed_count (dispatched w))
    /\ exists earlier,
         dispatched (save_and_announce combinedData (after_requests server w))
           = earlier ++ [dashboard_refreshed (clock w)]).
  { rewrite save_and_announce_cache, save_and_announce_count.
    rewrite after_requests_cache, after_requests_clock.
    rewrite (quiet_refreshed_count _ _ Hq). split; [done|]. split; [done|].
    eexists. unfold save_and_announce, dispatchEvent. cbn [dispatched with_cache].
    by rewrite after_requests_clock. }
  destruct (cacheService.getDashboardData (clock w) (cache w)) as [old|];
    [|exact Hsave].
  by rewrite Hchanged.
Qed.

(** X9. [_fetchServerEvents] never rejects.  It resolves with an object
    of exactly two fields, [events] and [count]: [events] is always
    truthy, the empty list when the response had none; [count] is truthy
    or [0].  Whenever the request itself fails, the object is the empty
    one. *)
Theorem fetchServerEvents_shape w :
  let r := (run server _fetchServerEvents w).1.1 in
  (exists events count : value,
      r = {[ "events" := events; "count" := count ]}
      /\ truthy events = true
      /\ (truthy count = true \/ count = VNum 0))
  /\ (forall e,
      fetch_result server "/admin/server-events?include_inactive=false" w
        = Thrown e ->
      r = empty_events).
Proof.
  intros r. subst r. unfold _fetchServerEvents, fetch_result. rewrite run_bind.
  destruct (run server (fetchWithAuth _ _) w) as [[r w1] p1]. cbn [fst snd].
  assert (Hor : forall p d, truthy d = true -> truthy (js_or p d) = true).
  { intros [v|] d Hd; cbn; [|done]. by destruct (truthy v) eqn:Hv. }
  assert (Hor0 : forall p, truthy (js_or p (VNum 0)) = true
                           \/ js_or p (VNum 0) = VNum 0).
  { intros [v|]; cbn; [|by right]. destruct (truthy v) eqn:Hv; [by left|by right]. }
  assert (Hempty : exists events count : value,
            empty_events = {[ "events" := events; "count" := count ]}
            /\ truthy events = true
            /\ (truthy count = true \/ count = VNum 0)).
  { exists (VArr []), (VNum 0). split; [done|]. split; [done|by right]. }
  destruct r as [response|e].
  - split; [|discriminate].
    destruct (get_prop response "success") as [success|e]; [|exact Hempty].
    destruct (truthy_prop success); [|exact Hempty].
    cbn [run fst snd]. eexists _, _. split; [reflexivity|].
    split; [by apply Hor|apply Hor0].
  - split; [exact Hempty|]. done.
Qed.
End RefreshResults.

Lemma getDashboardData_unsuccessful_payload_witness :
  let w := Scenario.browser (Some "t") (Scenario.entry 500 0) 10000000 in
  let refused := VObj [("success", VBool false); ("error", VStr "maintenance")] in
  let out := run (Scenario.primary_only refused) (getDashboardData true) w in
  out.1.1 = Ok (spread refused) /\ cache out.1.2 = Scenario.entry 500 0.
Proof.
  intros w refused out.
  destruct (getDashboardData_unsuccessful_payload (Scenario.primary_only refused)
              true w refused eq_refl eq_refl eq_refl) as (H1 & H2 & _).
  split; [exact H1|exact H2].
Defined.

Lemma getDashboardData_merges_due_dates_witness :
  let w := Scenario.browser (Some "t") None 1000 in
  let body := VObj [("success", VBool true); ("due_dates", VNum 1)] in
  exists combinedData : obj,
    (run (Scenario.answers 200 [("success", VBool true); ("due_dates", VNum 1)])
       (getDashboardData true) w).1.1 = Ok combinedData
    /\ combinedData !! "due_dates" = Some body.
Proof.
  intros w body.
  destruct (getDashboardData_merges_due_dates
              (Scenario.answers 200 [("success", VBool true); ("due_dates", VNum 1)])
              true w body body eq_refl eq_refl eq_refl eq_refl)
    as (combinedData & H1 & H2 & _).
  exists combinedData. split; [exact H1|exact H2].
Defined.

Lemma backgroundRefresh_failure_swallowed_witness :
  let w := Scenario.browser (Some "t") (Scenario.entry 500 0) 400000 in
  cache (run Scenario.offline _backgroundRefresh w).1.2 = Scenario.entry 500 0.
Proof.
  intros w.
  destruct (proj1 (backgroundRefresh_failure_swallowed Scenario.offline w)
              network_failed eq_refl) as [H _].
  exact H.
Defined.

Lemma backgroundRefresh_writes_changed_witness :
  let w := Scenario.browser (Some "t") (Scenario.entry 500 0) 400000 in
  let server := Scenario.primary_only (Scenario.payload 700) in
  cache (run server _backgroundRefresh w).1.2 = Scenario.entry 700 400000.
Proof.
  intros w server.
  destruct (backgroundRefresh_writes_changed server w (Scenario.payload 700)
              eq_refl eq_refl eq_refl) as [H _].
  rewrite H. reflexivity.
Defined.

Lemma fetchServerEvents_shape_witness :
  let w := Scenario.browser None None 1000 in
  (run Scenario.offline _fetchServerEvents w).1.1 = empty_events.
Proof.
  intros w.
  exact (proj2 (fetchServerEvents_shape Scenario.offline w) no_token_error eq_refl).
Defined.

(** ** The admin methods and the export methods *)

Section Methods.
Context `{CS : cacheService.t}.
Implicit Types (w : World) (url : string) (options : Options).
Variable JSON_stringify : value -> string.
Variable server : Request -> FetchOutcome.

Lemma fetchWithAuth_goes_out url options w tk :
  resolved url w = Some tk ->
  goes_out_with server (fetchWithAuth url options) w tk.
Proof.
  intros Hr. unfold goes_out_with.
  rewrite (run_fetchWithAuth_resolved _ _ _ _ _ Hr). cbn [fst snd].
  rewrite settle_token, settle_sent. split; [done|].
  eexists. split; [reflexivity|]. unfold build_request. cbn [req_headers].
  apply lookup_insert_eq.
Qed.

Lemma run_logged text (t : Task World (Result value)) w :
  run server (ApiMethods.logged text t) w =
    (let out := run server t w in
     (out.1.1,
      match out.1.1 with
      | Ok _ => out.1.2
      | Thrown _ => console_log (mkLog "error" text) out.1.2
      end, out.2 ++ [])).
Proof.
  unfold ApiMethods.logged. rewrite run_bind.
  destruct (run server t w) as [[[v|e] w1] p1]; reflexivity.
Qed.

Lemma logged_goes_out text (t : Task World (Result value)) w tk :
  goes_out_with server t w tk ->
  goes_out_with server (ApiMethods.logged text t) w tk.
Proof.
  unfold goes_out_with. rewrite run_logged. cbn [fst snd].
  by destruct (run server t w).1.1.
Qed.

Lemma resolved_admin url w adm :
  js_includes url "/admin/" = true ->
  truthy_str (token w) = false ->
  ls_adminToken w = Some adm -> truthy_str (Some adm) = true ->
  resolved url w = Some adm.
Proof.
  intros Hurl Ht Ha Htr. unfold resolved, credential_precedence.
  by rewrite Ht, Hurl, Ha, Htr.
Qed.

(** X10. The five admin methods for the server events all go to an admin
    route, whatever the event id or the flag they are given: called while
    the service holds no token and an admin credential is stored, each
    sends its one request with the admin credential, session credential or
    not, and leaves the admin credential as the token of the service, with
    which a later request to any route, a user route too, goes out. *)
Theorem admin_methods_use_admin_credential
    w (adm : string) (eventId data' : value) :
  truthy_str (token w) = false ->
  ls_adminToken w = Some adm ->
  truthy_str (Some adm) = true ->
  goes_out_with server (ApiMethods.getServerEvents data') w adm
  /\ goes_out_with server (ApiMethods.createServerEvent JSON_stringify data') w adm
  /\ goes_out_with server
       (ApiMethods.updateServerEvent JSON_stringify eventId data') w adm
  /\ goes_out_with server (ApiMethods.deleteServerEvent eventId) w adm
  /\ goes_out_with server ApiMethods.clearServerEventsFlag w adm
  /\ (forall (t : Task World (Result value)) url options,
        goes_out_with server t w adm ->
        goes_out_with server (fetchWithAuth url options)
          (run server t w).1.2 adm).
Proof.
  intros Ht Ha Htr.
  assert (H : forall text url options,
    js_includes url "/admin/" = true ->
    goes_out_with server (ApiMethods.logged text (fetchWithAuth url options)) w adm).
  { intros text url options Hurl. apply logged_goes_out, fetchWithAuth_goes_out.
    by apply resolved_admin. }
  do 5 (split; [apply H; reflexivity|]).
  intros t url options [Htok _]. apply fetchWithAuth_goes_out.
  by apply resolved_held.
Qed.

Lemma run_export path w :
  run server (ApiMethods.export path) w =
    (server (ApiMethods.export_request (ApiMethods.ensure_token w) path),
     send (ApiMethods.export_request (ApiMethods.ensure_token w) path)
          (ApiMethods.ensure_token w), []).
Proof. reflexivity. Qed.

(** X11. The export methods never fail for want of a credential and never
    look at the response: each sends exactly one GET for a PDF and hands
    back what [fetch] settles with, be it an error status or a rejection,
    without an event or a console line.  With no token held and no
    credential stored the request goes out all the same, its
    [Authorization] header reading "Bearer null". *)
Theorem export_never_fails path w :
  let r := ApiMethods.export_request (ApiMethods.ensure_token w) path in
  let out := run server (ApiMethods.export path) w in
  out.1.1 = server r
  /\ sent out.1.2 = sent w ++ [r]
  /\ dispatched out.1.2 = dispatched w
  /\ console out.1.2 = console w
  /\ req_method r = "GET"
  /\ req_headers r !! "Accept" = Some "application/pdf"
  /\ (truthy_str (token w) = false ->
      truthy_str (ls_session_token w) = false ->
      ls_adminToken w = None ->
      req_headers r !! "Authorization" = Some "Bearer null").
Proof.
  intros r out. subst out. rewrite run_export. fold r. cbn [fst snd].
  assert (Hframe : sent (ApiMethods.ensure_token w) = sent w
                   /\ dispatched (ApiMethods.ensure_token w) = dispatched w
                   /\ console (ApiMethods.ensure_token w) = console w).
  { unfold ApiMethods.ensure_token. by destruct (truthy_str (token w)). }
  destruct Hframe as (Hs & Hd & Hc).
  split; [done|]. split; [cbn; by rewrite Hs|]. split; [exact Hd|].
  split; [exact Hc|]. split; [done|]. split.
  - subst r. unfold ApiMethods.export_request. cbn [req_headers].
    rewrite lookup_insert_ne by done. apply lookup_singleton_eq.
  - intros Ht Hse Ha. subst r. unfold ApiMethods.export_request. cbn [req_headers].
    rewrite lookup_insert_eq. unfold ApiMethods.ensure_token, ApiMethods.stored_token.
    by rewrite Ht, Hse, Ha.
Qed.

(** X12. The export methods take the session credential before the admin
    credential, whatever they export, and keep what they took: after an
    export made while no token was held and a session credential was
    stored, every request of [fetchWithAuth], to an admin route with an
    admin credential stored as well, goes out with the session
    credential. *)
Theorem export_pins_session_credential path w (session : string) url options :
  truthy_str (token w) = false ->
  ls_session_token w = Some session ->
  truthy_str (Some session) = true ->
  let w' := (run server (ApiMethods.export path) w).1.2 in
  token w' = Some session
  /\ (exists r, sent w' = sent w ++ [r]
                /\ req_headers r !! "Authorization" = Some ("Bearer " +:+ session))
  /\ goes_out_with server (fetchWithAuth url options) w' session.
Proof.
  intros Ht Hs Htr w'. subst w'. rewrite run_export. cbn [fst snd].
  assert (He : ApiMethods.ensure_token w = with_token (Some session) w).
  { unfold ApiMethods.ensure_token, ApiMethods.stored_token.
    by rewrite Ht, Hs, Htr. }
  rewrite He. split; [done|]. split.
  - eexists. split; [reflexivity|]. unfold ApiMethods.export_request.
    cbn [req_headers token with_token]. by rewrite lookup_insert_eq.
  - apply fetchWithAuth_goes_out. by apply resolved_held.
Qed.
End Methods.

Lemma admin_methods_use_admin_credential_witness :
  let w := with_storage (Some "adm") (Some "sess") (Scenario.browser None None 1000) in
  goes_out_with Scenario.offline (ApiMethods.deleteServerEvent (VNum 7)) w "adm".
Proof.
  intros w.
  destruct (admin_methods_use_admin_credential CarouselScenario.stringify
              Scenario.offline w "adm" (VNum 7) VNull eq_refl eq_refl eq_refl)
    as (_ & _ & _ & H & _).
  exact H.
Defined.

Lemma export_never_fails_witness :
  let w := Scenario.browser None None 1000 in
  let r := ApiMethods.export_request (ApiMethods.ensure_token w)
             "/dashboard/export/history" in
  sent (run (Scenario.answers 401 []) ApiMethods.exportTransactionHistory w).1.2 = [r]
  /\ req_headers r !! "Authorization" = Some "Bearer null".
Proof.
  intros w r.
  destruct (export_never_fails (Scenario.answers 401 [])
              "/dashboard/export/history" w) as (_ & H1 & _ & _ & _ & _ & H2).
  split; [exact H1|]. apply H2; reflexivity.
Defined.

Lemma export_pins_session_credential_witness :
  let w := with_storage (Some "adm") (Some "sess") (Scenario.browser None None 1000) in
  let w' := (run Scenario.offline ApiMethods.exportTransactionHistory w).1.2 in
  goes_out_with Scenario.offline
    (fetchWithAuth "/admin/server-events" no_options) w' "sess".
Proof.
  intros w w'.
  destruct (export_pins_session_credential Scenario.offline
              "/dashboard/export/history" w "sess" "/admin/server-events"
              no_options eq_refl eq_refl eq_refl) as (_ & _ & H).
  exact H.
Defined.

(** ** Tasks of the API service inside a larger state *)

Section ZoomLemmas.
Context {S T : Type} (get : T -> S) (put : S -> T -> T).
Hypothesis get_put : forall w s, get (put w s) = w.
Hypothesis put_put : forall w1 w2 s, put w2 (put w1 s) = put w2 s.
Hypothesis put_get : forall s, put (get s) s = s.

Lemma advance_zoom_state {A : Type} (t : Task S A) (s : T) :
  (advance (zoom get put t) s).1.2 = put (advance t (get s)).1.2 s.
Proof.
  revert s.
  induction t as [A a|A X g k IH|A r k IH|A r1 r2 k IH|A c IHc k IH];
    intros s; cbn [zoom advance fst snd]; try (by rewrite put_get).
  - destruct (g (get s)) as [x w'] eqn:Hg. rewrite IH, get_put, put_put. done.
  - specialize (IHc s). specialize (IH (advance (zoom get put c) s).1.2).
    destruct (advance (zoom get put c) s) as [[sc s1] p1].
    destruct (advance c (get s)) as [[sc' w1] p1']. cbn [fst snd] in *.
    subst s1. rewrite get_put, put_put in IH.
    destruct (advance (zoom get put k) (put w1 s)) as [[sk s2] p2].
    destruct (advance k w1) as [[sk' w2] p2']. cbn [fst snd] in *. done.
Qed.

Lemma run_zoom (server : Request -> FetchOutcome) {A : Type} (t : Task S A) (s : T) :
  (run server (zoom get put t) s).1
    = ((run server t (get s)).1.1, put (run server t (get s)).1.2 s).
Proof.
  revert s.
  induction t as [A a|A X g k IH|A r k IH|A r1 r2 k IH|A c IHc k IH];
    intros s; cbn [zoom run fst snd].
  - by rewrite put_get.
  - destruct (g (get s)) as [x w'] eqn:Hg. rewrite IH, get_put, put_put. done.
  - apply IH.
  - apply IH.
  - pose proof (advance_zoom_state c s) as Hc.
    specialize (IH (advance (zoom get put c) s).1.2).
    destruct (advance (zoom get put c) s) as [[sc s1] p1].
    destruct (advance c (get s)) as [[sc' w1] p1']. cbn [fst snd] in *.
    subst s1. rewrite get_put, put_put in IH.
    destruct (run server (zoom get put k) (put w1 s)) as [[a s2] p2].
    destruct (run server k w1) as [[a' w2] p2']. cbn [fst snd] in *. done.
Qed.
End ZoomLemmas.

(** ** The transaction history *)

Section History.
Context `{CS : cacheService.t}.
Import TransactionHistory.
Implicit Types (s : Service).
Variable server : Request -> FetchOutcome.

Lemma run_history_fetch url s :
  (run server (zoom api with_api (fetchWithAuth url no_options)) s).1
    = (fetch_result server url (api s),
       with_api (run server (fetchWithAuth url no_options) (api s)).1.2 s).
Proof.
  apply (run_zoom api with_api); [done|done|by intros []].
Qed.

Lemma run_history_fallback useCache e s :
  run server (history_fallback useCache e) s =
    (match data (transactionHistoryCache s) with
     | Some d => if useCache && truthy d then Ok (from_cache d) else Thrown e
     | None => Thrown e
     end, s, []).
Proof.
  unfold history_fallback. rewrite run_bind, run_read.
  destruct (data (transactionHistoryCache s)) as [d|]; [|done].
  by destruct (useCache && truthy d).
Qed.


(** X14. When the request for the transaction history fails, a
    cache-backed call answers with whatever truthy data the cache holds,
    for whatever limit and of whatever age it is, and leaves the cache as
    it is; without such data, or when the call was told not to use the
    cache, the error reaches the caller. *)
Theorem getTransactionHistory_fallback (limit' : Z) useCache s (e : JsError) :
  history_hit limit' useCache s = None ->
  fetch_result server (history_url limit') (api s) = Thrown e ->
  let out := run server (getTransactionHistory limit' useCache) s in
  out.1.1 =
    match data (transactionHistoryCache s) with
    | Some d => if useCache && truthy d then Ok (from_cache d) else Thrown e
    | None => Thrown e
    end
  /\ transactionHistoryCache out.1.2 = transactionHistoryCache s.
Proof.
  intros Hmiss Hfetch out. subst out. unfold getTransactionHistory.
  rewrite run_bind, run_read, Hmiss, run_bind.
  pose proof (run_history_fetch (history_url limit') s) as Hz.
  unfold history_url in Hz at 1.
  remember (run server (fetchWithAuth (history_url limit') no_options)
              (api s)).1.2 as w1 eqn:Hw1 in Hz |- *. clear Hw1.
  destruct (run server (zoom api with_api _) s) as [[r s'] p'].
  cbn [fst snd] in Hz |- *. injection Hz as -> ->. rewrite Hfetch.
  rewrite run_history_fallback. cbn [fst snd transactionHistoryCache with_api].
  done.
Qed.

(** X15. An answer without a truthy [success] is handed to the caller and
    leaves the cache of the transaction history as it is; a successful
    answer replaces the cache with its [data], stamped with the clock and
    the limit, also when the call was told not to use the cache and also
    when the answer has no [data], in which case nothing is left to fall
    back on. *)
Theorem getTransactionHistory_cache_update (limit' : Z) useCache s (result : value) :
  history_hit limit' useCache s = None ->
  fetch_result server (history_url limit') (api s) = Ok result ->
  result <> VNull ->
  let out := run server (getTransactionHistory limit' useCache) s in
  out.1.1 = Ok result
  /\ transactionHistoryCache out.1.2 =
       (if truthy_prop (prop result "success")
        then mkCache (prop result "data") (clock (api s)) limit'
        else transactionHistoryCache s).
Proof.
  intros Hmiss Hfetch Hnn out. subst out.
  assert (Hgp : get_prop result "success" = Ok (prop result "success")).
  { unfold prop. destruct result; try done. }
  unfold getTransactionHistory.
  rewrite run_bind, run_read, Hmiss, run_bind.
  pose proof (run_history_fetch (history_url limit') s) as Hz.
  unfold history_url in Hz at 1.
  pose proof (fetchWithAuth_quiet server (history_url limit') no_options (api s))
    as [(_ & Hk & _) _].
  remember (run server (fetchWithAuth (history_url limit') no_options)
              (api s)).1.2 as w1 eqn:Hw1 in Hz, Hk |- *. clear Hw1.
  destruct (run server (zoom api with_api _) s) as [[r s'] p'].
  cbn [fst snd] in Hz |- *. injection Hz as -> ->. rewrite Hfetch, Hgp.
  rewrite run_bind.
  destruct (truthy_prop (prop result "success")); cbn [when run fst snd]; [|done].
  rewrite run_modify. cbn [fst snd transactionHistoryCache with_history api with_api].
  by rewrite Hk.
Qed.
End History.


Lemma getTransactionHistory_fallback_witness :
  let first :=
    run HistoryScenario.answers_one
      (TransactionHistory.getTransactionHistory 10 true) HistoryScenario.service in
  let s1 := history_at_time 90000000 first.1.2 in
  (run Scenario.offline (TransactionHistory.getTransactionHistory 50 true) s1).1.1
    = Ok (TransactionHistory.from_cache (VArr [VObj [("id", VNum 1)]])).
Proof.
  intros first s1.
  destruct (getTransactionHistory_fallback Scenario.offline 50 true s1
              network_failed eq_refl eq_refl) as [H _].
  exact H.
Defined.

Lemma getTransactionHistory_cache_update_witness :
  let out :=
    run HistoryScenario.answers_one
      (TransactionHistory.getTransactionHistory 10 false) HistoryScenario.service in
  TransactionHistory.transactionHistoryCache out.1.2
    = TransactionHistory.mkCache (Some (VArr [VObj [("id", VNum 1)]])) 1000 10.
Proof.
  intros out.
  destruct (getTransactionHistory_cache_update HistoryScenario.answers_one 10 false
              HistoryScenario.service HistoryScenario.one_transaction
              eq_refl eq_refl) as [_ H]; [discriminate|].
  exact H.
Defined.

(** ** The due dates of an investor *)

Section DueDates.
Context `{CS : cacheService.t} `{DS : dueDatesCacheService.t}.
Import InvestorDueDates.
Implicit Types (s : Service).
Variable server : Request -> FetchOutcome.

Lemma run_due_dates_fetch url s :
  (run server (zoom api with_api (fetchWithAuth url no_options)) s).1
    = (fetch_result server url (api s),
       with_api (run server (fetchWithAuth url no_options) (api s)).1.2 s).
Proof.
  apply (run_zoom api with_api); [done|done|by intros []].
Qed.

(** X16. [getInvestorDueDates] answers from the due-dates cache without
    sending anything when it may use the cache and the cache gives
    something truthy.  Otherwise it hands the caller the answer of the
    server as it is, and saves the [data] of the answer for the investor
    when, and only when, the answer is truthy and has a truthy
    [success]. *)
Theorem getInvestorDueDates_answer (investorId : value) useCache s :
  let out := run server (getInvestorDueDates investorId useCache) s in
  (forall d, cached_due_dates investorId useCache s = Some d ->
     out = (Ok (from_cache d), s, []))
  /\ (forall data',
     cached_due_dates investorId useCache s = None ->
     fetch_result server ("/due-dates/investor/" +:+ js_string investorId) (api s)
       = Ok data' ->
     out.1.1 = Ok data'
     /\ dueDates out.1.2 =
          (if truthy data' && truthy_prop (prop data' "success")
           then dueDatesCacheService.saveDueDatesData (clock (api s))
                  (prop data' "data") investorId (dueDates s)
           else dueDates s)).
Proof.
  intros out. subst out. split.
  - intros d Hhit. unfold getInvestorDueDates. by rewrite run_bind, run_read, Hhit.
  - intros data' Hmiss Hfetch. unfold getInvestorDueDates.
    rewrite run_bind, run_read, Hmiss, run_bind.
    pose proof (run_due_dates_fetch
                  ("/due-dates/investor/" +:+ js_string investorId) s) as Hz.
    pose proof (fetchWithAuth_quiet server
                  ("/due-dates/investor/" +:+ js_string investorId)
                  no_options (api s)) as [(_ & Hk & _) _].
    remember (run server (fetchWithAuth
                ("/due-dates/investor/" +:+ js_string investorId) no_options)
                (api s)).1.2 as w1 eqn:Hw1 in Hz, Hk |- *. clear Hw1.
    destruct (run server (zoom api with_api _) s) as [[r s'] p'].
    cbn [fst snd] in Hz |- *. injection Hz as -> ->. rewrite Hfetch.
    rewrite run_bind.
    destruct (truthy data' && truthy_prop (prop data' "success"));
      cbn [when run fst snd]; [|done].
    rewrite run_modify. cbn [fst snd dueDates with_dueDates api with_api].
    by rewrite Hk.
Qed.

Lemma settle_clock o w : clock (settle o w).2 = clock w.
Proof. rewrite announce_eq. unfold announce. by destruct (announces o). Qed.

(** X17. A call of [getInvestorDueDates] that found nothing in the cache
    waits for its one request.  When that request fails, a cache-backed
    call asks the cache again, at that moment: it answers with what the
    cache then gives, which another call may have saved while the request
    was under way, and the error reaches the caller only when the cache
    still gives nothing truthy.  A call told not to use the cache always
    gets the error.  The call itself leaves the cache as it is. *)
Theorem getInvestorDueDates_failure (investorId : value) useCache s (tk : string) :
  cached_due_dates investorId useCache s = None ->
  resolved ("/due-dates/investor/" +:+ js_string investorId) (api s) = Some tk ->
  let a := advance (getInvestorDueDates investorId useCache) s in
  in_flight a.1.1 =
    [build_request (API_BASE_URL (api s))
       ("/due-dates/investor/" +:+ js_string investorId) no_options tk]
  /\ dueDates a.1.2 = dueDates s
  /\ (forall s' o e,
      (settle o (api s')).1 = Thrown e ->
      let out := resume a.1.1 o o s' in
      out.1.1 =
        Finished (match cached_due_dates investorId useCache s' with
                  | Some d => Ok (from_cache d)
                  | None => Thrown e
                  end)
      /\ dueDates out.1.2 = dueDates s'
      /\ (useCache = false -> out.1.1 = Finished (Thrown e))).
Proof.
  intros Hmiss Hr a. subst a. unfold getInvestorDueDates, fetchWithAuth.
  cbn [bind advance read zoom]. rewrite Hmiss. cbn [bind advance zoom].
  rewrite prepare_eq, Hr. cbn [bind advance zoom fst snd in_flight].
  split; [done|]. split; [done|].
  intros s' o e Hfail. cbn [resume bind advance zoom].
  pose proof (settle_clock o (api s')) as Hk.
  destruct (settle o (api s')) as [r w1]. cbn [fst snd] in Hfail, Hk. subst r.
  cbn [bind advance zoom read fst snd].
  assert (Hagain : cached_due_dates investorId useCache (with_api w1 s')
                   = cached_due_dates investorId useCache s').
  { unfold cached_due_dates. cbn [api with_api dueDates]. by rewrite Hk. }
  rewrite Hagain.
  split; [by destruct (cached_due_dates investorId useCache s')|].
  split; [by destruct (cached_due_dates investorId useCache s')|].
  by intros ->.
Qed.
End DueDates.

Lemma getInvestorDueDates_answer_witness :
  (run HistoryScenario.answers_one
     (InvestorDueDates.getInvestorDueDates (VNum 7) true)
     HistoryScenario.investor_service).1.1
  = Ok HistoryScenario.one_transaction.
Proof.
  destruct (getInvestorDueDates_answer HistoryScenario.answers_one (VNum 7) true
              HistoryScenario.investor_service) as [_ H].
  exact (proj1 (H HistoryScenario.one_transaction eq_refl eq_refl)).
Defined.

Lemma getInvestorDueDates_failure_witness :
  let call :=
    (advance (InvestorDueDates.getInvestorDueDates (VNum 7) true)
       HistoryScenario.kept_service).1.1 in
  let failure := Rejected (mkError "TypeError" "Failed to fetch") in
  (resume call failure failure HistoryScenario.kept_service).1.1
    = Finished (Thrown network_failed)
  /\ (resume call failure failure
        HistoryScenario.kept_service_saved).1.1
    = Finished (Ok (InvestorDueDates.from_cache (VArr [VNum 1]))).
Proof.
  intros call failure.
  destruct (getInvestorDueDates_failure (VNum 7) true HistoryScenario.kept_service
              "t" eq_refl eq_refl) as (_ & _ & H).
  split.
  - exact (proj1 (H HistoryScenario.kept_service failure network_failed eq_refl)).
  - exact (proj1 (H HistoryScenario.kept_service_saved failure network_failed
                    eq_refl)).
Defined.

(** ** The realtime listeners *)

Section RealtimeListeners.
Import Realtime.

Lemma setup_again (s : Service) (c : Client) (h1 h2 : nat) :
  supabase s = Some c ->
  (realTimeListeners s = []
   \/ realTimeListeners s = [("investments", h1); ("transactions", h2)]) ->
  let s' := setupRealTimeListeners s in
  supabase s' =
    Some (mkClient
            (subscribed c ++ [("investments-changes", "UPDATE", "investments");
                              ("transactions-changes", "INSERT", "transactions")])
            (removed c))
  /\ realTimeListeners s' =
       [("investments", length (subscribed c));
        ("transactions", Datatypes.S (length (subscribed c)))]
  /\ console s' = console s.
Proof.
  intros Hc Hl s'. subst s'. unfold setupRealTimeListeners. rewrite Hc.
  cbn [subscribe subscribed removed]. rewrite <- app_assoc. cbn [app].
  split; [done|]. split; [|done].
  rewrite length_app. cbn [length]. rewrite Nat.add_1_r.
  by destruct Hl as [-> | ->].
Qed.

(** X18. Listeners set up more than once leak: after [n + 1] calls of
    [setupRealTimeListeners] on a service with a client and no listener,
    [cleanupRealTimeListeners] empties the listener map but asks the
    client to remove two channels only, those of the last call; the
    [2 n] channels the earlier calls got are never handed to
    [removeChannel].  Set up once, everything opened is removed. *)
Theorem realtime_setup_cleanup (n : nat) (s : Service) (c : Client) :
  supabase s = Some c ->
  realTimeListeners s = [] ->
  let s' := cleanupRealTimeListeners
              (Nat.iter (Datatypes.S n) setupRealTimeListeners s) in
  realTimeListeners s' = []
  /\ exists c',
       supabase s' = Some c'
       /\ length (subscribed c') = (length (subscribed c) + 2 * n + 2)%nat
       /\ removed c' =
            removed c ++ [(length (subscribed c) + 2 * n)%nat;
                          (length (subscribed c) + 2 * n + 1)%nat].
Proof.
  intros Hc Hl s'. subst s'.
  assert (H : exists cn,
    supabase (Nat.iter (Datatypes.S n) setupRealTimeListeners s) = Some cn
    /\ length (subscribed cn) = (length (subscribed c) + 2 * n + 2)%nat
    /\ removed cn = removed c
    /\ realTimeListeners (Nat.iter (Datatypes.S n) setupRealTimeListeners s) =
         [("investments", (length (subscribed c) + 2 * n)%nat);
          ("transactions", (length (subscribed c) + 2 * n + 1)%nat)]).
  { induction n as [|n IH].
    - destruct (setup_again s c 0 0 Hc (or_introl Hl)) as (H1 & H2 & _).
      cbn [Nat.iter nat_rect]. eexists. split; [exact H1|].
      cbn [subscribed removed]. rewrite length_app. cbn [length].
      split; [lia|]. split; [done|]. rewrite H2.
      by replace (length (subscribed c) + 2 * 0)%nat with (length (subscribed c))
        by lia; rewrite Nat.add_1_r.
    - destruct IH as (cn & Hs & Hlen & Hrem & Hls).
      destruct (setup_again _ cn _ _ Hs (or_intror Hls)) as (H1 & H2 & _).
      change (Nat.iter (Datatypes.S (Datatypes.S n)) setupRealTimeListeners s)
        with (setupRealTimeListeners
                (Nat.iter (Datatypes.S n) setupRealTimeListeners s)).
      eexists. split; [exact H1|]. cbn [subscribed removed].
      rewrite length_app. cbn [length]. split; [lia|]. split; [done|].
      rewrite H2, Hlen.
      replace (length (subscribed c) + 2 * Datatypes.S n)%nat
        with (length (subscribed c) + 2 * n + 2)%nat by lia.
      by rewrite (Nat.add_1_r (length (subscribed c) + 2 * n + 2)). }
  destruct H as (cn & Hs & Hlen & Hrem & Hls).
  unfold cleanupRealTimeListeners. cbn [realTimeListeners supabase].
  split; [done|]. rewrite Hs, Hls. eexists. split; [reflexivity|].
  cbn [foldl removeChannel subscribed removed snd]. split; [done|].
  by rewrite Hrem, <- app_assoc.
Qed.

End RealtimeListeners.

Lemma realtime_setup_cleanup_witness :
  let s := Realtime.initSupabase (Some (Realtime.mkClient [] [])) Realtime.initial in
  let s' := Realtime.cleanupRealTimeListeners
              (Realtime.setupRealTimeListeners (Realtime.setupRealTimeListeners s)) in
  exists c', Realtime.supabase s' = Some c'
             /\ Realtime.removed c' = [2%nat; 3%nat]
             /\ Realtime.still_open c' = [0%nat; 1%nat].
Proof.
  intros s s'.
  destruct (realtime_setup_cleanup 1 s (Realtime.mkClient [] []) eq_refl eq_refl)
    as (_ & c' & Hs & _ & Hr).
  exists c'. split; [exact Hs|]. split; [exact Hr|].
  revert Hs. intros [= <-]. reflexivity.
Defined.

(** ** The carousel: its cache, its loading flag, its slides *)

Section CarouselMore.
Import ServerEventsCarousel CarouselEffects.
Variable JSON_parse : string -> Result value.
Variable JSON_stringify : value -> string.
Abbreviation getCached := (getCachedEvents JSON_parse).
Abbreviation setCached := (setCachedEvents JSON_stringify).
Abbreviation fetchEvents' := (fetchEvents JSON_parse JSON_stringify).
Abbreviation after_fetch' := (after_fetch JSON_parse JSON_stringify).
Abbreviation happen' := (happen JSON_parse JSON_stringify).
Implicit Types (c : Carousel) (m : Mounted).

(** X20. What [setCachedEvents] stores, [getCachedEvents] gives back for
    five minutes: read less than five minutes after it was written, the
    cache gives the stored events, or the empty list when they were falsy;
    from five minutes on, or when it was written at clock zero, it gives
    nothing.  Reading leaves the store as it is. *)
Theorem carousel_cache_round_trip c (eventsData : value) (now' : Z) :
  let doc := VObj [("events", eventsData); ("timestamp", VNum (clock c))] in
  JSON_parse (JSON_stringify doc) = Ok doc ->
  JSON_stringify doc <> "" ->
  let c1 := at_time now' (setCached eventsData c) in
  getCached c1 =
    (if negb (clock c =? 0) && (now' - clock c <? CACHE_EXPIRY_MS)
     then Some (if truthy eventsData then eventsData else VArr [])
     else None, c1).
Proof.
  intros doc Hrt Hne c1. subst c1.
  unfold getCachedEvents, setCachedEvents, at_time, setItem_cache.
  cbn [ls_server_events_cache clock]. fold doc.
  assert (Ht : truthy_str (Some (JSON_stringify doc)) = true).
  { cbn. destruct (String.eqb_spec (JSON_stringify doc) ""); [done|done]. }
  rewrite Ht, Hrt.
  assert (Hts : get_prop doc "timestamp" = Ok (Some (VNum (clock c)))).
  { subst doc. cbn [get_prop obj_of_fields foldl fst snd].
    by rewrite lookup_insert_eq. }
  assert (Hev : prop doc "events" = Some eventsData).
  { subst doc. unfold prop. cbn [get_prop obj_of_fields foldl fst snd].
    rewrite lookup_insert_ne by done. by rewrite lookup_insert_eq. }
  rewrite Hts, Hev. cbn [still_valid js_or].
  by destruct (negb (clock c =? 0) && (now' - clock c <? CACHE_EXPIRY_MS)).
Qed.

Lemma getCachedEvents_loading c :
  isLoading (getCached c).2 = isLoading c.
Proof.
  unfold getCachedEvents.
  destruct (ls_server_events_cache c) as [s|]; [|done].
  destruct (truthy_str (Some s)); [|done].
  destruct (JSON_parse s) as [parsed|e]; [|done].
  destruct (get_prop parsed "timestamp") as [ts|e]; [|done].
  by destruct (still_valid (clock c) ts).
Qed.

Lemma use_props_frame props c :
  sent (use_props JSON_stringify props c) = sent c
  /\ ls_session_token (use_props JSON_stringify props c) = ls_session_token c.
Proof.
  unfold use_props. by destruct (truthy props && has_items (Some props)).
Qed.

(** A call of [fetchEvents] on an idle carousel: it finishes at once with
    the loading flag down and nothing sent, or it is left waiting for the
    one request it sent, which takes a truthy session token. *)
Lemma advance_fetchEvents_idle_full forceRefresh c :
  fetchInProgress c = false ->
  let a := advance (fetchEvents' forceRefresh) c in
  a.2 = []
  /\ ls_session_token a.1.2 = ls_session_token c
  /\ ((a.1.1 = Finished tt
       /\ fetchInProgress a.1.2 = false
       /\ isLoading a.1.2 = false
       /\ sent a.1.2 = sent c)
      \/ (exists r,
           a.1.1 = Waiting r (fun o => modify (after_fetch' (propEvents c) o))
           /\ fetchInProgress a.1.2 = true
           /\ truthy_str (ls_session_token c) = true
           /\ sent a.1.2 = sent c ++ [r])).
Proof.
  intros H a. subst a. unfold ServerEventsCarousel.fetchEvents.
  cbn [bind advance read]. rewrite H.
  assert (Hfetch : forall c1 : Carousel,
    propEvents c1 = propEvents c -> sent c1 = sent c ->
    ls_session_token c1 = ls_session_token c ->
    let t := (let! _ := modify (set_fetchInProgress true) in
              let! props := read propEvents in
              let! tk := read ls_session_token in
              match tk with
              | Some t =>
                  if truthy_str (Some t) then
                    let! r := Sync (fun c => let r := events_request c t in
                                             (r, send r c)) Done in
                    Fetch r (fun o => modify (after_fetch' props o))
                  else
                    modify (fun c => finally (set_fetchInProgress false
                               (setIsLoading false
                                  (use_props JSON_stringify props c))))
              | None =>
                  modify (fun c => finally (set_fetchInProgress false
                             (setIsLoading false
                                (use_props JSON_stringify props c))))
              end) in
    (advance t c1).2 = []
    /\ ls_session_token (advance t c1).1.2 = ls_session_token c
    /\ (((advance t c1).1.1 = Finished tt
         /\ fetchInProgress (advance t c1).1.2 = false
         /\ isLoading (advance t c1).1.2 = false
         /\ sent (advance t c1).1.2 = sent c)
        \/ (exists r,
             (advance t c1).1.1
               = Waiting r (fun o => modify (after_fetch' (propEvents c) o))
             /\ fetchInProgress (advance t c1).1.2 = true
             /\ truthy_str (ls_session_token c) = true
             /\ sent (advance t c1).1.2 = sent c ++ [r]))).
  { intros c1 Hp Hs Htok t. subst t. cbn [bind advance read modify fst snd].
    change (propEvents (set_fetchInProgress true c1)) with (propEvents c1).
    change (ls_session_token (set_fetchInProgress true c1))
      with (ls_session_token c1).
    rewrite Hp.
    destruct (use_props_frame (propEvents c) (set_fetchInProgress true c1))
      as [Hus Hut].
    assert (Hnone :
      sent (finally (set_fetchInProgress false (setIsLoading false
             (use_props JSON_stringify (propEvents c)
                (set_fetchInProgress true c1))))) = sent c
      /\ ls_session_token (finally (set_fetchInProgress false (setIsLoading false
             (use_props JSON_stringify (propEvents c)
                (set_fetchInProgress true c1))))) = ls_session_token c).
    { cbn [finally set_fetchInProgress setIsLoading sent ls_session_token].
      rewrite Hus, Hut. cbn. by rewrite Hs, Htok. }
    destruct Hnone as [Hn1 Hn2]. rewrite <- Htok.
    destruct (ls_session_token c1) as [t|] eqn:Hc1;
      [destruct (truthy_str (Some t)) eqn:Htr|].
    - cbn [bind advance fst snd]. split; [done|]. split; [by cbn|]. right.
      eexists. split; [reflexivity|]. split; [reflexivity|]. split; [done|].
      cbn. by rewrite Hs.
    - cbn [bind advance modify fst snd]. split; [done|].
      split; [by rewrite Hn2, <- Htok|]. left.
      split; [done|]. split; [done|]. split; [done|]. exact Hn1.
    - cbn [bind advance modify fst snd]. split; [done|].
      split; [by rewrite Hn2, <- Htok|]. left.
      split; [done|]. split; [done|]. split; [done|]. exact Hn1. }
  destruct forceRefresh.
  - cbn [bind advance]. by apply Hfetch.
  - cbn [bind advance].
    destruct (getCachedEvents_frame JSON_parse c) as (Hf & Hs & Hp & Htok).
    destruct (getCachedEvents JSON_parse c) as [cached c1].
    cbn [fst snd] in Hf, Hs, Hp, Htok. cbn [bind advance].
    destruct (has_items cached) eqn:Hitems.
    + destruct cached as [v|]; [|discriminate].
      cbn [bind advance modify fst snd]. split; [done|].
      split; [by cbn|]. left.
      split; [done|]. split; [by cbn; rewrite Hf|]. split; [done|]. by cbn.
    + by apply Hfetch.
Qed.

Lemma on_props_keeps c :
  fetchInProgress (on_props JSON_stringify c) = fetchInProgress c
  /\ sent (on_props JSON_stringify c) = sent c
  /\ ls_session_token (on_props JSON_stringify c) = ls_session_token c
  /\ (isLoading c = false -> isLoading (on_props JSON_stringify c) = false).
Proof.
  unfold on_props.
  by destruct (truthy (propEvents c) && has_items (Some (propEvents c))).
Qed.

Lemma on_props_frame props c :
  fetchInProgress (on_props JSON_stringify (with_props props c)) = fetchInProgress c
  /\ sent (on_props JSON_stringify (with_props props c)) = sent c
  /\ ls_session_token (on_props JSON_stringify (with_props props c))
       = ls_session_token c
  /\ (isLoading c = false ->
      isLoading (on_props JSON_stringify (with_props props c)) = false).
Proof. exact (on_props_keeps (with_props props c)). Qed.

Lemma happen_keeps m h :
  one_fetch_at_most JSON_parse JSON_stringify m ->
  (m.2 = [] -> isLoading m.1 = false) ->
  one_fetch_at_most JSON_parse JSON_stringify (happen' m h)
  /\ ((happen' m h).2 = [] -> isLoading (happen' m h).1 = false).
Proof.
  destruct m as [c waiting]. unfold one_fetch_at_most. cbn [fst snd].
  intros [[Hidle ->]|[Hbusy (r & props & ->)]] Hload.
  - specialize (Hload eq_refl). destruct h as [f| |props|i o|now'|t].
    + unfold happen.
      destruct (advance_fetchEvents_idle_full f c Hidle)
        as (_ & _ & [(Hs & Hf & Hl & _)|(q & Hs & Hf & _)]);
        destruct (advance (fetchEvents' f) c) as [[s c'] p];
        cbn [fst snd] in *; subst s.
      * split; [by left|done].
      * split; [|discriminate]. right. split; [done|]. by exists q, (propEvents c).
    + unfold happen, handleRefresh. cbn [bind advance modify].
      destruct (advance_fetchEvents_idle_full true (setIsLoading true c) Hidle)
        as (_ & _ & [(Hs & Hf & Hl & _)|(q & Hs & Hf & _)]);
        destruct (advance (fetchEvents' true) (setIsLoading true c)) as [[s c'] p];
        cbn [fst snd] in *; subst s.
      * split; [by left|done].
      * split; [|discriminate]. right. split; [done|].
        by exists q, (propEvents c).
    + cbn [happen fst snd].
      destruct (on_props_frame props c) as (Hf & _ & _ & Hl).
      split; [left; by rewrite Hf|]. intros _. by apply Hl.
    + split; [by left|done].
    + split; [by left|done].
    + split; [by left|done].
  - destruct h as [f| |props'|i o|now'|t].
    + unfold happen. rewrite advance_fetchEvents_busy by done.
      split; [|discriminate]. right. split; [done|]. by exists r, props.
    + unfold happen, handleRefresh. cbn [bind advance modify].
      rewrite advance_fetchEvents_busy by done.
      split; [|discriminate]. right. split; [done|]. by exists r, props.
    + cbn [happen fst snd].
      destruct (on_props_frame props' c) as (Hf & _).
      split; [|discriminate]. right. rewrite Hf. split; [done|]. by exists r, props.
    + destruct i as [|i].
      * split; [by left|]. done.
      * split; [|discriminate]. right. split; [done|]. by exists r, props.
    + split; [|discriminate]. right. split; [done|]. by exists r, props.
    + split; [|discriminate]. right. split; [done|]. by exists r, props.
Qed.

Lemma show_cached_or_props_frame c :
  fetchInProgress (show_cached_or_props JSON_parse JSON_stringify c)
    = fetchInProgress c.
Proof.
  unfold show_cached_or_props.
  destruct (getCachedEvents_frame JSON_parse c) as (Hf & _).
  destruct (getCachedEvents JSON_parse c) as [cached c1]. cbn [fst snd] in Hf.
  destruct cached as [v|];
    [destruct (has_items (Some v)); [by cbn|]|];
    by destruct (truthy (propEvents c1) && has_items (Some (propEvents c1))).
Qed.

Lemma happens_keep (l : list Happening) m :
  one_fetch_at_most JSON_parse JSON_stringify m ->
  (m.2 = [] -> isLoading m.1 = false) ->
  one_fetch_at_most JSON_parse JSON_stringify (foldl happen' m l)
  /\ ((foldl happen' m l).2 = [] -> isLoading (foldl happen' m l).1 = false).
Proof.
  revert m. induction l as [|h l IH]; intros m H1 H2; [done|].
  cbn [foldl]. destruct (happen_keeps m h H1 H2) as [H3 H4]. by apply IH.
Qed.

(** X21. From its mounting on, whatever calls of [fetchEvents], clicks on
    refresh, new props, passing of time, writes of the session token and
    settlements follow, the carousel has at most one fetch in flight, and
    whenever none is in flight its loading flag is down: the flag a
    refresh raises while a fetch is under way is lowered when that fetch
    settles. *)
Theorem carousel_loading_never_sticks c0 (l : list Happening) :
  fetchInProgress c0 = false ->
  let m := mounted_then JSON_parse JSON_stringify c0 l in
  (length m.2 <= 1)%nat
  /\ (m.2 = [] -> isLoading m.1 = false /\ fetchInProgress m.1 = false).
Proof.
  intros Hidle m.
  assert (Hm : one_fetch_at_most JSON_parse JSON_stringify m
               /\ (m.2 = [] -> isLoading m.1 = false)).
  { subst m. unfold mounted_then, on_mount. cbn [bind advance modify].
    pose proof (show_cached_or_props_frame c0) as Hf. rewrite Hidle in Hf.
    set (c1 := show_cached_or_props JSON_parse JSON_stringify c0) in *.
    assert (H0 : one_fetch_at_most JSON_parse JSON_stringify
                   (on_props JSON_stringify (advance (fetchEvents' false) c1).1.2,
                    park (advance (fetchEvents' false) c1).1.1)
                 /\ (park (advance (fetchEvents' false) c1).1.1 = [] ->
                     isLoading
                       (on_props JSON_stringify
                          (advance (fetchEvents' false) c1).1.2) = false)).
    { destruct (on_props_keeps (advance (fetchEvents' false) c1).1.2)
        as (Hpf & _ & _ & Hpl).
      destruct (advance_fetchEvents_idle_full false c1 Hf)
        as (_ & _ & [(Hs & Hf' & Hl & _)|(q & Hs & Hf' & _)]);
        rewrite Hs; cbn [park].
      - split; [left; cbn [fst snd]; by rewrite Hpf|]. intros _. by apply Hpl.
      - split; [|discriminate]. right. cbn [fst snd]. rewrite Hpf.
        split; [done|]. by exists q, (propEvents c1). }
    destruct (advance (fetchEvents' false) c1) as [[s c'] p].
    destruct H0 as [H1 H2]. by apply happens_keep. }
  destruct Hm as [Hinv Hload]. destruct m as [c waiting].
  destruct Hinv as [[Hf Hw]|[Hf (r & props & Hw)]]; cbn [fst snd] in *; subst waiting.
  - split; [cbn; lia|]. intros _. split; [by apply Hload|done].
  - split; [cbn; lia|]. discriminate.
Qed.

Lemma advance_fetchEvents_forced c (t : string) :
  fetchInProgress c = false ->
  ls_session_token c = Some t ->
  truthy_str (Some t) = true ->
  exists r k c',
    advance (fetchEvents' true) c = (Waiting r k, c', [])
    /\ sent c' = sent c ++ [r]
    /\ req_headers r !! "Authorization" = Some ("Bearer " +:+ t).
Proof.
  intros Hf Ht Htr. unfold ServerEventsCarousel.fetchEvents.
  cbn [bind advance read modify]. rewrite Hf.
  cbn [bind advance read modify ls_session_token set_fetchInProgress].
  rewrite Ht, Htr. cbn [bind advance].
  eexists _, _, _. split; [reflexivity|]. split; [reflexivity|].
  unfold events_request. cbn [req_headers]. apply lookup_insert_eq.
Qed.

(** X22. As long as [localStorage] holds no truthy session token, at the
    mounting and after every write of it, the carousel sends no request
    and is never left waiting, whatever else happens to it.  The token is
    read anew at every call: once a truthy one is stored, the next click
    on refresh sends a request carrying it. *)
Theorem carousel_without_token_sends_nothing
    c0 (l : list Happening) (t : string) :
  fetchInProgress c0 = false ->
  truthy_str (ls_session_token c0) = false ->
  Forall (fun h => stores_token h = false) l ->
  let m := mounted_then JSON_parse JSON_stringify c0 l in
  sent m.1 = sent c0
  /\ m.2 = []
  /\ (truthy_str (Some t) = true ->
      let m' := happen' (happen' m (Stores (Some t))) Refreshes in
      exists r, sent m'.1 = sent c0 ++ [r]
                /\ req_headers r !! "Authorization" = Some ("Bearer " +:+ t)
                /\ in_flight <$> m'.2 = [[r]]).
Proof.
  intros Hidle Htok Hl m.
  set (K := fun m : Mounted =>
    fetchInProgress m.1 = false /\ truthy_str (ls_session_token m.1) = false
    /\ sent m.1 = sent c0 /\ m.2 = []).
  assert (Hcall : forall f c,
    fetchInProgress c = false -> truthy_str (ls_session_token c) = false ->
    sent c = sent c0 ->
    K ((advance (fetchEvents' f) c).1.2, park (advance (fetchEvents' f) c).1.1)).
  { intros f c Hf Ht Hs.
    destruct (advance_fetchEvents_idle_full f c Hf)
      as (_ & Ht' & [(Hfin & Hf' & _ & Hs')|(q & _ & _ & Htr & _)]).
    - rewrite Hfin. unfold K. cbn [fst snd park]. by rewrite Ht', Hs'.
    - rewrite Ht in Htr. discriminate. }
  assert (Hstep : forall m h, stores_token h = false -> K m -> K (happen' m h)).
  { intros [c waiting] h Hh (Hf & Ht & Hs & Hw). cbn [fst snd] in *. subst waiting.
    destruct h as [f| |props|i o|now'|t'].
    - unfold happen. specialize (Hcall f c Hf Ht Hs).
      by destruct (advance (fetchEvents' f) c) as [[s c'] p].
    - unfold happen, handleRefresh. cbn [bind advance modify].
      specialize (Hcall true (setIsLoading true c) Hf Ht Hs).
      by destruct (advance (fetchEvents' true) (setIsLoading true c)) as [[s c'] p].
    - cbn [happen]. destruct (on_props_frame props c) as (Hf' & Hs' & Ht' & _).
      unfold K. cbn [fst snd]. by rewrite Hf', Hs', Ht'.
    - done.
    - done.
    - done. }
  assert (Hm : K m).
  { subst m. unfold mounted_then, on_mount. cbn [bind advance modify].
    set (c1 := show_cached_or_props JSON_parse JSON_stringify c0).
    assert (Hc1 : fetchInProgress c1 = false
                  /\ ls_session_token c1 = ls_session_token c0
                  /\ sent c1 = sent c0).
    { subst c1. unfold show_cached_or_props.
      destruct (getCachedEvents_frame JSON_parse c0) as (Hf & Hs & _ & Ht).
      destruct (getCachedEvents JSON_parse c0) as [cached c']. cbn [fst snd] in *.
      destruct cached as [v|];
        [destruct (has_items (Some v)); [by cbn; rewrite Hf, Hs, Ht|]|];
        destruct (truthy (propEvents c') && has_items (Some (propEvents c')));
        cbn; by rewrite ?Hf, ?Hs, ?Ht. }
    destruct Hc1 as (Hf & Ht & Hs). rewrite <- Ht in Htok.
    specialize (Hcall false c1 Hf Htok Hs).
    destruct (on_props_keeps (advance (fetchEvents' false) c1).1.2)
      as (Hpf & Hps & Hpt & _).
    assert (Hprops : K (on_props JSON_stringify (advance (fetchEvents' false) c1).1.2,
                        park (advance (fetchEvents' false) c1).1.1)).
    { destruct Hcall as (H1 & H2 & H3 & H4). unfold K. cbn [fst snd] in *.
      by rewrite Hpf, Hps, Hpt. }
    destruct (advance (fetchEvents' false) c1) as [[s c'] p].
    assert (Hall : forall m, K m -> K (foldl happen' m l)).
    { clear - Hstep Hl. induction Hl as [|h l Hh Hl IH]; intros m Hm; [done|].
      cbn [foldl]. apply IH. by apply Hstep. }
    apply Hall. exact Hprops. }
  destruct Hm as (Hf & _ & Hs & Hw). split; [done|]. split; [done|].
  intros Htr m'. subst m'. destruct m as [c waiting]. cbn [fst snd] in *.
  subst waiting. unfold happen at 2. unfold happen, handleRefresh.
  cbn [bind advance modify].
  destruct (advance_fetchEvents_forced
              (setIsLoading true (with_session_token (Some t) c)) t Hf eq_refl Htr)
    as (r & k & c' & Ha & Hsent & Hh).
  rewrite Ha. cbn [fst snd park app fmap list_fmap in_flight].
  exists r. split; [by rewrite Hsent; cbn; rewrite Hs|]. by split.
Qed.
End CarouselMore.

Lemma carousel_cache_round_trip_witness :
  let stored := VObj [("events", VArr [VNum 7]); ("timestamp", VNum 1000)] in
  let c1 := CarouselEffects.at_time 2000
              (ServerEventsCarousel.setCachedEvents (fun _ => "{}") (VArr [VNum 7])
                 CarouselScenario.mounted) in
  ServerEventsCarousel.getCachedEvents (fun _ => Ok stored) c1
    = (Some (VArr [VNum 7]), c1).
Proof.
  intros stored c1.
  exact (carousel_cache_round_trip (fun _ => Ok stored) (fun _ => "{}")
           CarouselScenario.mounted (VArr [VNum 7]) 2000 eq_refl
           (fun H : "{}" = "" => eq_ind "{}"
              (fun s => match s with EmptyString => False | String _ _ => True end)
              I "" H)).
Defined.

Lemma carousel_loading_never_sticks_witness :
  let m := CarouselEffects.mounted_then CarouselScenario.parse
             CarouselScenario.stringify CarouselScenario.mounted
             [CarouselEffects.Refreshes;
              CarouselEffects.Settles 0 (Response 500 (Ok (VObj [])))] in
  (length m.2 <= 1)%nat
  /\ (m.2 = [] ->
      ServerEventsCarousel.isLoading m.1 = false
      /\ ServerEventsCarousel.fetchInProgress m.1 = false).
Proof.
  exact (carousel_loading_never_sticks CarouselScenario.parse
           CarouselScenario.stringify CarouselScenario.mounted
           [CarouselEffects.Refreshes;
            CarouselEffects.Settles 0 (Response 500 (Ok (VObj [])))] eq_refl).
Defined.

Lemma carousel_without_token_sends_nothing_witness :
  let c0 := ServerEventsCarousel.mkCarousel None (VArr []) (VArr []) true None
              false None None 1000 [] [] in
  let m := CarouselEffects.mounted_then CarouselScenario.parse
             CarouselScenario.stringify c0
             [CarouselEffects.Calls true; CarouselEffects.Refreshes;
              CarouselEffects.Stores (Some ""); CarouselEffects.Calls false] in
  ServerEventsCarousel.sent m.1 = [] /\ m.2 = [].
Proof.
  destruct (carousel_without_token_sends_nothing CarouselScenario.parse
              CarouselScenario.stringify
              (ServerEventsCarousel.mkCarousel None (VArr []) (VArr []) true None
                 false None None 1000 [] [])
              [CarouselEffects.Calls true; CarouselEffects.Refreshes;
               CarouselEffects.Stores (Some ""); CarouselEffects.Calls false]
              "t" eq_refl eq_refl
              ltac:(repeat constructor))
    as (H1 & H2 & _).
  split; [exact H1|exact H2].
Defined.

Section CarouselSlides.
Import CarouselEffects.

Lemma goToNext_mod (length i : Z) :
  0 <= i < length -> goToNext length i = (i + 1) mod length.
Proof.
  intros H. unfold goToNext. destruct (Z.eqb_spec i (length - 1)) as [->|Hne].
  - replace (length - 1 + 1) with length by lia. by rewrite Z.mod_same by lia.
  - by rewrite Z.mod_small by lia.
Qed.

Lemma goToNext_iter (length i : Z) (k : nat) :
  0 <= i < length ->
  Nat.iter k (goToNext length) i = (i + Z.of_nat k) mod length.
Proof.
  intros H. induction k as [|k IH].
  - change (i = (i + 0) mod length). rewrite Z.add_0_r.
    by rewrite Z.mod_small by lia.
  - rewrite Nat.iter_succ, IH.
    rewrite goToNext_mod by (apply Z.mod_pos_bound; lia).
    rewrite Zplus_mod_idemp_l. f_equal. lia.
Qed.

(** X23. With [currentIndex] on one of the slides, [goToNext] and
    [goToPrevious] keep it on one of them and undo each other, and as many
    steps forward as there are slides bring the first slide shown back. *)
Theorem carousel_slides_cycle (length currentIndex : Z) :
  0 <= currentIndex < length ->
  0 <= goToNext length currentIndex < length
  /\ 0 <= goToPrevious length currentIndex < length
  /\ goToPrevious length (goToNext length currentIndex) = currentIndex
  /\ goToNext length (goToPrevious length currentIndex) = currentIndex
  /\ Nat.iter (Z.to_nat length) (goToNext length) currentIndex = currentIndex.
Proof.
  intros H. split; [|split; [|split; [|split]]].
  - unfold goToNext. destruct (Z.eqb_spec currentIndex (length - 1)); lia.
  - unfold goToPrevious. destruct (Z.eqb_spec currentIndex 0); lia.
  - unfold goToNext, goToPrevious.
    destruct (Z.eqb_spec currentIndex (length - 1)) as [->|Hne].
    + by rewrite Z.eqb_refl.
    + destruct (Z.eqb_spec (currentIndex + 1) 0); lia.
  - unfold goToNext, goToPrevious.
    destruct (Z.eqb_spec currentIndex 0) as [->|Hne].
    + rewrite Z.eqb_refl. done.
    + destruct (Z.eqb_spec (currentIndex - 1) (length - 1)); lia.
  - rewrite goToNext_iter by done. rewrite Z2Nat.id by lia.
    replace (currentIndex + length) with (currentIndex + 1 * length) by lia.
    rewrite Z.mod_add by lia. apply Z.mod_small. lia.
Qed.

(** X24. A [currentIndex] past the last slide, as a shorter list of
    events leaves it, is not brought back by going forward: every step of
    [goToNext], which is also the tick of the auto-play, moves it one
    further, so that it stays past the last slide. *)
Theorem carousel_index_past_the_end (length currentIndex : Z) (k : nat) :
  length <= currentIndex ->
  Nat.iter k (goToNext length) currentIndex = currentIndex + Z.of_nat k
  /\ length <= Nat.iter k (goToNext length) currentIndex.
Proof.
  intros H.
  assert (Hk : Nat.iter k (goToNext length) currentIndex
               = currentIndex + Z.of_nat k).
  { induction k as [|k IH]; [change (currentIndex = currentIndex + 0); lia|].
    rewrite Nat.iter_succ, IH. unfold goToNext.
    destruct (Z.eqb_spec (currentIndex + Z.of_nat k) (length - 1)); lia. }
  split; [exact Hk|]. rewrite Hk. lia.
Qed.
End CarouselSlides.

Lemma carousel_slides_cycle_witness :
  CarouselEffects.goToPrevious 3 (CarouselEffects.goToNext 3 2) = 2
  /\ Nat.iter 3 (CarouselEffects.goToNext 3) 1 = 1.
Proof.
  destruct (carousel_slides_cycle 3 2 ltac:(lia))
    as (_ & _ & H & _).
  destruct (carousel_slides_cycle 3 1 ltac:(lia))
    as (_ & _ & _ & _ & H').
  split; [exact H|exact H'].
Defined.

Lemma carousel_index_past_the_end_witness :
  Nat.iter 4 (CarouselEffects.goToNext 2) 3 = 7.
Proof.
  destruct (carousel_index_past_the_end 2 3 4 ltac:(lia))
    as [H _].
  exact H.
Defined.

(** ** The dashboard page's reading of a failed request *)

Section SessionExpired.
Context `{CS : cacheService.t}.
Variable server : Request -> FetchOutcome.
Import DashboardAPI DashboardPage.

(** X25. The page applies its test for an expired session to the error
    [getDashboardData] throws, and to nothing else.  When the primary
    endpoint answers with a status that is not [ok], a call that finds
    valid cached data returns it, and a cache-backed call that finds any
    cached data returns the tagged copy: nothing is thrown, so the test
    is not reached, a 401 or not.  Otherwise the error is thrown, and it
    passes the test exactly when the body's textual [detail] mentions 401
    or Unauthorized, whatever the status; with no truthy [detail], a
    status of 401 passes it. *)
Theorem session_expired_read_from_text useCache w tk status json detail :
  resolved "/dashboard/data" w = Some tk ->
  server (primary_request w tk) = Response status json ->
  response_ok status = false ->
  get_prop (match json with Ok v => v | Thrown _ => VObj [] end) "detail"
    = Ok detail ->
  let out := (run server (getDashboardData useCache) w).1.1 in
  match cache_hit useCache w with
  | Some cachedData => out = Ok cachedData
  | None =>
      match (if useCache then cacheService.getDashboardData (clock w) (cache w)
             else None) with
      | Some cachedData =>
          exists data,
            out = Ok data /\ data !! "_fromCacheDueToError" = Some (VBool true)
      | None =>
          exists e,
            out = Thrown e
            /\ (forall d, detail = Some (VStr d) -> d <> "" ->
                shows_session_expired e
                  = js_includes d "401" || js_includes d "Unauthorized")
            /\ (truthy_prop detail = false -> status = 401 ->
                shows_session_expired e = true)
      end
  end.
Proof.
  intros Hres Hsrv Hok Hdet out. subst out.
  destruct (cache_hit useCache w) as [cachedData|] eqn:Hhit.
  - by rewrite (run_getDashboardData_hit server useCache w cachedData Hhit).
  - assert (Hp : fetch_result server "/dashboard/data" w
                 = Thrown (http_error status json)).
    { rewrite fetch_result_eq, Hres. fold (primary_request w tk). rewrite Hsrv.
      cbn [settle]. rewrite Hok. unfold rethrow.
      by rewrite http_error_not_network. }
    rewrite run_getDashboardData_miss by done. rewrite Hp, run_fallback.
    cbn [fst snd]. rewrite after_requests_cache, after_requests_clock.
    destruct (if useCache then cacheService.getDashboardData (clock w) (cache w)
              else None) as [cachedData|].
    + eexists. split; [reflexivity|].
      rewrite lookup_insert_ne by done. apply lookup_insert_eq.
    + unfold http_error. rewrite Hdet. eexists. split; [reflexivity|]. split.
      * intros d -> Hd. cbn [js_or truthy].
        destruct (String.eqb_spec d ""); [done|]. reflexivity.
      * intros Hfalsy ->.
        assert (Hor : js_or detail (VStr ("HTTP error! status: " +:+ pretty 401))
                      = VStr ("HTTP error! status: " +:+ pretty 401)).
        { destruct detail as [v|]; [|done]. cbn in Hfalsy. cbn [js_or].
          by rewrite Hfalsy. }
        rewrite Hor. by vm_compute.
Qed.

(** X26. A request that could not be sent for want of a credential, or
    that failed on the network, never makes the page show its
    session-expired modal. *)
Theorem session_expired_not_shown url w :
  resolved url w = None
  \/ (exists tk e0,
        resolved url w = Some tk
        /\ server (build_request (API_BASE_URL w) url no_options tk) = Rejected e0
        /\ is_network_error e0 = true) ->
  exists e,
    fetch_result server url w = Thrown e /\ shows_session_expired e = false.
Proof.
  rewrite fetch_result_eq. intros [->|(tk & e0 & -> & -> & Hnet)].
  - eexists. split; [reflexivity|]. by vm_compute.
  - cbn [settle]. unfold rethrow. rewrite Hnet. cbn [fst].
    eexists. split; [reflexivity|]. by vm_compute.
Qed.
End SessionExpired.

Lemma session_expired_read_from_text_witness :
  let server := Scenario.answers 401 [("detail", VStr "Invalid or expired session")] in
  (exists e,
     (run server (getDashboardData false)
        (Scenario.browser (Some "t") None 0)).1.1 = Thrown e
     /\ DashboardPage.shows_session_expired e = false)
  /\ (exists data,
     (run server (getDashboardData true)
        (Scenario.browser (Some "t") (Scenario.entry 500 0) 10000000)).1.1 = Ok data).
Proof.
  intros server. split.
  - destruct (session_expired_read_from_text server false
                (Scenario.browser (Some "t") None 0) "t" 401
                (Ok (VObj [("detail", VStr "Invalid or expired session")]))
                (Some (VStr "Invalid or expired session"))
                eq_refl eq_refl eq_refl eq_refl) as (e & He & Hd & _).
    exists e. split; [exact He|].
    rewrite (Hd "Invalid or expired session" eq_refl); [reflexivity|discriminate].
  - destruct (session_expired_read_from_text server true
                (Scenario.browser (Some "t") (Scenario.entry 500 0) 10000000)
                "t" 401
                (Ok (VObj [("detail", VStr "Invalid or expired session")]))
                (Some (VStr "Invalid or expired session"))
                eq_refl eq_refl eq_refl eq_refl) as (data & Hdata & _).
    exists data. exact Hdata.
Defined.

Lemma session_expired_not_shown_witness :
  exists e,
    fetch_result Scenario.offline "/dashboard/data"
      (Scenario.browser (Some "t") None 0) = Thrown e
    /\ DashboardPage.shows_session_expired e = false.
Proof.
  apply (session_expired_not_shown Scenario.offline "/dashboard/data"
           (Scenario.browser (Some "t") None 0)).
  right. exists "t", (mkError "TypeError" "Failed to fetch").
  repeat split; reflexivity.
Defined.
